(** * The KVM guest-instance controller: script rendering, cmdline
      unification and descriptor reconciliation

    A shallow embedding of the [guestman] part of
    [src/vendor/yunion.io/x/cloudmux/pkg/multicloud/huawei/loadbalancer.go]
    (lines 641-1489: the methods of [SKVMGuestInstance]) and the properties
    its specification states about them.

    Go strings are [string], Go [int]/[int64]/[uint] are [Z] with the
    wrap-around written out, [map[string]T] is [gmap string T], slices are
    lists.  A Go function that can return an error or dereference a nil
    pointer returns an [outcome]. *)

From Stdlib Require Import ZArith String Ascii List Lia DecimalString.
From stdpp Require Import base option list gmap strings.

Local Open Scope string_scope.
Local Set Warnings "-register-all".

(** ** Go preliminaries *)

(** Characters that cannot be written inside a literal here. *)
Definition dq : string := String (ascii_of_nat 34) EmptyString.
Definition nl : string := String (ascii_of_nat 10) EmptyString.

(** [fmt.Sprintf] with [%d]. *)
Definition fmt_d (z : Z) : string := NilZero.string_of_int (Z.to_int z).

(** [int64] and [uint] (64 bits) conversions and arithmetic. *)
Definition two64 : Z := 2 ^ 64.
Definition two63 : Z := 2 ^ 63.
Definition to_uint (z : Z) : Z := z mod two64.
Definition to_int64 (z : Z) : Z := (z + two63) mod two64 - two63.
Definition in_int64 (z : Z) : Prop := (- two63 <= z < two63)%Z.
Definition add64 (a b : Z) : Z := to_int64 (a + b).
Definition sub64 (a b : Z) : Z := to_int64 (a - b).
(** [strings.HasPrefix]. *)
Definition HasPrefix (s p : string) : bool := String.prefix p s.

(** [strings.Contains]: some suffix of [s] starts with [sub]. *)
Fixpoint Contains (s sub : string) : bool :=
  String.prefix sub s ||
  match s with
  | EmptyString => false
  | String _ s' => Contains s' sub
  end.

(** [strings.ToLower] on a text of ASCII bytes, where it lowers the 26
    capitals.  On any other text Go lowers by the Unicode tables, which
    are not modelled: the code below takes [strings.ToLower] as a
    parameter, and this is the lowering of the reference host. *)
Definition lower_ascii (c : ascii) : ascii :=
  let n := nat_of_ascii c in
  if (65 <=? n)%nat && (n <=? 90)%nat then ascii_of_nat (n + 32) else c.

Fixpoint ToLower (s : string) : string :=
  match s with
  | EmptyString => EmptyString
  | String c s' => String (lower_ascii c) (ToLower s')
  end.

(** [utils.IsInStringArray]. *)
Definition IsInStringArray (s : string) (l : list string) : bool :=
  existsb (String.eqb s) l.

(** Concatenation of the pieces of a script. *)
Definition sconcat (l : list string) : string :=
  fold_right String.append EmptyString l.

(** What a call can end in: a value, a returned [error], or a run-time
    panic (nil dereference). *)
Inductive outcome (A : Type) : Type :=
| Ok (a : A)
| Err (msg : string)
| Panic.
Arguments Ok {A} a.
Arguments Err {A} msg.
Arguments Panic {A}.

Definition obind {A B} (o : outcome A) (k : A -> outcome B) : outcome B :=
  match o with
  | Ok a => k a
  | Err m => Err m
  | Panic => Panic
  end.

Notation "'do' x <- o ; k" := (obind o (fun x => k))
  (at level 10, x name, o at level 100, k at level 200).

(** ** Constants of the packages [api] and [qemu] *)

Module api.
(** Modelled from the spec: the constants of package
    [pkg/apis/compute], which is not among the sources; the machine types
    are the spec's enumeration (generic PC, Q35, ARM-virt). *)
Definition VM_MACHINE_TYPE_PC : string := "pc".
Definition VM_MACHINE_TYPE_Q35 : string := "q35".
Definition VM_MACHINE_TYPE_ARM_VIRT : string := "virt".
Definition NETWORK_DRIVER_VFIO : string := "vfio-pci".
End api.

Module qemu.
(** Modelled from the spec: the constants of package
    [pkg/hostman/guestman/qemu], which is not among the sources.  The
    constant [OS_NAME_ANDROID] of the package is a parameter of the code
    below. *)
Definition BIOS_UEFI : string := "UEFI".
Definition OS_NAME_LINUX : string := "Linux".
Definition OS_NAME_WINDOWS : string := "Windows".
Definition OS_NAME_MACOS : string := "macOS".
Definition OS_NAME_VMWARE : string := "VMWare".
Definition OS_NAME_CIRROS : string := "Cirros".
Definition OS_NAME_OPENWRT : string := "OpenWrt".
Definition MODE_READLINE : string := "readline".
Definition MODE_CONTROL : string := "control".

Inductive Arch : Type := Arch_x86_64 | Arch_aarch64.

Record Monitor : Type := {
  Id : string;
  Port : Z;
  Mode : string
}.
End qemu.

Definition OS_NAME_LINUX := qemu.OS_NAME_LINUX.
Definition OS_NAME_WINDOWS := qemu.OS_NAME_WINDOWS.
Definition OS_NAME_MACOS := qemu.OS_NAME_MACOS.
Definition OS_NAME_CIRROS := qemu.OS_NAME_CIRROS.
Definition OS_NAME_OPENWRT := qemu.OS_NAME_OPENWRT.
Definition MODE_READLINE := qemu.MODE_READLINE.
Definition MODE_CONTROL := qemu.MODE_CONTROL.

(** ** JSON values ([jsonutils.JSONObject]) *)

Inductive JSONObject : Type :=
| JSONArray (elems : list JSONObject)
| JSONString (s : string)
| JSONInt (z : Z)
| JSONBool (b : bool)
| JSONNull.

(** ** The descriptor ([desc.SGuestDesc]) *)

Module desc.
Record SGuestNetwork : Type := {
  Ifname : string;
  Bridge : string;
  Driver : string;
  Mac : string;
  Ip : string
}.

Record Object : Type := {
  ObjType : string;
  ObjId : string;
  Options : gmap string string
}.

(** [desc.NewObject]. *)
Definition NewObject (objType id : string) : Object :=
  {| ObjType := objType; ObjId := id; Options := ∅ |}.

Record SMemDevice : Type := {
  DevType : string;
  DevId : string
}.

Record SMemSlot : Type := {
  SlotSizeMB : Z;
  MemObj : Object;
  MemDev : SMemDevice
}.

Record SGuestMem : Type := {
  SizeMB : Z;
  Mem : option Object;
  MemSlots : list SMemSlot
}.

(** The CPU descriptor is produced by the architecture strategy and only
    stored here. *)
Record SGuestCpu : Type := {
  Cpus : Z;
  Model : string;
  Accel : string
}.

(** The fields of [SGuestDesc] read here.  [MemMB] is the field [Mem]
    (the configured memory in MB; [Mem] names the base object of
    [SGuestMem] in this module), [UsbId] is [Usb.Id]. *)
Record SGuestDesc : Type := {
  Uuid : string;
  Cpu : Z;
  MemMB : Z;
  Machine : string;
  Bios : string;
  Vdi : string;
  IsSlave : bool;
  Nics : list SGuestNetwork;
  Disks : list string;
  UsbId : string;
  Metadata : gmap string string;
  ExtraOptions : gmap string JSONObject;
  CpuDesc : option SGuestCpu;
  MemDesc : option SGuestMem
}.
End desc.

(** ** The host, its options, and the guest instance *)

(** What [s.manager.host] / [s.manager.GetHost()] answers. *)
Record SHostInfo : Type := {
  IsAarch64 : bool;
  IsHugepagesEnabled : bool;
  HostIsKvmSupport : bool;
  HugepageSizeKb : Z;
  GetCpuArchitecture : string;
  (** [GetBridgeDev(bridge)]: the bridge device, by what its [Bridge()]
      method returns; [None] is the nil device. *)
  GetBridgeDev : string -> option string
}.

(** [options.HostOptions]. *)
Record SHostOptions : Type := {
  OvnIntegrationBridge : string;
  DefaultQemuVersion : string;
  DisableKVM : bool;
  EnableQemuDebugLog : bool;
  EnableVmUuid : bool;
  OvmfPath : string;
  SetVncPassword : bool
}.

Record SKVMGuestInstance : Type := {
  Desc : desc.SGuestDesc;
  host : SHostInfo;
  LiveMigrateDestPort : option Z;
  LiveMigrateUseTls : bool
}.

Definition set_Desc (s : SKVMGuestInstance) (d : desc.SGuestDesc) : SKVMGuestInstance :=
  {| Desc := d; host := host s;
     LiveMigrateDestPort := LiveMigrateDestPort s;
     LiveMigrateUseTls := LiveMigrateUseTls s |}.

Definition set_Machine (d : desc.SGuestDesc) (m : string) : desc.SGuestDesc :=
  {| desc.Uuid := desc.Uuid d; desc.Cpu := desc.Cpu d; desc.MemMB := desc.MemMB d;
     desc.Machine := m; desc.Bios := desc.Bios d; desc.Vdi := desc.Vdi d;
     desc.IsSlave := desc.IsSlave d; desc.Nics := desc.Nics d;
     desc.Disks := desc.Disks d; desc.UsbId := desc.UsbId d;
     desc.Metadata := desc.Metadata d; desc.ExtraOptions := desc.ExtraOptions d;
     desc.CpuDesc := desc.CpuDesc d; desc.MemDesc := desc.MemDesc d |}.

Definition set_Bios (d : desc.SGuestDesc) (b : string) : desc.SGuestDesc :=
  {| desc.Uuid := desc.Uuid d; desc.Cpu := desc.Cpu d; desc.MemMB := desc.MemMB d;
     desc.Machine := desc.Machine d; desc.Bios := b; desc.Vdi := desc.Vdi d;
     desc.IsSlave := desc.IsSlave d; desc.Nics := desc.Nics d;
     desc.Disks := desc.Disks d; desc.UsbId := desc.UsbId d;
     desc.Metadata := desc.Metadata d; desc.ExtraOptions := desc.ExtraOptions d;
     desc.CpuDesc := desc.CpuDesc d; desc.MemDesc := desc.MemDesc d |}.

Definition set_CpuDesc (d : desc.SGuestDesc) (c : desc.SGuestCpu) : desc.SGuestDesc :=
  {| desc.Uuid := desc.Uuid d; desc.Cpu := desc.Cpu d; desc.MemMB := desc.MemMB d;
     desc.Machine := desc.Machine d; desc.Bios := desc.Bios d; desc.Vdi := desc.Vdi d;
     desc.IsSlave := desc.IsSlave d; desc.Nics := desc.Nics d;
     desc.Disks := desc.Disks d; desc.UsbId := desc.UsbId d;
     desc.Metadata := desc.Metadata d; desc.ExtraOptions := desc.ExtraOptions d;
     desc.CpuDesc := Some c; desc.MemDesc := desc.MemDesc d |}.

Definition set_MemDesc (d : desc.SGuestDesc) (m : desc.SGuestMem) : desc.SGuestDesc :=
  {| desc.Uuid := desc.Uuid d; desc.Cpu := desc.Cpu d; desc.MemMB := desc.MemMB d;
     desc.Machine := desc.Machine d; desc.Bios := desc.Bios d; desc.Vdi := desc.Vdi d;
     desc.IsSlave := desc.IsSlave d; desc.Nics := desc.Nics d;
     desc.Disks := desc.Disks d; desc.UsbId := desc.UsbId d;
     desc.Metadata := desc.Metadata d; desc.ExtraOptions := desc.ExtraOptions d;
     desc.CpuDesc := desc.CpuDesc d; desc.MemDesc := Some m |}.

(** A Go map read at a key that may be absent: the zero value. *)
Definition meta (s : SKVMGuestInstance) (k : string) : string :=
  default EmptyString (desc.Metadata (Desc s) !! k).

(** ** Accessors (lines 740-880) *)

Definition IsKvmSupport (s : SKVMGuestInstance) : bool := HostIsKvmSupport (host s).

Definition IsVdiSpice (s : SKVMGuestInstance) : bool :=
  String.eqb (desc.Vdi (Desc s)) "spice".

Definition GetOsName (s : SKVMGuestInstance) : string :=
  match desc.Metadata (Desc s) !! "os_name" with
  | Some osName => osName
  | None => OS_NAME_LINUX
  end.

Definition disableUsbKbd (s : SKVMGuestInstance) : bool :=
  String.eqb (meta s "disable_usb_kbd") "true".

Definition getOsDistribution (s : SKVMGuestInstance) : string := meta s "os_distribution".

Definition getOsVersion (s : SKVMGuestInstance) : string := meta s "os_version".

(** [len(ver) > 1 && ver[0:2] == "5."]. *)
Definition IsOldWindows (s : SKVMGuestInstance) : bool :=
  if String.eqb (GetOsName s) OS_NAME_WINDOWS then
    let ver := getOsVersion s in
    if (1 <? String.length ver)%nat && String.eqb (String.substring 0 2 ver) "5."
    then true else false
  else false.

Definition isMemcleanEnabled (s : SKVMGuestInstance) : bool :=
  String.eqb (meta s "enable_memclean") "true".

(** ** Machine-type fix-up and CPU descriptor (lines 1382-1390, 1449-1462) *)

Definition fixGuestMachineType (s : SKVMGuestInstance) : SKVMGuestInstance :=
  let s1 :=
    if String.eqb (GetOsName s) OS_NAME_MACOS
    then set_Desc s (set_Bios (set_Machine (Desc s) api.VM_MACHINE_TYPE_Q35) qemu.BIOS_UEFI)
    else s in
  if IsAarch64 (host s1) then
    let s2 :=
      if IsInStringArray (desc.Machine (Desc s1))
           [EmptyString; api.VM_MACHINE_TYPE_PC; api.VM_MACHINE_TYPE_Q35]
      then set_Desc s1 (set_Machine (Desc s1) api.VM_MACHINE_TYPE_ARM_VIRT)
      else s1 in
    set_Desc s2 (set_Bios (Desc s2) qemu.BIOS_UEFI)
  else s1.

(** The architecture strategy [s.archMan]: one implementation per
    architecture, none of them among the sources; the controller is
    stated over any of them. *)
Record ArchMan : Type := {
  GenerateCpuDesc : Z -> SKVMGuestInstance -> outcome desc.SGuestCpu;
  GenerateMemDesc : desc.SGuestMem
}.

(** [initCpuDesc] mutates the instance and returns an error or nil: the
    instance after the call, and the error if any. *)
Definition initCpuDesc (archMan : ArchMan) (s : SKVMGuestInstance)
  : SKVMGuestInstance * outcome unit :=
  let s := fixGuestMachineType s in
  match GenerateCpuDesc archMan (to_uint (desc.Cpu (Desc s))) s with
  | Ok cpuDesc => (set_Desc s (set_CpuDesc (Desc s) cpuDesc), Ok tt)
  | Err m => (s, Err m)
  | Panic => (s, Panic)
  end.

(** ** Collaborators of the renderer *)

(** The runtime overrides [data *jsonutils.JSONDict], by what the
    accessors used in [generateStartScript] return on it:
    [Contains]/[GetString] for [encrypt_key] and [qemu_version], [Int] for
    [vnc_port] (0 when absent), [QueryBoolean] with default [false] for the
    two flags. *)
Record RuntimeOverrides : Type := {
  encrypt_key : option string;
  vnc_port : Z;
  qemu_version : option string;
  need_migrate : bool;
  live_migrate_use_tls : bool
}.

(** [qemu.GenerateStartOptionsInput], with the fields the renderer sets
    ([InputHomeDir], [InputIsVdiSpice] and [InputExtraOptions] are its
    fields [HomeDir], [IsVdiSpice] and [ExtraOptions]). *)
Record GenerateStartOptionsInput : Type := {
  GuestDesc : desc.SGuestDesc;
  OsName : string;
  OVNIntegrationBridge : string;
  InputHomeDir : string;
  HugepagesEnabled : bool;
  EnableMemfd : bool;
  PidFilePath : string;
  EncryptKeyPath : string;
  VNCPort : Z;
  QemuVersion : string;
  QemuArch : qemu.Arch;
  EnableLog : bool;
  HMPMonitor : qemu.Monitor;
  QMPMonitor : qemu.Monitor;
  EnableUUID : bool;
  OVMFPath : string;
  Devices : list string;
  InputIsVdiSpice : bool;
  SpicePort : Z;
  VNCPassword : bool;
  IsKVMSupport : bool;
  InputExtraOptions : list string;
  NeedMigrate : bool;
  LiveMigratePort : Z;
  LiveMigrateUseTLS : bool
}.

(** Functions and constants the renderer calls that are defined in other
    packages or files (host manager, disk and SR-IOV sub-renderers, the
    hypervisor lookup, the option generator, Go's [path.Join] and
    [strings.ToLower], the constant [qemu.OS_NAME_ANDROID]): the renderer
    is stated over any of them. *)
Record Collab : Type := {
  HostOptions : SHostOptions;
  strings_ToLower : string -> string;
  qemu_OS_NAME_ANDROID : string;
  HomeDir : SKVMGuestInstance -> string;
  GetPidFilePath : SKVMGuestInstance -> string;
  GetVncFilePath : SKVMGuestInstance -> string;
  getStateFilePathRootPrefix : SKVMGuestInstance -> string;
  getEncryptKeyPath : SKVMGuestInstance -> string;
  saveEncryptKeyFile : SKVMGuestInstance -> string -> outcome unit;
  path_Join : string -> string -> string;
  generateDiskSetupScripts : SKVMGuestInstance -> list string -> outcome string;
  generateSRIOVInitScripts : SKVMGuestInstance -> outcome string;
  GetQemu : string -> string;
  ARCH_X86 : list string;
  VpcOvnEncapCostStr : string;
  MONITOR_PORT_BASE : Z;
  GetHmpMonitorPort : SKVMGuestInstance -> Z -> Z;
  GetQmpMonitorPort : SKVMGuestInstance -> Z -> Z;
  JSONObject_String : JSONObject -> string;
  GenerateStartOptions : GenerateStartOptionsInput -> outcome string
}.

(** [errors.Wrap]. *)
Definition Wrap {A} (o : outcome A) (msg : string) : outcome A :=
  match o with
  | Err m => Err (msg ++ ": " ++ m)
  | o => o
  end.

(** The constant [OS_NAME_ANDROID = qemu.OS_NAME_ANDROID] of the
    controller's package. *)
Definition OS_NAME_ANDROID (E : Collab) : string := qemu_OS_NAME_ANDROID E.

(** Lines 815-823. *)
Definition isWindows10 (E : Collab) (s : SKVMGuestInstance) : bool :=
  if String.eqb (GetOsName s) OS_NAME_WINDOWS then
    let distro := getOsDistribution s in
    if Contains (strings_ToLower E distro) "windows 10" then true else false
  else false.

(** ** NIC script paths (lines 882-890) *)

(** [dev.Bridge()] on the nil device panics. *)
Definition getNicDownScriptPath (E : Collab) (s : SKVMGuestInstance)
    (nic : desc.SGuestNetwork) : outcome string :=
  match GetBridgeDev (host s) (desc.Bridge nic) with
  | None => Panic
  | Some bridge =>
      Ok (path_Join E (HomeDir E s)
            ("if-down-" ++ bridge ++ "-" ++ desc.Ifname nic ++ ".sh"))
  end.

Definition getNicUpScriptPath (E : Collab) (s : SKVMGuestInstance)
    (nic : desc.SGuestNetwork) : outcome string :=
  match GetBridgeDev (host s) (desc.Bridge nic) with
  | None => Panic
  | Some bridge =>
      Ok (path_Join E (HomeDir E s)
            ("if-up-" ++ bridge ++ "-" ++ desc.Ifname nic ++ ".sh"))
  end.

Definition isVFIO (nic : desc.SGuestNetwork) : bool :=
  String.eqb (desc.Driver nic) api.NETWORK_DRIVER_VFIO.

(** The loop of lines 970-976 and 1251-1257, appending to [cmd]:
<<
  for _, nic := range nics {
      if nic.Driver == api.NETWORK_DRIVER_VFIO { continue }
      downscript := s.getNicDownScriptPath(nic)
      cmd += fmt.Sprintf("%s %s\n", downscript, nic.Ifname)
  }
>> *)
Fixpoint nicDownScripts (E : Collab) (s : SKVMGuestInstance)
    (nics : list desc.SGuestNetwork) (cmd : string) : outcome string :=
  match nics with
  | [] => Ok cmd
  | nic :: rest =>
      if isVFIO nic then nicDownScripts E s rest cmd
      else
        do downscript <- getNicDownScriptPath E s nic;
        nicDownScripts E s rest (cmd ++ (downscript ++ " " ++ desc.Ifname nic ++ nl))
  end.

(** ** Extra options (lines 912-926) *)

(** The inner loop over a JSON array. *)
Fixpoint extraOptionsArray (E : Collab) (k : string) (elems : list JSONObject)
    (cmd : string) : string :=
  match elems with
  | [] => cmd
  | vAtI :: rest =>
      extraOptionsArray E k rest (cmd ++ (" -" ++ k ++ " " ++ JSONObject_String E vAtI))
  end.

(** One iteration of [for k, v := range s.Desc.ExtraOptions]. *)
Definition extraOptionsStep (E : Collab) (cmd : string) (kv : string * JSONObject) : string :=
  match kv with
  | (k, JSONArray elems) => extraOptionsArray E k elems cmd
  | (k, v) => cmd ++ (" -" ++ k ++ " " ++ JSONObject_String E v)
  end.

(** Go leaves the order in which [range] visits a map unspecified, and
    does not keep it from one loop to the next.  A run visits the entries
    in some order [visit]: a list holding each entry of the map once. *)
Definition range_order {V} (m : gmap string V) (visit : list (string * V)) : Prop :=
  visit ≡ₚ map_to_list m.

(** [extraOptions] on the run that visits the map in the order [visit]. *)
Definition extraOptions (E : Collab) (visit : list (string * JSONObject)) : string :=
  fold_left (extraOptionsStep E) visit " ".

(** ** The start script (lines 928-1143) *)

(** A quoted piece of shell text. *)
Definition q (s : string) : string := dq ++ s ++ dq.

(** Lines 954-962: the requested hypervisor version. *)
Definition startQemuVersion (E : Collab) (data : RuntimeOverrides) : string :=
  let qemuVersion :=
    match qemu_version data with
    | Some v => v
    | None => DefaultQemuVersion (HostOptions E)
    end in
  if String.eqb qemuVersion "latest" then EmptyString else qemuVersion.

(** Lines 1002-1005: the hypervisor binary. *)
Definition startQemuCmd (E : Collab) (data : RuntimeOverrides) : string :=
  let qemuCmd := GetQemu E (startQemuVersion E data) in
  if (String.length qemuCmd =? 0)%nat then GetQemu E EmptyString else qemuCmd.

(** Lines 964-968. *)
Definition startQemuArch (s : SKVMGuestInstance) : qemu.Arch :=
  if IsAarch64 (host s) then qemu.Arch_aarch64 else qemu.Arch_x86_64.

(** Lines 1028-1036. *)
Definition kvmArgLine (E : Collab) (s : SKVMGuestInstance) : string :=
  if IsKvmSupport s && negb (DisableKVM (HostOptions E)) then
    "QEMU_CMD_KVM_ARG=-enable-kvm" ++ nl
  else if IsInStringArray (GetCpuArchitecture (host s)) (ARCH_X86 E) then
    "QEMU_CMD_KVM_ARG=-no-kvm" ++ nl
  else
    "QEMU_CMD_KVM_ARG=" ++ nl.

(** Lines 1038-1057: the shell functions probing the hypervisor. *)
Definition nicProbeFunctions (E : Collab) : string :=
  sconcat [
    nl;
    "function nic_speed() {"; nl;
    "    $QEMU_CMD $QEMU_CMD_KVM_ARG -device virtio-net-pci,help 2>&1 | grep -q ";
      q "\<speed="; nl;
    "    if [ "; q "$?"; " -eq "; q "0"; " ]; then"; nl;
    "        echo "; q ",speed=$1"; nl;
    "    fi"; nl;
    "}"; nl;
    nl;
    "function nic_mtu() {"; nl;
    "    local bridge="; q "$1"; "; shift"; nl;
    nl;
    "    $QEMU_CMD $QEMU_CMD_KVM_ARG -device virtio-net-pci,help 2>&1 | grep -q '\<host_mtu='"; nl;
    "    if [ "; q "$?"; " -eq "; q "0"; " ]; then"; nl;
    "        local origmtu="; dq; "$(<"; q "/sys/class/net/$bridge/mtu"; ")"; dq; nl;
    "        if [ -n "; q "$origmtu"; " -a "; q "$origmtu"; " -gt 576 ]; then"; nl;
    "            echo "; dq; ",host_mtu=$(($origmtu - "; VpcOvnEncapCostStr E; "))"; dq; nl;
    "        fi"; nl;
    "    fi"; nl;
    "}"; nl
  ].

(** Lines 1134-1140: the end of the script, which adds the state-file
    form of the incoming clause when the script runs. *)
Definition incomingTail : string :=
  sconcat [
    nl;
    "if [ ! -z "; q "$STATE_FILE"; " ] && [ -d "; q "$STATE_FILE";
      " ] && [ -f "; q "$STATE_FILE/content"; " ]; then"; nl;
    "    CMD="; dq; "$CMD --incoming \"; dq; "exec: cat $STATE_FILE/content\"; dq; dq; nl;
    "elif [ ! -z "; q "$STATE_FILE"; " ] && [ -f "; q "$STATE_FILE"; " ]; then"; nl;
    "    CMD="; dq; "$CMD --incoming \"; dq; "exec: cat $STATE_FILE\"; dq; dq; nl;
    "fi"; nl;
    "echo $CMD"
  ].

(** Lines 940-1060: the script up to the opening of [CMD=], with the
    calls that can fail in the order the code makes them. *)
Definition startScriptHead (E : Collab) (s : SKVMGuestInstance)
    (data : RuntimeOverrides) : outcome string :=
  do _ <- match encrypt_key data with
          | Some key => Wrap (saveEncryptKeyFile E s key) "save encrypt key file"
          | None => Ok tt
          end;
  let cmd := EmptyString in
  let VNCPort := to_uint (vnc_port data) in
  do cmd <- nicDownScripts E s (desc.Nics (Desc s)) cmd;
  let cmd :=
    if IsHugepagesEnabled (host s) then
      cmd ++ ("mkdir -p /dev/hugepages/" ++ desc.Uuid (Desc s) ++ nl)
          ++ ("mount -t hugetlbfs -o pagesize=" ++ fmt_d (HugepageSizeKb (host s))
              ++ "K,size=" ++ fmt_d (desc.MemMB (Desc s)) ++ "M hugetlbfs-"
              ++ desc.Uuid (Desc s) ++ " /dev/hugepages/" ++ desc.Uuid (Desc s) ++ nl)
    else cmd in
  let cmd := cmd ++ ("sleep 1" ++ nl) in
  let cmd := cmd ++ ("echo " ++ fmt_d VNCPort ++ " > " ++ GetVncFilePath E s ++ nl) in
  do diskScripts <- Wrap (generateDiskSetupScripts E s (desc.Disks (Desc s)))
                         "generateDiskSetupScripts";
  let cmd := cmd ++ diskScripts in
  do sriovInitScripts <- Wrap (generateSRIOVInitScripts E s) "generateSRIOVInitScripts";
  let cmd := cmd ++ sriovInitScripts in
  let cmd := cmd ++ ("STATE_FILE=`ls -d " ++ getStateFilePathRootPrefix E s
                     ++ "* | head -n 1`" ++ nl) in
  let cmd := cmd ++ ("PID_FILE=" ++ GetPidFilePath E s ++ nl) in
  let cmd := cmd ++ ("DEFAULT_QEMU_CMD='" ++ startQemuCmd E data ++ "'" ++ nl) in
  let cmd := cmd ++ ("QEMU_CMD=$DEFAULT_QEMU_CMD" ++ nl) in
  let cmd := cmd ++ kvmArgLine E s in
  let cmd := cmd ++ nicProbeFunctions E in
  Ok (cmd ++ ("CMD=" ++ dq ++ "$QEMU_CMD $QEMU_CMD_KVM_ARG")).

(** Lines 1085-1106: the USB input devices. *)
Definition usbDevices (E : Collab) (s : SKVMGuestInstance) (arch : qemu.Arch)
    (osName : string) : list string :=
  match arch with
  | qemu.Arch_aarch64 =>
      [ "usb-tablet,id=input0,bus=" ++ desc.UsbId (Desc s) ++ ".0,port=1";
        "usb-kbd,id=input1,bus=" ++ desc.UsbId (Desc s) ++ ".0,port=2" ]
  | qemu.Arch_x86_64 =>
      let devices :=
        if negb (IsInStringArray (getOsDistribution s) [OS_NAME_OPENWRT; OS_NAME_CIRROS])
           && negb (IsOldWindows s) && negb (isWindows10 E s)
           && negb (disableUsbKbd s)
        then ["usb-kbd"] else [] in
      if String.eqb osName (OS_NAME_ANDROID E) then (devices ++ ["usb-mouse"])%list
      else if negb (IsOldWindows s) then (devices ++ ["usb-tablet"])%list
      else devices
  end.

(** Lines 1116-1125: [(NeedMigrate, LiveMigratePort, LiveMigrateUseTLS)]
    and the instance after the assignment to [s.LiveMigrateUseTls];
    [*s.LiveMigrateDestPort] on a nil pointer panics ([None]). *)
Definition migrateOptions (s : SKVMGuestInstance) (data : RuntimeOverrides)
  : option (bool * Z * bool * SKVMGuestInstance) :=
  if need_migrate data then
    match LiveMigrateDestPort s with
    | None => None
    | Some port =>
        if live_migrate_use_tls data then
          Some (true, to_uint port, true,
                {| Desc := Desc s; host := host s;
                   LiveMigrateDestPort := LiveMigrateDestPort s;
                   LiveMigrateUseTls := true |})
        else Some (true, to_uint port, false, s)
    end
  else if desc.IsSlave (Desc s) then
    match LiveMigrateDestPort s with
    | None => None
    | Some port => Some (false, to_uint port, false, s)
    end
  else Some (false, 0%Z, false, s).

(** The input handed to [qemu.GenerateStartOptions] (lines 930-938,
    945-968, 1062-1125), on the run that visits [ExtraOptions] in the
    order [visit]. *)
Definition startInput (E : Collab) (s : SKVMGuestInstance) (data : RuntimeOverrides)
    (visit : list (string * JSONObject))
    (needMigrate : bool) (port : Z) (tls : bool) : GenerateStartOptionsInput :=
  let osName := GetOsName s in
  let VNCPort := to_uint (vnc_port data) in
  let arch := startQemuArch s in
  {| GuestDesc := Desc s;
     OsName := osName;
     OVNIntegrationBridge := OvnIntegrationBridge (HostOptions E);
     InputHomeDir := HomeDir E s;
     HugepagesEnabled := IsHugepagesEnabled (host s);
     EnableMemfd := isMemcleanEnabled s;
     PidFilePath := GetPidFilePath E s;
     EncryptKeyPath :=
       match encrypt_key data with
       | Some _ => getEncryptKeyPath E s
       | None => EmptyString
       end;
     VNCPort := VNCPort;
     QemuVersion := startQemuVersion E data;
     QemuArch := arch;
     EnableLog := EnableQemuDebugLog (HostOptions E);
     HMPMonitor := {| qemu.Id := "hmqmon";
                      qemu.Port := to_uint (GetHmpMonitorPort E s (to_int64 VNCPort));
                      qemu.Mode := MODE_READLINE |};
     QMPMonitor := {| qemu.Id := "qmqmon";
                      qemu.Port := to_uint (GetQmpMonitorPort E s (to_int64 VNCPort));
                      qemu.Mode := MODE_CONTROL |};
     EnableUUID := EnableVmUuid (HostOptions E);
     OVMFPath :=
       if String.eqb (desc.Bios (Desc s)) qemu.BIOS_UEFI
       then OvmfPath (HostOptions E) else EmptyString;
     Devices := usbDevices E s arch osName;
     InputIsVdiSpice := IsVdiSpice s;
     SpicePort := to_uint (add64 5900 (vnc_port data));
     VNCPassword := SetVncPassword (HostOptions E);
     IsKVMSupport := IsKvmSupport s;
     InputExtraOptions := [extraOptions E visit];
     NeedMigrate := needMigrate;
     LiveMigratePort := port;
     LiveMigrateUseTLS := tls |}.

(** [generateStartScript]: the instance after the call and what the call
    returns. *)
Definition generateStartScript (E : Collab) (s : SKVMGuestInstance)
    (data : RuntimeOverrides) (visit : list (string * JSONObject))
  : SKVMGuestInstance * outcome string :=
  match startScriptHead E s data with
  | Err m => (s, Err m)
  | Panic => (s, Panic)
  | Ok cmd =>
      match migrateOptions s data with
      | None => (s, Panic)
      | Some (needMigrate, port, tls, s') =>
          let input := startInput E s data visit needMigrate port tls in
          match Wrap (GenerateStartOptions E input) "GenerateStartCommand" with
          | Err m => (s', Err m)
          | Panic => (s', Panic)
          | Ok qemuOpts =>
              let cmd := cmd ++ " " ++ qemuOpts in
              let cmd := cmd ++ (dq ++ nl) in
              (s', Ok (cmd ++ incomingTail))
          end
      end
  end.

(** What a call of [generateStartScript] can return: the result on some
    order in which the run visits the [ExtraOptions] map. *)
Definition generateStartScript_returns (E : Collab) (s : SKVMGuestInstance)
    (data : RuntimeOverrides) (r : SKVMGuestInstance * outcome string) : Prop :=
  exists visit,
    range_order (desc.ExtraOptions (Desc s)) visit /\
    generateStartScript E s data visit = r.

(** ** The stop script (lines 1213-1259) *)

(** Lines 1220-1241. *)
Definition stopScriptKill (E : Collab) (s : SKVMGuestInstance) : string :=
  sconcat [
    "VNC_FILE="; GetVncFilePath E s; nl;
    "PID_FILE="; GetPidFilePath E s; nl;
    "if [ "; q "$1"; " != "; q "--force"; " ] && [ -f $VNC_FILE ]; then"; nl;
    "  VNC=`cat $VNC_FILE`"; nl;
    "  MON=$(($VNC + "; fmt_d (MONITOR_PORT_BASE E); "))"; nl;
    "  echo quit | nc -w 1 127.0.0.1 $MON > /dev/null"; nl;
    "  sleep 1"; nl;
    "  echo "; q "Remove VNC $VNC_FILE"; nl;
    "  rm -f $VNC_FILE"; nl;
    "fi"; nl;
    "if [ -f $PID_FILE ]; then"; nl;
    "  PID=`cat $PID_FILE`"; nl;
    "  ps -p $PID > /dev/null"; nl;
    "  if [ $? -eq 0 ]; then"; nl;
    "    echo "; q "Kill process $PID"; nl;
    "    kill -9 $PID > /dev/null 2>&1"; nl;
    "  fi"; nl;
    "  echo "; q "Remove PID $PID_FILE"; nl;
    "  rm -f $PID_FILE"; nl;
    "fi"; nl
  ].

(** Lines 1243-1249: unmount and remove the hugepage directories. *)
Definition stopScriptUmount (uuid : string) : string :=
  sconcat [
    "for d in $(ls -d /dev/hugepages/"; uuid; "*)"; nl;
    "do"; nl;
    "  if [ -d $d ]; then"; nl;
    "    umount $d"; nl;
    "    rm -rf $d"; nl;
    "  fi"; nl;
    "done"; nl
  ].

Definition generateStopScript (E : Collab) (s : SKVMGuestInstance) : outcome string :=
  let uuid := desc.Uuid (Desc s) in
  let nics := desc.Nics (Desc s) in
  let cmd := EmptyString in
  let cmd := cmd ++ stopScriptKill E s in
  let cmd := cmd ++ stopScriptUmount uuid in
  nicDownScripts E s nics cmd.

(** ** The start script when it runs *)

(** What the shell does with the end of the start script (the text of
    [incomingTail]) once [STATE_FILE] holds the first match of the
    state-file prefix, read off the script:
<<
  if [ ! -z "$STATE_FILE" ] && [ -d "$STATE_FILE" ] && [ -f "$STATE_FILE/content" ]; then
      CMD="$CMD --incoming \"exec: cat $STATE_FILE/content\""
  elif [ ! -z "$STATE_FILE" ] && [ -f "$STATE_FILE" ]; then
      CMD="$CMD --incoming \"exec: cat $STATE_FILE\""
  fi
>> *)
Inductive StateFile : Type :=
| NoStateFile
| StateFileDir (path : string) (hasContent : bool)
| StateFileRegular (path : string).

Definition execIncoming (st : StateFile) : string :=
  match st with
  | StateFileDir path true => " --incoming " ++ q ("exec: cat " ++ path ++ "/content")
  | StateFileRegular path => " --incoming " ++ q ("exec: cat " ++ path)
  | _ => EmptyString
  end.

Definition runIncomingTail (st : StateFile) (CMD : string) : string :=
  CMD ++ execIncoming st.

(** The value of [CMD] the script echoes: the expansion of
    [$QEMU_CMD $QEMU_CMD_KVM_ARG], the generated options, and what the end
    of the script adds. *)
Definition kvmArg (E : Collab) (s : SKVMGuestInstance) : string :=
  if IsKvmSupport s && negb (DisableKVM (HostOptions E)) then "-enable-kvm"
  else if IsInStringArray (GetCpuArchitecture (host s)) (ARCH_X86 E) then "-no-kvm"
  else EmptyString.

Definition composedCommand (E : Collab) (s : SKVMGuestInstance)
    (data : RuntimeOverrides) (qemuOpts : string) (st : StateFile) : string :=
  runIncomingTail st (startQemuCmd E data ++ " " ++ kvmArg E s ++ " " ++ qemuOpts).

(** Number of places where [sub] occurs in [s]. *)
Fixpoint occurrences (sub s : string) : nat :=
  (if String.prefix sub s then 1 else 0) +
  match s with
  | EmptyString => 0
  | String _ s' => occurrences sub s'
  end.

(** An incoming clause is an option spelled [-incoming] or [--incoming]. *)
Definition incomingClauses (cmd : string) : nat := occurrences "-incoming " cmd.

(** ** Memory descriptor (lines 1392-1447) *)

(** [monitor.MemoryDeviceInfo], with the fields read here: [Type_] is
    [Type], [DataID] the pointer [Data.ID], [DataSize] and [DataMemdev]
    are [Data.Size] (an [int64], in bytes) and [Data.Memdev]. *)
Record MemoryDeviceInfo : Type := {
  Type_ : string;
  DataID : option string;
  DataSize : Z;
  DataMemdev : string
}.

Definition memObjType (s : SKVMGuestInstance) : string :=
  if IsHugepagesEnabled (host s) then "memory-backend-file"
  else if isMemcleanEnabled s then "memory-backend-memfd"
  else "memory-backend-ram".

Definition set_Options (o : desc.Object) (opts : gmap string string) : desc.Object :=
  {| desc.ObjType := desc.ObjType o; desc.ObjId := desc.ObjId o; desc.Options := opts |}.

Definition initMemDesc (archMan : ArchMan) (s : SKVMGuestInstance) (memSizeMB : Z)
  : SKVMGuestInstance :=
  let memDesc := GenerateMemDesc archMan in
  let size := fmt_d memSizeMB ++ "M" in
  let mem :=
    if IsHugepagesEnabled (host s) then
      set_Options (desc.NewObject "memory-backend-file" "mem")
        (<["mem-path" := "/dev/hugepages/" ++ desc.Uuid (Desc s)]>
           (<["size" := size]> (<["share" := "on"]> (<["prealloc" := "on"]> ∅))))
    else if isMemcleanEnabled s then
      set_Options (desc.NewObject "memory-backend-memfd" "mem")
        (<["size" := size]> (<["share" := "on"]> (<["prealloc" := "on"]> ∅)))
    else
      set_Options (desc.NewObject "memory-backend-ram" "mem")
        (<["size" := size]> ∅) in
  set_Desc s (set_MemDesc (Desc s)
    {| desc.SizeMB := memSizeMB; desc.Mem := Some mem;
       desc.MemSlots := desc.MemSlots memDesc |}).

Definition set_MemSlots (s : SKVMGuestInstance) (slots : list desc.SMemSlot)
  : SKVMGuestInstance :=
  match desc.MemDesc (Desc s) with
  | Some md =>
      set_Desc s (set_MemDesc (Desc s)
        {| desc.SizeMB := desc.SizeMB md; desc.Mem := desc.Mem md;
           desc.MemSlots := slots |})
  | None => s
  end.

(** [Data.Size / 1024 / 1024]: Go's [/] on integers truncates toward
    zero, and a quotient by 1024 stays within [int64]. *)
Definition deviceSizeMB (d : MemoryDeviceInfo) : Z :=
  Z.quot (Z.quot (DataSize d) 1024) 1024.

(** The loop of lines 1428-1440, from the device at the head of [devs]
    on, with the values [memSize] and [memSlots] have there. *)
Fixpoint memSlotsLoop (path_Base : string -> string) (objType : string)
    (devs : list MemoryDeviceInfo) (memSize : Z) (memSlots : list desc.SMemSlot)
  : outcome (Z * list desc.SMemSlot) :=
  match devs with
  | [] => Ok (memSize, memSlots)
  | d :: rest =>
      match DataID d with
      | Some id =>
          if String.eqb (Type_ d) "dimm" then
            memSlotsLoop path_Base objType rest
              (sub64 memSize (deviceSizeMB d))
              (memSlots ++ [ {| desc.SlotSizeMB := deviceSizeMB d;
                                desc.MemObj := desc.NewObject objType (path_Base (DataMemdev d));
                                desc.MemDev := {| desc.DevType := "pc-dimm"; desc.DevId := id |} |} ])%list
          else Err ("unsupported memory device type " ++ Type_ d)
      | None => Err ("unsupported memory device type " ++ Type_ d)
      end
  end.

(** [initMemDescFromMemoryInfo]: the instance after the call and the
    error it returns, if any. *)
Definition initMemDescFromMemoryInfo (path_Base : string -> string) (archMan : ArchMan)
    (s : SKVMGuestInstance) (memoryDevicesInfoList : list MemoryDeviceInfo)
  : SKVMGuestInstance * outcome unit :=
  let objType := memObjType s in
  match memSlotsLoop path_Base objType memoryDevicesInfoList (desc.MemMB (Desc s)) [] with
  | Err m => (s, Err m)
  | Panic => (s, Panic)
  | Ok (memSize, memSlots) =>
      if (memSize <=? 0)%Z then
        (s, Err ("wrong memsize " ++ fmt_d (desc.MemMB (Desc s))))
      else
        (set_MemSlots (initMemDesc archMan s memSize) memSlots, Ok tt)
  end.

(** The sum of a list of [int64] sizes, as Go adds them. *)
Definition sum64 (l : list Z) : Z := fold_left add64 l 0%Z.

(** The sizes a descriptor accounts for: its slots and its base object. *)
Definition slotSizes (md : desc.SGuestMem) : list Z :=
  map desc.SlotSizeMB (desc.MemSlots md).

(** ** Command lines ([qemutils.Cmdline]) *)

(** Modelled from the spec: the package [pkg/util/qemutils], none of which
    is among the sources.  The spec gives a command line as an ordered
    sequence of key/optional-value pairs parsed out of a rendered command
    line; the words of the text and their grouping into options are the
    helpers [fields], [dashKey] and [parseWords] of this model. *)
Module qemutils.
(** A key with an optional value; no value is the empty string. *)
Record Option : Type := {
  Key : string;
  Value : string
}.

(** Modelled from the spec: the type [Cmdline] of package
    [pkg/util/qemutils], which is not among the sources: a command line
    is an ordered sequence of options. *)
Definition Cmdline : Type := list Option.

(** Modelled from the spec: [Cmdline.FilterOption], which is not among
    the sources.  It filters out of the command line the options its
    callback answers [true] on, calling it on each option in order; the
    callback of [parseCmdline] is a closure that appends to a captured
    slice, so the callback threads a state [St]. *)
Fixpoint FilterOption {St : Type} (filter : St -> Option -> St * bool)
    (st : St) (cl : Cmdline) : St * Cmdline :=
  match cl with
  | [] => (st, [])
  | o :: rest =>
      let '(st, drop) := filter st o in
      let '(st, kept) := FilterOption filter st rest in
      (st, if drop then kept else o :: kept)
  end.

(** Modelled from the spec: [Cmdline.AddOption], which is not among the
    sources: the options are appended to the sequence. *)
Definition AddOption (cl : Cmdline) (opts : list Option) : Cmdline :=
  (cl ++ opts)%list.

(** Modelled from the spec: the serialization of an option, [-key] or
    [-key value]. *)
Definition Option_ToString (o : Option) : string :=
  if String.eqb (Value o) EmptyString then "-" ++ Key o
  else "-" ++ Key o ++ " " ++ Value o.

(** [strings.Join]. *)
Fixpoint Join (l : list string) (sep : string) : string :=
  match l with
  | [] => EmptyString
  | [x] => x
  | x :: rest => x ++ sep ++ Join rest sep
  end.

(** Modelled from the spec: [Cmdline.ToString], which is not among the
    sources: the options in order, separated by one blank. *)
Definition ToString (cl : Cmdline) : string :=
  Join (map Option_ToString cl) " ".

(** The words of a text: the maximal runs without a blank, [cur] being
    the run read so far. *)
Fixpoint fields (s : string) (cur : string) : list string :=
  match s with
  | EmptyString => if String.eqb cur EmptyString then [] else [cur]
  | String c s' =>
      if Ascii.eqb c " "%char then
        if String.eqb cur EmptyString then fields s' EmptyString
        else cur :: fields s' EmptyString
      else fields s' (cur ++ String c EmptyString)
  end.

(** The key a word spells, if the word starts with a dash. *)
Definition dashKey (w : string) : option string :=
  match w with
  | String c key => if Ascii.eqb c "-"%char then Some key else None
  | EmptyString => None
  end.

(** A word that starts with a dash opens an option; any other word
    belongs to the value of the option open before it.  [acc] holds the
    options read so far, the last one first. *)
Fixpoint parseWords (ws : list string) (acc : list Option) : outcome Cmdline :=
  match ws with
  | [] => Ok (rev acc)
  | w :: rest =>
      match dashKey w with
      | Some key =>
          parseWords rest ({| Key := key; Value := EmptyString |} :: acc)
      | None =>
          match acc with
          | [] => Err ("invalid option " ++ w)
          | o :: acc' =>
              let value :=
                if String.eqb (Value o) EmptyString then w
                else Value o ++ " " ++ w in
              parseWords rest ({| Key := Key o; Value := value |} :: acc')
          end
      end
  end.

(** Modelled from the spec: [NewCmdline], which is not among the
    sources: it parses a rendered command line into its key/optional-value
    pairs, in order, and fails on a text that is no sequence of options
    (a value with no option before it). *)
Definition NewCmdline (input : string) : outcome Cmdline :=
  parseWords (fields input EmptyString) [].
End qemutils.

(** ** Textual diff and patch ([diffmatchpatch]) *)

(** Modelled from the spec: the library [github.com/sergi/go-diff], which
    is not among the sources.  The spec has a character-level diff between
    two texts, a patch built from that diff, and the patch applied onto a
    text; [commonPrefix], [dropPrefix] and [applyDiffs] are the helpers of
    this model. *)
Module diffmatchpatch.
Inductive Operation : Type := DiffDelete | DiffInsert | DiffEqual.

Record Diff : Type := {
  Type_ : Operation;
  Text : string
}.

(** The longest common prefix of two texts, and what follows it in
    each. *)
Fixpoint commonPrefix (a b : string) : string * string * string :=
  match a, b with
  | String x a', String y b' =>
      if Ascii.eqb x y then
        let '(p, ra, rb) := commonPrefix a' b' in (String x p, ra, rb)
      else (EmptyString, a, b)
  | _, _ => (EmptyString, a, b)
  end.

(** Modelled from the spec: [DiffMain] of the library
    [github.com/sergi/go-diff], which is not among the sources: a
    character-level diff from [text1] to [text2], here the common prefix
    kept, the rest of [text1] deleted and the rest of [text2] inserted. *)
Definition DiffMain (text1 text2 : string) : list Diff :=
  let '(p, r1, r2) := commonPrefix text1 text2 in
  [ {| Type_ := DiffEqual; Text := p |};
    {| Type_ := DiffDelete; Text := r1 |};
    {| Type_ := DiffInsert; Text := r2 |} ].

(** Modelled from the spec: [PatchMake], the patch built from a diff of
    [text1]: here one patch that spans the text, the diff itself. *)
Definition PatchMake (text1 : string) (diffs : list Diff) : list Diff := diffs.

(** [text] without its first [n] characters, when it starts with [t]. *)
Definition dropPrefix (t text : string) : option string :=
  if String.prefix t text
  then Some (String.substring (String.length t) (String.length text - String.length t) text)
  else None.

Fixpoint applyDiffs (diffs : list Diff) (text : string) : option string :=
  match diffs with
  | [] => if String.eqb text EmptyString then Some EmptyString else None
  | d :: rest =>
      match Type_ d with
      | DiffInsert => String.append (Text d) <$> applyDiffs rest text
      | DiffDelete => dropPrefix (Text d) text ≫= applyDiffs rest
      | DiffEqual =>
          dropPrefix (Text d) text ≫= fun text' =>
          String.append (Text d) <$> applyDiffs rest text'
      end
  end.

(** Modelled from the spec: [PatchApply], the patch applied onto a
    text: the patched text and whether the patch applied; a patch that
    does not fit leaves the text as it is. *)
Definition PatchApply (patch : list Diff) (text : string) : string * bool :=
  match applyDiffs patch text with
  | Some t => (t, true)
  | None => (text, false)
  end.
End diffmatchpatch.

(** ** Cmdline unification (lines 1145-1211) *)

Section Unify.
(** [fmt]'s verb [%q], the parser, the serializer and the diff library,
    which the code below only calls. *)
Variable fmt_q : string -> string.
Variable NewCmdline : string -> outcome qemutils.Cmdline.
Variable ToString : qemutils.Cmdline -> string.
Variable DiffMain : string -> string -> list diffmatchpatch.Diff.
Variable PatchMake : string -> list diffmatchpatch.Diff -> list diffmatchpatch.Diff.
Variable PatchApply : list diffmatchpatch.Diff -> string -> string * bool.

(** Lines 1163-1174: the monitor sockets. *)
Definition valsMatch : list string :=
  [ "socket,id=hmqmondev"; "socket,id=hmpmondev";
    "socket,id=qmqmondev"; "socket,id=qmpmondev" ].

(** Lines 1153-1176: whether the callback of [parseCmdline] answers
    [true] on the option, that is, whether it is one of the dynamic
    options. *)
Definition isDynamicOption (o : qemutils.Option) : bool :=
  if String.eqb (qemutils.Key o) "incoming" then
    HasPrefix (qemutils.Value o) "tcp:" || HasPrefix (qemutils.Value o) "defer"
  else if String.eqb (qemutils.Key o) "vnc" || String.eqb (qemutils.Key o) "spice"
          || String.eqb (qemutils.Key o) "daemonize" then true
  else if String.eqb (qemutils.Key o) "chardev" then
    existsb (HasPrefix (qemutils.Value o)) valsMatch
  else false.

(** The callback: it appends the option to [filterOpts] when it answers
    [true]. *)
Definition filterCallback (filterOpts : list qemutils.Option) (o : qemutils.Option)
  : list qemutils.Option * bool :=
  if isDynamicOption o then ((filterOpts ++ [o])%list, true)
  else (filterOpts, false).

Definition parseCmdline (input : string)
  : outcome (qemutils.Cmdline * list qemutils.Option) :=
  match NewCmdline input with
  | Err m => Err ("NewCmdline " ++ fmt_q input ++ ": " ++ m)
  | Panic => Panic
  | Ok cl =>
      let '(filterOpts, cl) := qemutils.FilterOption filterCallback [] cl in
      Ok (cl, filterOpts)
  end.

Definition _unifyMigrateQemuCmdline (cur src : string) : string :=
  let diffs := DiffMain cur src in
  let patch := PatchMake cur diffs in
  let '(newStr, _) := PatchApply patch cur in
  newStr.

(** Lines 1196-1209: the unified command line before it is serialized. *)
Definition unifyCmdline (cur src : string) : outcome qemutils.Cmdline :=
  do c <- Wrap (parseCmdline cur) ("parseCmdline current " ++ fmt_q cur);
  let '(curCl, curFilterOpts) := c in
  do r <- Wrap (parseCmdline src) ("parseCmdline source " ++ fmt_q src);
  let '(srcCl, _) := r in
  let unifyStr := _unifyMigrateQemuCmdline (ToString curCl) (ToString srcCl) in
  do u <- Wrap (parseCmdline unifyStr) ("parseCmdline unitfy " ++ fmt_q unifyStr);
  let '(unifyCl, _) := u in
  Ok (qemutils.AddOption unifyCl curFilterOpts).

Definition unifyMigrateQemuCmdline (cur src : string) : outcome string :=
  do unifyCl <- unifyCmdline cur src;
  Ok (ToString unifyCl).
End Unify.

(** The backslash, and a hexadecimal digit. *)
Definition backslash : string := String (ascii_of_nat 92) EmptyString.

Definition lowerhex (n : nat) : string := String.substring n 1 "0123456789abcdef".

(** One byte as [strconv.Quote] writes it. *)
Definition quoteByte (c : ascii) : string :=
  let n := nat_of_ascii c in
  if (n =? 34)%nat then backslash ++ dq
  else if (n =? 92)%nat then backslash ++ backslash
  else if (n =? 7)%nat then backslash ++ "a"
  else if (n =? 8)%nat then backslash ++ "b"
  else if (n =? 12)%nat then backslash ++ "f"
  else if (n =? 10)%nat then backslash ++ "n"
  else if (n =? 13)%nat then backslash ++ "r"
  else if (n =? 9)%nat then backslash ++ "t"
  else if (n =? 11)%nat then backslash ++ "v"
  else if (n <? 32)%nat || (127 <=? n)%nat then
    backslash ++ "x" ++ lowerhex (n / 16) ++ lowerhex (n mod 16)
  else String c EmptyString.

Fixpoint quoteBytes (s : string) : string :=
  match s with
  | EmptyString => EmptyString
  | String c s' => quoteByte c ++ quoteBytes s'
  end.

(** [strconv.Quote], with which [%q] prints a string, on a text of ASCII
    bytes: the text between double quotes, with a backslash before a
    double quote and before a backslash, the control characters as [\a],
    [\b], [\f], [\n], [\r], [\t], [\v] or [\x] and two hexadecimal digits,
    and every other character as it is.  A byte outside ASCII is written
    here as Go writes a byte that is no valid UTF-8, as [\x] and two
    digits; Go copies a printable character outside ASCII, by the Unicode
    tables, which are not modelled. *)
Definition strconv_Quote (s : string) : string := dq ++ quoteBytes s ++ dq.

(** The unification with the parser, serializer and diff as modelled
    above. *)
Definition unify (cur src : string) : outcome string :=
  unifyMigrateQemuCmdline strconv_Quote qemutils.NewCmdline qemutils.ToString
    diffmatchpatch.DiffMain diffmatchpatch.PatchMake diffmatchpatch.PatchApply cur src.

(** ** A reference host *)

(** Modelled from the spec: [qemu.GenerateStartOptions], which is not
    among the sources.  Of the options the spec lists it renders the USB
    devices, the extra free-form option strings, and, for a
    migration-incoming launch, the incoming clause with the TCP listen
    address, spelled as the whitelist of [parseCmdline] reads it. *)
Definition refGenerateStartOptions (input : GenerateStartOptionsInput) : outcome string :=
  Ok (sconcat (map (fun d => "-device " ++ d ++ " ") (Devices input))
      ++ sconcat (InputExtraOptions input)
      ++ (if NeedMigrate input
          then " -incoming tcp:0:" ++ fmt_d (LiveMigratePort input)
          else EmptyString)).

(** The JSON strings of the examples hold no character that needs an
    escape; integers print in decimal. *)
Fixpoint refJSONString (v : JSONObject) : string :=
  match v with
  | JSONString s => q s
  | JSONInt z => fmt_d z
  | JSONBool true => "true"
  | JSONBool false => "false"
  | JSONNull => "null"
  | JSONArray elems => "[" ++ qemutils.Join (map refJSONString elems) "," ++ "]"
  end.

Definition refHostOptions : SHostOptions :=
  {| OvnIntegrationBridge := "brvpc";
     DefaultQemuVersion := "4.2.0";
     DisableKVM := false;
     EnableQemuDebugLog := false;
     EnableVmUuid := true;
     OvmfPath := "/opt/cloud/contrib/OVMF.fd";
     SetVncPassword := true |}.

Definition refHomeDir (s : SKVMGuestInstance) : string :=
  "/opt/cloud/workspace/servers/" ++ desc.Uuid (Desc s).

(** A host with one hypervisor build installed, the default one. *)
Definition refGetQemu (version : string) : string :=
  if String.eqb version EmptyString || String.eqb version "4.2.0"
  then "/usr/local/qemu-4.2.0/bin/qemu-system-x86_64"
  else EmptyString.

Definition refCollab : Collab :=
  {| HostOptions := refHostOptions;
     strings_ToLower := ToLower;
     qemu_OS_NAME_ANDROID := "android";
     HomeDir := refHomeDir;
     GetPidFilePath := fun s => refHomeDir s ++ "/pid";
     GetVncFilePath := fun s => refHomeDir s ++ "/vnc";
     getStateFilePathRootPrefix := fun s => refHomeDir s ++ "/STATEFILE";
     getEncryptKeyPath := fun s => refHomeDir s ++ "/key";
     saveEncryptKeyFile := fun _ _ => Ok tt;
     path_Join := fun dir file => dir ++ "/" ++ file;
     generateDiskSetupScripts := fun _ _ => Ok EmptyString;
     generateSRIOVInitScripts := fun _ => Ok EmptyString;
     GetQemu := refGetQemu;
     ARCH_X86 := ["x86_64"; "i386"];
     VpcOvnEncapCostStr := "58";
     MONITOR_PORT_BASE := 55900;
     GetHmpMonitorPort := fun _ vncPort => (vncPort + 55900)%Z;
     GetQmpMonitorPort := fun _ vncPort => (vncPort + 56100)%Z;
     JSONObject_String := refJSONString;
     GenerateStartOptions := refGenerateStartOptions |}.

Definition refHost (aarch64 : bool) : SHostInfo :=
  {| IsAarch64 := aarch64;
     IsHugepagesEnabled := true;
     HostIsKvmSupport := true;
     HugepageSizeKb := 2048;
     GetCpuArchitecture := if aarch64 then "aarch64" else "x86_64";
     GetBridgeDev := fun bridge =>
       if String.eqb bridge "br0" then Some "br0" else None |}.

Definition refNic (ifname driver : string) : desc.SGuestNetwork :=
  {| desc.Ifname := ifname; desc.Bridge := "br0"; desc.Driver := driver;
     desc.Mac := "00:22:0a:00:00:01"; desc.Ip := "10.0.0.1" |}.

Definition refDesc (machine : string) (nics : list desc.SGuestNetwork)
    (metadata : gmap string string) (extra : gmap string JSONObject) : desc.SGuestDesc :=
  {| desc.Uuid := "guest-1"; desc.Cpu := 2; desc.MemMB := 4096;
     desc.Machine := machine; desc.Bios := EmptyString; desc.Vdi := "vnc";
     desc.IsSlave := false; desc.Nics := nics; desc.Disks := [];
     desc.UsbId := "usb"; desc.Metadata := metadata; desc.ExtraOptions := extra;
     desc.CpuDesc := None; desc.MemDesc := None |}.

Definition refGuest (aarch64 : bool) (d : desc.SGuestDesc) : SKVMGuestInstance :=
  {| Desc := d; host := refHost aarch64;
     LiveMigrateDestPort := Some 4396%Z; LiveMigrateUseTls := false |}.

Definition refData : RuntimeOverrides :=
  {| encrypt_key := None; vnc_port := 1; qemu_version := None;
     need_migrate := false; live_migrate_use_tls := false |}.

Definition refArchMan : ArchMan :=
  {| GenerateCpuDesc := fun cpus _ =>
       Ok {| desc.Cpus := cpus; desc.Model := "host"; desc.Accel := "kvm" |};
     GenerateMemDesc := {| desc.SizeMB := 0; desc.Mem := None; desc.MemSlots := [] |} |}.

(** ** Example guests on the reference host *)

(** A guest with hugepages and one virtio NIC. *)
Definition oneNicGuest : SKVMGuestInstance :=
  refGuest false (refDesc EmptyString [refNic "vnet0" "virtio"] ∅ ∅).

(** The same guest with a VFIO NIC besides. *)
Definition twoNicGuest : SKVMGuestInstance :=
  refGuest false
    (refDesc EmptyString [refNic "vnet0" "virtio"; refNic "vf0" api.NETWORK_DRIVER_VFIO] ∅ ∅).

(** A macOS guest, on an aarch64 host and on an x86_64 host. *)
Definition macosOnAarch64 : SKVMGuestInstance :=
  refGuest true (refDesc EmptyString [] {[ "os_name" := OS_NAME_MACOS ]} ∅).

Definition macosOnX86 : SKVMGuestInstance :=
  refGuest false (refDesc EmptyString [] {[ "os_name" := OS_NAME_MACOS ]} ∅).

(** An Android guest, on an aarch64 host or on an x86_64 host. *)
Definition androidGuest (aarch64 : bool) : SKVMGuestInstance :=
  refGuest aarch64 (refDesc EmptyString [] {[ "os_name" := OS_NAME_ANDROID refCollab ]} ∅).

(** A guest with two extra options, and the two orders in which a run can
    visit them. *)
Definition extraOptionsOf : gmap string JSONObject :=
  <[ "no-hpet" := JSONString "on" ]> {[ "rtc" := JSONString "base=utc" ]}.

Definition extraGuest : SKVMGuestInstance :=
  refGuest false (refDesc EmptyString [] ∅ extraOptionsOf).

Definition visitA : list (string * JSONObject) :=
  [ ("no-hpet", JSONString "on"); ("rtc", JSONString "base=utc") ].

Definition visitB : list (string * JSONObject) :=
  [ ("rtc", JSONString "base=utc"); ("no-hpet", JSONString "on") ].

(** Overrides that ask for the hypervisor version latest. *)
Definition latestData : RuntimeOverrides :=
  {| encrypt_key := None; vnc_port := 1; qemu_version := Some "latest";
     need_migrate := false; live_migrate_use_tls := false |}.

(** A host whose default hypervisor build is installed under a path that
    holds the word latest. *)
Definition latestPathCollab : Collab :=
  {| HostOptions := HostOptions refCollab;
     strings_ToLower := strings_ToLower refCollab;
     qemu_OS_NAME_ANDROID := qemu_OS_NAME_ANDROID refCollab;
     HomeDir := HomeDir refCollab;
     GetPidFilePath := GetPidFilePath refCollab;
     GetVncFilePath := GetVncFilePath refCollab;
     getStateFilePathRootPrefix := getStateFilePathRootPrefix refCollab;
     getEncryptKeyPath := getEncryptKeyPath refCollab;
     saveEncryptKeyFile := saveEncryptKeyFile refCollab;
     path_Join := path_Join refCollab;
     generateDiskSetupScripts := generateDiskSetupScripts refCollab;
     generateSRIOVInitScripts := generateSRIOVInitScripts refCollab;
     GetQemu := fun version =>
       if String.eqb version EmptyString
       then "/usr/local/qemu-latest/bin/qemu-system-x86_64" else EmptyString;
     ARCH_X86 := ARCH_X86 refCollab;
     VpcOvnEncapCostStr := VpcOvnEncapCostStr refCollab;
     MONITOR_PORT_BASE := MONITOR_PORT_BASE refCollab;
     GetHmpMonitorPort := GetHmpMonitorPort refCollab;
     GetQmpMonitorPort := GetQmpMonitorPort refCollab;
     JSONObject_String := JSONObject_String refCollab;
     GenerateStartOptions := GenerateStartOptions refCollab |}.

(** A migration-incoming launch, and a state file found under the
    state-file prefix of the reference guest. *)
Definition migrateData : RuntimeOverrides :=
  {| encrypt_key := None; vnc_port := 1; qemu_version := None;
     need_migrate := true; live_migrate_use_tls := false |}.

Definition savedState : StateFile :=
  StateFileRegular "/opt/cloud/workspace/servers/guest-1/STATEFILE_4.2.0".

(** A dimm as the hypervisor reports it, with its size in bytes. *)
Definition dimm (id : string) (bytes : Z) : MemoryDeviceInfo :=
  {| Type_ := "dimm"; DataID := Some id; DataSize := bytes; DataMemdev := "/objects/" ++ id |}.

Definition GiB : Z := 1073741824.

(** ** The scripts by their pieces *)

(** The invocation of one NIC's down-script: [fmt.Sprintf("%s %s\n",
    downscript, nic.Ifname)]. *)
Definition downScriptLine (E : Collab) (s : SKVMGuestInstance)
    (nic : desc.SGuestNetwork) : outcome string :=
  do downscript <- getNicDownScriptPath E s nic;
  Ok (downscript ++ " " ++ desc.Ifname nic ++ nl).

(** The invocations of the down-scripts of a list of NICs, one after the
    other. *)
Fixpoint downScriptLines (E : Collab) (s : SKVMGuestInstance)
    (nics : list desc.SGuestNetwork) : outcome string :=
  match nics with
  | [] => Ok EmptyString
  | nic :: rest =>
      do line <- downScriptLine E s nic;
      do lines <- downScriptLines E s rest;
      Ok (line ++ lines)
  end.

(** The NICs whose driver is not VFIO, in the order of the descriptor. *)
Definition nonVFIONics (s : SKVMGuestInstance) : list desc.SGuestNetwork :=
  List.filter (fun nic => negb (isVFIO nic)) (desc.Nics (Desc s)).

(** The hugepage mount of the start script (lines 978-982). *)
Definition hugepageMount (s : SKVMGuestInstance) : string :=
  if IsHugepagesEnabled (host s) then
    ("mkdir -p /dev/hugepages/" ++ desc.Uuid (Desc s) ++ nl)
    ++ ("mount -t hugetlbfs -o pagesize=" ++ fmt_d (HugepageSizeKb (host s))
        ++ "K,size=" ++ fmt_d (desc.MemMB (Desc s)) ++ "M hugetlbfs-"
        ++ desc.Uuid (Desc s) ++ " /dev/hugepages/" ++ desc.Uuid (Desc s) ++ nl)
  else EmptyString.

(** The line that names the hypervisor binary (line 1007). *)
Definition defaultQemuCmdLine (E : Collab) (data : RuntimeOverrides) : string :=
  "DEFAULT_QEMU_CMD='" ++ startQemuCmd E data ++ "'" ++ nl.

(** The start script up to the opening of [CMD=], from the pieces the
    collaborators return. *)
Definition startScriptOpen (E : Collab) (s : SKVMGuestInstance) (data : RuntimeOverrides)
    (downLines diskScripts sriovInitScripts : string) : string :=
  downLines ++ hugepageMount s
  ++ ("sleep 1" ++ nl)
  ++ ("echo " ++ fmt_d (to_uint (vnc_port data)) ++ " > " ++ GetVncFilePath E s ++ nl)
  ++ diskScripts ++ sriovInitScripts
  ++ ("STATE_FILE=`ls -d " ++ getStateFilePathRootPrefix E s ++ "* | head -n 1`" ++ nl)
  ++ ("PID_FILE=" ++ GetPidFilePath E s ++ nl)
  ++ defaultQemuCmdLine E data
  ++ ("QEMU_CMD=$DEFAULT_QEMU_CMD" ++ nl)
  ++ kvmArgLine E s
  ++ nicProbeFunctions E
  ++ ("CMD=" ++ dq ++ "$QEMU_CMD $QEMU_CMD_KVM_ARG").

(** The whole start script. *)
Definition startScriptText (E : Collab) (s : SKVMGuestInstance) (data : RuntimeOverrides)
    (downLines diskScripts sriovInitScripts qemuOpts : string) : string :=
  startScriptOpen E s data downLines diskScripts sriovInitScripts
  ++ " " ++ qemuOpts ++ (dq ++ nl) ++ incomingTail.

(** [a] comes before [b] in the text [s]: both occur, and the first
    occurrence of [a] starts before the first occurrence of [b]. *)
Definition occursBefore (a b s : string) : Prop :=
  exists i j, String.index 0 a s = Some i /\ String.index 0 b s = Some j /\ (i < j)%nat.

(** ** Memory sizes *)

(** The sum of a list in [Z], without wrap-around. *)
Fixpoint Zsum (l : list Z) : Z :=
  match l with
  | [] => 0%Z
  | x :: l' => (x + Zsum l')%Z
  end.

(** A device the reconstruction accepts: a dimm with an id (the negation
    of the test of line 1429). *)
Definition isDimm (d : MemoryDeviceInfo) : bool :=
  String.eqb (Type_ d) "dimm" && match DataID d with Some _ => true | None => false end.

(** The value of [memSize] after the loop: the configured memory less the
    size of each device, as Go subtracts them. *)
Definition remainingMB (mem : Z) (devs : list MemoryDeviceInfo) : Z :=
  fold_left (fun m d => sub64 m (deviceSizeMB d)) devs mem.

(** ** Options of a command line *)

(** The options [parseCmdline] moves to its side list, and those it
    leaves in the command line. *)
Definition dynamicOptions (cl : qemutils.Cmdline) : list qemutils.Option :=
  List.filter isDynamicOption cl.

Definition staticOptions (cl : qemutils.Cmdline) : qemutils.Cmdline :=
  List.filter (fun o => negb (isDynamicOption o)) cl.

(** The whitelist of dynamic options in the specification's words, to be
    compared with the callback of [parseCmdline]: an incoming option whose
    value starts with tcp: or defer, the vnc, spice and daemonize options,
    and the chardev options of the four monitor sockets. *)
Definition monitorSockets : list string :=
  ["hmqmondev"; "hmpmondev"; "qmqmondev"; "qmpmondev"].

Definition whitelistedOption (o : qemutils.Option) : bool :=
  (String.eqb (qemutils.Key o) "incoming"
   && (HasPrefix (qemutils.Value o) "tcp:" || HasPrefix (qemutils.Value o) "defer"))
  || String.eqb (qemutils.Key o) "vnc"
  || String.eqb (qemutils.Key o) "spice"
  || String.eqb (qemutils.Key o) "daemonize"
  || (String.eqb (qemutils.Key o) "chardev"
      && existsb (fun sock => HasPrefix (qemutils.Value o) ("socket,id=" ++ sock))
           monitorSockets).

(** No blank in the text. *)
Fixpoint noSpace (s : string) : bool :=
  match s with
  | EmptyString => true
  | String c s' => negb (Ascii.eqb c " "%char) && noSpace s'
  end.

(** A word: not empty, no blank in it. *)
Definition wfWord (w : string) : Prop := w <> EmptyString /\ noSpace w = true.

(** A word of a value does not start with a dash. *)
Definition wfValue (w : string) : Prop := wfWord w /\ qemutils.dashKey w = None.

(** The options the parser produces: the key is one word less its dash,
    the value is words separated by one blank. *)
Definition wfOption (o : qemutils.Option) : Prop :=
  noSpace (qemutils.Key o) = true /\
  exists vs, qemutils.Value o = qemutils.Join vs " " /\ Forall wfValue vs.

(** * Further functions of the controller *)

(** ** Machine, BIOS and PCI bus (lines 829-872) *)

Definition getMachine (s : SKVMGuestInstance) : string :=
  let machine := desc.Machine (Desc s) in
  if String.eqb machine EmptyString then api.VM_MACHINE_TYPE_PC else machine.

Definition getBios (s : SKVMGuestInstance) : string :=
  let bios := desc.Bios (Desc s) in
  if String.eqb bios EmptyString then "bios" else bios.

Definition isQ35 (s : SKVMGuestInstance) : bool :=
  String.eqb (getMachine s) api.VM_MACHINE_TYPE_Q35.

Definition isVirt (s : SKVMGuestInstance) : bool :=
  String.eqb (getMachine s) api.VM_MACHINE_TYPE_ARM_VIRT.

Definition isPcie (s : SKVMGuestInstance) : bool :=
  IsInStringArray (getMachine s) [api.VM_MACHINE_TYPE_Q35; api.VM_MACHINE_TYPE_ARM_VIRT].

Definition GetVdiProtocol (s : SKVMGuestInstance) : string :=
  let vdi := desc.Vdi (Desc s) in
  if String.eqb vdi EmptyString then "vnc" else vdi.

Definition GetPciBus (s : SKVMGuestInstance) : string :=
  if isQ35 s || isVirt s then "pcie.0" else "pci.0".

(** ** NIC scripts (lines 892-906) *)

(** The bridge device's script generators and the two predicates of the
    instance that [generateNicScripts] calls, none of them among the
    sources. *)
Record NicScriptGen : Type := {
  IsSlave : SKVMGuestInstance -> bool;
  IsMigratingDestGuest : SKVMGuestInstance -> bool;
  GenerateIfupScripts : string -> string -> desc.SGuestNetwork -> bool -> outcome unit;
  GenerateIfdownScripts : string -> string -> desc.SGuestNetwork -> bool -> outcome unit
}.

(** [generateNicScripts]: the generators are called with the bridge
    device (by its name), the script path, the NIC and [isVolatileHost]. *)
Definition generateNicScripts (E : Collab) (G : NicScriptGen) (s : SKVMGuestInstance)
    (nic : desc.SGuestNetwork) : outcome unit :=
  let bridge := desc.Bridge nic in
  match GetBridgeDev (host s) bridge with
  | None => Err ("Can't find bridge " ++ bridge)
  | Some dev =>
      let isVolatileHost := IsSlave G s || IsMigratingDestGuest G s in
      do up <- getNicUpScriptPath E s nic;
      do _ <- Wrap (GenerateIfupScripts G dev up nic isVolatileHost) "GenerateIfupScripts";
      do down <- getNicDownScriptPath E s nic;
      do _ <- Wrap (GenerateIfdownScripts G dev down nic isVolatileHost) "GenerateIfdownScripts";
      Ok tt
  end.

(** ** The options one entry of [ExtraOptions] contributes *)

(** The pieces [extraOptions] appends for one entry of the map: one per
    element for an array, one otherwise. *)
Definition extraOptionPieces (E : Collab) (kv : string * JSONObject) : list string :=
  match kv with
  | (k, JSONArray elems) =>
      map (fun vAtI => " -" ++ k ++ " " ++ JSONObject_String E vAtI) elems
  | (k, v) => [" -" ++ k ++ " " ++ JSONObject_String E v]
  end.

(** The NICs whose down-script cannot be located: not VFIO, and no
    bridge device for their bridge. *)
Definition bridgeMissing (s : SKVMGuestInstance) (nic : desc.SGuestNetwork) : bool :=
  negb (isVFIO nic) &&
  match GetBridgeDev (host s) (desc.Bridge nic) with
  | Some _ => false
  | None => true
  end.

(** The keyboard test of lines 1096-1098. *)
Definition usbKbdWanted (E : Collab) (s : SKVMGuestInstance) : bool :=
  negb (IsInStringArray (getOsDistribution s) [OS_NAME_OPENWRT; OS_NAME_CIRROS])
  && negb (IsOldWindows s) && negb (isWindows10 E s) && negb (disableUsbKbd s).

(** A guest whose live-migration port was never assigned. *)
Definition noPortGuest : SKVMGuestInstance :=
  {| Desc := refDesc EmptyString [refNic "vnet0" "virtio"] ∅ ∅;
     host := refHost false;
     LiveMigrateDestPort := None; LiveMigrateUseTls := false |}.

(** A Windows XP guest. *)
Definition oldWindowsGuest : SKVMGuestInstance :=
  refGuest false
    (refDesc EmptyString []
       (<[ "os_name" := OS_NAME_WINDOWS ]> {[ "os_version" := "5.1" ]}) ∅).


(** A guest whose NIC sits on a bridge the host does not have. *)
Definition strayNic : desc.SGuestNetwork :=
  {| desc.Ifname := "vnet9"; desc.Bridge := "br9"; desc.Driver := "virtio";
     desc.Mac := "00:22:0a:00:00:09"; desc.Ip := "10.0.0.9" |}.

Definition strayNicGuest : SKVMGuestInstance :=
  refGuest false (refDesc EmptyString [refNic "vnet0" "virtio"; strayNic] ∅ ∅).

(** Script generators that always succeed. *)
Definition refNicScriptGen : NicScriptGen :=
  {| IsSlave := fun s => desc.IsSlave (Desc s);
     IsMigratingDestGuest := fun _ => false;
     GenerateIfupScripts := fun _ _ _ _ => Ok tt;
     GenerateIfdownScripts := fun _ _ _ _ => Ok tt |}.

(** The reference host with other outcomes of saving the key, of the
    disk and SR-IOV script generators and of the option generator. *)
Definition refCollabWith
    (save : SKVMGuestInstance -> string -> outcome unit)
    (disks : SKVMGuestInstance -> list string -> outcome string)
    (sriov : SKVMGuestInstance -> outcome string)
    (gen : GenerateStartOptionsInput -> outcome string) : Collab :=
  {| HostOptions := refHostOptions;
     strings_ToLower := strings_ToLower refCollab;
     qemu_OS_NAME_ANDROID := qemu_OS_NAME_ANDROID refCollab;
     HomeDir := refHomeDir;
     GetPidFilePath := GetPidFilePath refCollab;
     GetVncFilePath := GetVncFilePath refCollab;
     getStateFilePathRootPrefix := getStateFilePathRootPrefix refCollab;
     getEncryptKeyPath := getEncryptKeyPath refCollab;
     saveEncryptKeyFile := save;
     path_Join := path_Join refCollab;
     generateDiskSetupScripts := disks;
     generateSRIOVInitScripts := sriov;
     GetQemu := refGetQemu;
     ARCH_X86 := ARCH_X86 refCollab;
     VpcOvnEncapCostStr := VpcOvnEncapCostStr refCollab;
     MONITOR_PORT_BASE := MONITOR_PORT_BASE refCollab;
     GetHmpMonitorPort := GetHmpMonitorPort refCollab;
     GetQmpMonitorPort := GetQmpMonitorPort refCollab;
     JSONObject_String := refJSONString;
     GenerateStartOptions := gen |}.

(** A host on which the encryption key cannot be saved. *)
Definition noKeyCollab : Collab :=
  refCollabWith (fun _ _ => Err "read-only file system")
    (generateDiskSetupScripts refCollab) (generateSRIOVInitScripts refCollab)
    refGenerateStartOptions.

(** A host on which the disk scripts cannot be generated. *)
Definition noDiskCollab : Collab :=
  refCollabWith (saveEncryptKeyFile refCollab)
    (fun _ _ => Err "no such disk") (generateSRIOVInitScripts refCollab)
    refGenerateStartOptions.

(** A launch that asks for TLS on the migration channel. *)
Definition tlsMigrateData : RuntimeOverrides :=
  {| encrypt_key := None; vnc_port := 1; qemu_version := None;
     need_migrate := true; live_migrate_use_tls := true |}.

(** Whether a call returned a value. *)
Definition is_Ok {A} (o : outcome A) : bool :=
  match o with
  | Ok _ => true
  | _ => false
  end.

Definition encryptedData : RuntimeOverrides :=
  {| encrypt_key := Some "0123456789abcdef"; vnc_port := 1; qemu_version := None;
     need_migrate := false; live_migrate_use_tls := false |}.

(** ** Memory slots *)

(** The slot [initMemDescFromMemoryInfo] makes of one reported dimm, with
    the object type [objType]. *)
Definition slotFor (path_Base : string -> string) (objType : string)
    (d : MemoryDeviceInfo) (slot : desc.SMemSlot) : Prop :=
  Type_ d = "dimm" /\
  DataID d = Some (desc.DevId (desc.MemDev slot)) /\
  desc.DevType (desc.MemDev slot) = "pc-dimm" /\
  desc.MemObj slot = desc.NewObject objType (path_Base (DataMemdev d)) /\
  desc.SlotSizeMB slot = deviceSizeMB d.

(** The last element of a path, for paths without a trailing slash. *)
Fixpoint refBase (p : string) : string :=
  match p with
  | EmptyString => EmptyString
  | String c rest =>
      if existsb (Ascii.eqb "/"%char) (list_ascii_of_string rest) then refBase rest
      else if Ascii.eqb c "/"%char then rest else p
  end.

(** A device the hypervisor reports as a dimm without an id. *)
Definition anonymousDimm : MemoryDeviceInfo :=
  {| Type_ := "dimm"; DataID := None; DataSize := GiB; DataMemdev := "/objects/mem9" |}.

(** * The Huawei load balancer (lines 1-626)

    The first part of the file: the methods of [SLoadbalancer] and the
    methods of [SRegion] that list, create and delete load balancers and
    their listeners, backend groups and health checks. *)

(** ** Calls to a remote service *)

(** A function that calls a remote service gets the calls made so far
    and returns them with its own calls after them, beside its result.
    The service answers a call by the calls that came before it. *)
Definition M (C A : Type) : Type := list C -> list C * outcome A.

Definition retM {C A} (a : A) : M C A := fun h => (h, Ok a).

Definition liftM {C A} (o : outcome A) : M C A := fun h => (h, o).

Definition bindM {C A B} (m : M C A) (k : A -> M C B) : M C B :=
  fun h =>
    match m h with
    | (h', Ok a) => k a h'
    | (h', Err e) => (h', Err e)
    | (h', Panic) => (h', Panic)
    end.

Definition callM {C A} (c : C) (answer : list C -> outcome A) : M C A :=
  fun h => ((h ++ [c])%list, answer h).

(** [errors.Wrap] and [errors.Wrapf] on the error of a call. *)
Definition wrapM {C A} (m : M C A) (msg : string) : M C A :=
  fun h => let '(h', r) := m h in (h', Wrap r msg).

Notation "'perform' x <- m ; k" := (bindM m (fun x => k))
  (at level 10, x name, m at level 100, k at level 200).

(** [strings.ToUpper], on the ASCII letters. *)
Definition upper_ascii (c : ascii) : ascii :=
  let n := nat_of_ascii c in
  if (97 <=? n)%nat && (n <=? 122)%nat then ascii_of_nat (n - 32) else c.

Fixpoint ToUpper (s : string) : string :=
  match s with
  | EmptyString => EmptyString
  | String c s' => String (upper_ascii c) (ToUpper s')
  end.

(** ** The options of package [cloudprovider] *)

(** The option structs of package [cloudprovider], which is not among the
    sources: the fields the code below reads, with the types its uses of
    them fix.  [ListenerName] and [LbName] are the fields [Name] of their
    structs. *)
Module cloudprovider.
Record SLoadbalancerBackendGroup : Type := {
  Name : string;
  Scheduler : string;
  Protocol : string
}.

Record SLoadbalancerListenerCreateOptions : Type := {
  ListenerName : string;
  Description : string;
  ListenerPort : Z;
  EnableHTTP2 : bool;
  ListenerType : string;
  BackendGroupId : string;
  CertificateId : string;
  XForwardedFor : bool
}.

Record SLoadbalancerHealthCheck : Type := {
  HealthCheckInterval : Z;
  HealthCheckRise : Z;
  HealthCheckTimeout : Z;
  HealthCheckType : string;
  HealthCheckDomain : string;
  HealthCheckURI : string;
  HealthCheckHttpCode : string
}.

Record SLoadbalancerCreateOptions : Type := {
  LbName : string;
  NetworkIds : list string;
  Address : string;
  EipId : string
}.
End cloudprovider.

Module huawei.
(** The constants of package [api], the error
    [cloudprovider.ErrNotSupported] and the function
    [ToHuaweiHealthCheckHttpCode] that the code below names, none of them
    among the sources: the code is stated over any values of them. *)
Record Consts : Type := {
  LB_SCHEDULER_WRR : string;
  LB_SCHEDULER_WLC : string;
  LB_SCHEDULER_SCH : string;
  LB_LISTENER_TYPE_HTTP : string;
  LB_LISTENER_TYPE_HTTPS : string;
  LB_LISTENER_TYPE_UDP : string;
  LB_LISTENER_TYPE_TCP : string;
  LB_HEALTH_CHECK_HTTP : string;
  LB_HEALTH_CHECK_TCP : string;
  LB_HEALTH_CHECK_UDP : string;
  EIP_CHARGE_TYPE_BY_TRAFFIC : string;
  ErrNotSupported : string;
  ToHuaweiHealthCheckHttpCode : string -> string
}.

(** Go refuses a map literal that names the same constant key twice:
    the keys of each table of lines 33-56 are pairwise different. *)
Definition distinct_keys (A : Consts) : Prop :=
  NoDup [LB_SCHEDULER_WRR A; LB_SCHEDULER_WLC A; LB_SCHEDULER_SCH A] /\
  NoDup [LB_LISTENER_TYPE_HTTP A; LB_LISTENER_TYPE_HTTPS A;
         LB_LISTENER_TYPE_UDP A; LB_LISTENER_TYPE_TCP A] /\
  NoDup [LB_HEALTH_CHECK_HTTP A; LB_HEALTH_CHECK_TCP A; LB_HEALTH_CHECK_UDP A].

(** ** The tables (lines 33-56) *)

Definition LB_ALGORITHM_MAP (A : Consts) : gmap string string :=
  <[LB_SCHEDULER_WRR A := "ROUND_ROBIN"]>
    (<[LB_SCHEDULER_WLC A := "LEAST_CONNECTIONS"]>
       (<[LB_SCHEDULER_SCH A := "SOURCE_IP"]> ∅)).

Definition LBBG_PROTOCOL_MAP (A : Consts) : gmap string string :=
  <[LB_LISTENER_TYPE_HTTP A := "HTTP"]>
    (<[LB_LISTENER_TYPE_HTTPS A := "HTTP"]>
       (<[LB_LISTENER_TYPE_UDP A := "UDP"]>
          (<[LB_LISTENER_TYPE_TCP A := "TCP"]> ∅))).

Definition LB_HEALTHCHECK_TYPE_MAP (A : Consts) : gmap string string :=
  <[LB_HEALTH_CHECK_HTTP A := "HTTP"]>
    (<[LB_HEALTH_CHECK_TCP A := "TCP"]>
       (<[LB_HEALTH_CHECK_UDP A := "UDP_CONNECT"]> ∅)).

(** ** Requests *)

(** The values of a [map[string]interface{}] sent as the body of a
    request. *)
Inductive Param : Type :=
| PString (s : string)
| PInt (z : Z)
| PBool (b : bool)
| PMap (m : gmap string Param).

(** The calls the code below makes: the requests of the client
    ([lbList] and the like, lines 532-591, with the resource and the query
    or body), and the methods of [SRegion] defined in other files of the
    package.  A query ([url.Values]) is only ever written with [Set], so
    it is a map from a key to one value. *)
Inductive Call : Type :=
| lbListCall (resource : string) (query : gmap string string)
| lbCreateCall (resource : string) (params : gmap string Param)
| lbUpdateCall (resource : string) (params : gmap string Param)
| lbDeleteCall (resource : string)
| getNetworkCall (networkId : string)
| GetPortCall (portId : string)
| GetEipsCall (portId : string)
| AssociateEipWithPortIdCall (eipId portId : string)
| getLoadBalancerBackendsCall (poolId : string)
| RemoveLoadBalancerBackendCall (poolId backendId : string)
| GetLoadBalancerBackendGroupCall (poolId : string)
| DeleteLoadBalancerBackendGroupCall (poolId : string)
| DeleteElbListenerCall (listenerId : string).

(** The structs of other files of the package, with the fields read
    here. *)
Record SNetwork : Type := {
  NetworkGetId : string;
  VpcID : string;
  NeutronSubnetID : string
}.

Record Port : Type := {
  NetworkID : string
}.

Record SEipAddress : Type := {
  EipID : string
}.

Record SElbBackend : Type := {
  ID : string
}.

Record SElbBackendGroup : Type := {
  HealthMonitorID : string
}.

(** Lines 82-88; [ListenerId] and [PoolId] are the fields [Id]. *)
Record Listener : Type := {
  ListenerId : string
}.

Record Pool : Type := {
  PoolId : string
}.

(** [SLoadbalancer] (lines 57-80), with the fields read here. *)
Record SLoadbalancer : Type := {
  subnet : option SNetwork;
  eip : option SEipAddress;
  Pools : list Pool;
  Listeners : list Listener;
  VipPortId : string;
  Id : string
}.

(** The region and its client: what each call answers, by the calls made
    before it, and what reading a response gives.  [Resp] is the type of
    the responses ([jsonutils.JSONObject]); [next_marker] is
    [resp.GetString("page_info", "next_marker")], the empty string when
    the response has none; [Unmarshal] gives the error of
    [resp.Unmarshal], if any, and [UnmarshalLoadbalancer] also the struct
    it fills. *)
Record SRegion (Resp : Type) : Type := {
  consts : Consts;
  projectId : string;
  lbList : list Call -> string -> gmap string string -> outcome Resp;
  lbCreate : list Call -> string -> gmap string Param -> outcome Resp;
  lbUpdate : list Call -> string -> gmap string Param -> outcome Resp;
  lbDelete : list Call -> string -> outcome Resp;
  getNetwork : list Call -> string -> outcome SNetwork;
  GetPort : list Call -> string -> outcome Port;
  GetEips : list Call -> string -> list SEipAddress;
  AssociateEipWithPortId : list Call -> string -> string -> outcome unit;
  getLoadBalancerBackends : list Call -> string -> outcome (list SElbBackend);
  RemoveLoadBalancerBackend : list Call -> string -> string -> outcome unit;
  GetLoadBalancerBackendGroup : list Call -> string -> outcome SElbBackendGroup;
  DeleteLoadBalancerBackendGroup : list Call -> string -> outcome unit;
  DeleteElbListener : list Call -> string -> outcome unit;
  GetArray : Resp -> string -> outcome (list Resp);
  next_marker : Resp -> string;
  Unmarshal : Resp -> string -> outcome unit;
  UnmarshalArray : list Resp -> outcome unit;
  UnmarshalLoadbalancer : Resp -> outcome SLoadbalancer;
  GetInternetChargeType : SEipAddress -> string;
  GetBandwidth : SEipAddress -> Z
}.

Arguments consts {Resp}.
Arguments projectId {Resp}.
Arguments lbList {Resp}.
Arguments lbCreate {Resp}.
Arguments lbUpdate {Resp}.
Arguments lbDelete {Resp}.
Arguments getNetwork {Resp}.
Arguments GetPort {Resp}.
Arguments GetEips {Resp}.
Arguments AssociateEipWithPortId {Resp}.
Arguments getLoadBalancerBackends {Resp}.
Arguments RemoveLoadBalancerBackend {Resp}.
Arguments GetLoadBalancerBackendGroup {Resp}.
Arguments DeleteLoadBalancerBackendGroup {Resp}.
Arguments DeleteElbListener {Resp}.
Arguments GetArray {Resp}.
Arguments next_marker {Resp}.
Arguments Unmarshal {Resp}.
Arguments UnmarshalArray {Resp}.
Arguments UnmarshalLoadbalancer {Resp}.
Arguments GetInternetChargeType {Resp}.
Arguments GetBandwidth {Resp}.

(** ** Backend groups (lines 426-460) *)

(** Lines 427-447: the body of the request, or the refusal. *)
Definition backendGroupParams (A : Consts) (lbId : string)
    (opts : cloudprovider.SLoadbalancerBackendGroup) : outcome (gmap string Param) :=
  let params : gmap string Param :=
    <["name" := PString (cloudprovider.Name opts)]>
      (<["loadbalancer_id" := PString lbId]> ∅) in
  let scheduler := cloudprovider.Scheduler opts in
  let protocol := cloudprovider.Protocol opts in
  do params <-
    (if String.eqb scheduler (LB_SCHEDULER_WRR A) then
       Ok (<["lb_algorithm" := PString "ROUND_ROBIN"]> params)
     else if String.eqb scheduler (LB_SCHEDULER_WLC A) then
       Ok (<["lb_algorithm" := PString "LEAST_CONNECTIONS"]> params)
     else if String.eqb scheduler (LB_SCHEDULER_SCH A) then
       Ok (<["lb_algorithm" := PString "SOURCE_IP"]> params)
     else Wrap (Err (ErrNotSupported A)) ("invalid scheduler " ++ scheduler));
  if String.eqb protocol (LB_LISTENER_TYPE_TCP A)
     || String.eqb protocol (LB_LISTENER_TYPE_UDP A) then
    Ok (<["protocol" := PString (ToUpper protocol)]> params)
  else if String.eqb protocol (LB_LISTENER_TYPE_HTTP A)
          || String.eqb protocol (LB_LISTENER_TYPE_HTTPS A) then
    Ok (<["protocol" := PString "HTTP"]> params)
  else Wrap (Err (ErrNotSupported A)) ("invalid protocol " ++ protocol).

(** [CreateLoadBalancerBackendGroup]: the error it returns, if any. *)
Definition CreateLoadBalancerBackendGroup {Resp} (R : SRegion Resp) (lbId : string)
    (opts : cloudprovider.SLoadbalancerBackendGroup) : M Call unit :=
  perform params <- liftM (backendGroupParams (consts R) lbId opts);
  let body : gmap string Param := <["pool" := PMap params]> ∅ in
  perform resp <- callM (lbCreateCall "elb/pools" body)
                        (fun h => lbCreate R h "elb/pools" body);
  liftM (Unmarshal R resp "pool").

(** ** Listeners (lines 377-413) *)

(** Lines 378-405: the body of the request, or the refusal. *)
Definition listenerParams (A : Consts)
    (listener : cloudprovider.SLoadbalancerListenerCreateOptions) (lbId : string)
  : outcome (gmap string Param) :=
  let params : gmap string Param :=
    <["name" := PString (cloudprovider.ListenerName listener)]>
      (<["description" := PString (cloudprovider.Description listener)]>
         (<["protocol_port" := PInt (cloudprovider.ListenerPort listener)]>
            (<["loadbalancer_id" := PString lbId]>
               (<["http2_enable" := PBool (cloudprovider.EnableHTTP2 listener)]> ∅)))) in
  let listenerType := cloudprovider.ListenerType listener in
  do params <-
    (if String.eqb listenerType (LB_LISTENER_TYPE_TCP A)
        || String.eqb listenerType (LB_LISTENER_TYPE_UDP A)
        || String.eqb listenerType (LB_LISTENER_TYPE_HTTP A) then
       Ok (<["protocol" := PString (ToUpper listenerType)]> params)
     else if String.eqb listenerType (LB_LISTENER_TYPE_HTTPS A) then
       Ok (<["protocol" := PString "TERMINATED_HTTPS"]> params)
     else Wrap (Err (ErrNotSupported A)) ("protocol " ++ listenerType));
  let params :=
    if (0 <? String.length (cloudprovider.BackendGroupId listener))%nat
    then <["default_pool_id" := PString (cloudprovider.BackendGroupId listener)]> params
    else params in
  let params :=
    if String.eqb listenerType (LB_LISTENER_TYPE_HTTPS A)
    then <["default_tls_container_ref" := PString (cloudprovider.CertificateId listener)]> params
    else params in
  let params :=
    if cloudprovider.XForwardedFor listener
    then <["insert_headers" :=
             PMap (<["X-Forwarded-ELB-IP" := PBool (cloudprovider.XForwardedFor listener)]> ∅)]>
           params
    else params in
  Ok params.

(** [CreateLoadBalancerListener]: the error it returns, if any. *)
Definition CreateLoadBalancerListener {Resp} (R : SRegion Resp)
    (listener : cloudprovider.SLoadbalancerListenerCreateOptions) (lbId : string)
  : M Call unit :=
  perform params <- liftM (listenerParams (consts R) listener lbId);
  let body : gmap string Param := <["listener" := PMap params]> ∅ in
  perform resp <- callM (lbCreateCall "elb/listeners" body)
                        (fun h => lbCreate R h "elb/listeners" body);
  liftM (Unmarshal R resp "listener").

(** ** Health checks (lines 462-520) *)

(** Lines 470-482 and 500-512: the fields of an HTTP health check. *)
Definition httpCheckParams (A : Consts) (healthCheck : cloudprovider.SLoadbalancerHealthCheck)
    (params : gmap string Param) : gmap string Param :=
  if String.eqb (cloudprovider.HealthCheckType healthCheck) (LB_HEALTH_CHECK_HTTP A) then
    let params :=
      if (0 <? String.length (cloudprovider.HealthCheckDomain healthCheck))%nat
      then <["domain_name" := PString (cloudprovider.HealthCheckDomain healthCheck)]> params
      else params in
    let params :=
      if (0 <? String.length (cloudprovider.HealthCheckURI healthCheck))%nat
      then <["url_path" := PString (cloudprovider.HealthCheckURI healthCheck)]> params
      else params in
    if (0 <? String.length (cloudprovider.HealthCheckHttpCode healthCheck))%nat
    then <["expected_codes" :=
             PString (ToHuaweiHealthCheckHttpCode A
                        (cloudprovider.HealthCheckHttpCode healthCheck))]> params
    else params
  else params.

(** Lines 463-482; a type that is not in the table reads as the empty
    string. *)
Definition healthCheckCreateParams (A : Consts) (backendGroupId : string)
    (healthCheck : cloudprovider.SLoadbalancerHealthCheck) : gmap string Param :=
  let params : gmap string Param :=
    <["delay" := PInt (cloudprovider.HealthCheckInterval healthCheck)]>
      (<["max_retries" := PInt (cloudprovider.HealthCheckRise healthCheck)]>
         (<["pool_id" := PString backendGroupId]>
            (<["timeout" := PInt (cloudprovider.HealthCheckTimeout healthCheck)]>
               (<["type" :=
                    PString (default EmptyString
                               (LB_HEALTHCHECK_TYPE_MAP A
                                  !! cloudprovider.HealthCheckType healthCheck))]> ∅)))) in
  httpCheckParams A healthCheck params.

(** Lines 495-512. *)
Definition healthCheckUpdateParams (A : Consts)
    (healthCheck : cloudprovider.SLoadbalancerHealthCheck) : gmap string Param :=
  let params : gmap string Param :=
    <["delay" := PInt (cloudprovider.HealthCheckInterval healthCheck)]>
      (<["max_retries" := PInt (cloudprovider.HealthCheckRise healthCheck)]>
         (<["timeout" := PInt (cloudprovider.HealthCheckTimeout healthCheck)]> ∅)) in
  httpCheckParams A healthCheck params.

(** [CreateLoadBalancerHealthCheck] and [UpdateLoadBalancerHealthCheck]:
    the error each returns, if any. *)
Definition CreateLoadBalancerHealthCheck {Resp} (R : SRegion Resp) (backendGroupId : string)
    (healthCheck : cloudprovider.SLoadbalancerHealthCheck) : M Call unit :=
  let body : gmap string Param :=
    <["healthmonitor" := PMap (healthCheckCreateParams (consts R) backendGroupId healthCheck)]> ∅ in
  perform resp <- callM (lbCreateCall "elb/healthmonitors" body)
                        (fun h => lbCreate R h "elb/healthmonitors" body);
  liftM (Unmarshal R resp "healthmonitor").

Definition UpdateLoadBalancerHealthCheck {Resp} (R : SRegion Resp) (healthCheckId : string)
    (healthCheck : cloudprovider.SLoadbalancerHealthCheck) : M Call unit :=
  let body : gmap string Param :=
    <["healthmonitor" := PMap (healthCheckUpdateParams (consts R) healthCheck)]> ∅ in
  perform resp <- callM (lbUpdateCall ("elb/healthmonitors/" ++ healthCheckId) body)
                        (fun h => lbUpdate R h ("elb/healthmonitors/" ++ healthCheckId) body);
  liftM (Unmarshal R resp "healthmonitor").

(** ** Deleting (lines 232-266, 362-366, 523-526) *)

Definition DeleteLoadBalancer {Resp} (R : SRegion Resp) (elbId : string) : M Call unit :=
  let resource := "elb/loadbalancers/" ++ elbId in
  perform _ <- callM (lbDeleteCall resource) (fun h => lbDelete R h resource);
  retM tt.

Definition DeleteLoadbalancerHealthCheck {Resp} (R : SRegion Resp) (healthCheckId : string)
  : M Call unit :=
  let resource := "elb/healthmonitors/" ++ healthCheckId in
  perform _ <- callM (lbDeleteCall resource) (fun h => lbDelete R h resource);
  retM tt.

(** The loop of lines 238-243. *)
Fixpoint removeBackends {Resp} (R : SRegion Resp) (poolId : string)
    (backends : list SElbBackend) : M Call unit :=
  match backends with
  | [] => retM tt
  | backend :: rest =>
      perform _ <- wrapM (callM (RemoveLoadBalancerBackendCall poolId (ID backend))
                            (fun h => RemoveLoadBalancerBackend R h poolId (ID backend)))
                         "RemoveLoadBalancerBackend";
      removeBackends R poolId rest
  end.

(** One iteration of the loop of lines 233-258. *)
Definition deletePool {Resp} (R : SRegion Resp) (res : Pool) : M Call unit :=
  perform backends <-
    wrapM (callM (getLoadBalancerBackendsCall (PoolId res))
             (fun h => getLoadBalancerBackends R h (PoolId res)))
          ("get backend group " ++ PoolId res ++ " backends");
  perform _ <- removeBackends R (PoolId res) backends;
  perform pool <-
    wrapM (callM (GetLoadBalancerBackendGroupCall (PoolId res))
             (fun h => GetLoadBalancerBackendGroup R h (PoolId res)))
          "GetLoadBalancerBackendGroup";
  perform _ <-
    (if (0 <? String.length (HealthMonitorID pool))%nat
     then wrapM (DeleteLoadbalancerHealthCheck R (HealthMonitorID pool)) "delete health check"
     else retM tt);
  wrapM (callM (DeleteLoadBalancerBackendGroupCall (PoolId res))
           (fun h => DeleteLoadBalancerBackendGroup R h (PoolId res)))
        ("delete backend group " ++ PoolId res).

Fixpoint deletePools {Resp} (R : SRegion Resp) (pools : list Pool) : M Call unit :=
  match pools with
  | [] => retM tt
  | res :: rest => perform _ <- deletePool R res; deletePools R rest
  end.

(** The loop of lines 259-264. *)
Fixpoint deleteListeners {Resp} (R : SRegion Resp) (listeners : list Listener)
  : M Call unit :=
  match listeners with
  | [] => retM tt
  | lis :: rest =>
      perform _ <- wrapM (callM (DeleteElbListenerCall (ListenerId lis))
                            (fun h => DeleteElbListener R h (ListenerId lis)))
                         ("delete listener " ++ ListenerId lis);
      deleteListeners R rest
  end.

Definition GetId (self : SLoadbalancer) : string := Id self.

Definition Delete {Resp} (R : SRegion Resp) (self : SLoadbalancer) : M Call unit :=
  perform _ <- deletePools R (Pools self);
  perform _ <- deleteListeners R (Listeners self);
  DeleteLoadBalancer R (GetId self).

(** ** Listing page by page (lines 556-575) *)

(** The loop, with [ret] as collected so far and [fuel] bounding the
    number of pages: the calls made, the query as the loop leaves it (the
    caller's, which [query.Set] writes into), and the array collected, an
    error or a panic; [None] when [fuel] pages did not reach the last
    one. *)
Fixpoint lbListAllFrom {Resp} (fuel : nat) (R : SRegion Resp) (resource : string)
    (query : gmap string string) (respKey : string) (ret : list Resp) (h : list Call)
  : list Call * gmap string string * option (outcome (list Resp)) :=
  match fuel with
  | O => (h, query, None)
  | S fuel =>
      let h' := (h ++ [lbListCall resource query])%list in
      match lbList R h resource query with
      | Err m => (h', query, Some (Err m))
      | Panic => (h', query, Some Panic)
      | Ok resp =>
          match Wrap (GetArray R resp respKey) ("get " ++ respKey) with
          | Err m => (h', query, Some (Err m))
          | Panic => (h', query, Some Panic)
          | Ok arr =>
              let ret := (ret ++ arr)%list in
              let marker := next_marker R resp in
              if (String.length marker =? 0)%nat then
                (h', query, Some (do _ <- UnmarshalArray R ret; Ok ret))
              else
                lbListAllFrom fuel R resource (<["marker" := marker]> query) respKey ret h'
          end
      end
  end.

Definition lbListAll {Resp} (fuel : nat) (R : SRegion Resp) (resource : string)
    (query : gmap string string) (respKey : string) (h : list Call)
  : list Call * gmap string string * option (outcome (list Resp)) :=
  lbListAllFrom fuel R resource query respKey [] h.

(** The pages the region answers with from [query] on, after the calls
    [h]: each response with its array; the last page names no next page,
    and every other page names the marker under which the next one is
    asked for. *)
Fixpoint pagesFrom {Resp} (R : SRegion Resp) (resource respKey : string)
    (pages : list (Resp * list Resp)) (query : gmap string string) (h : list Call) : Prop :=
  match pages with
  | [] => False
  | page :: rest =>
      lbList R h resource query = Ok (fst page) /\
      GetArray R (fst page) respKey = Ok (snd page) /\
      match rest with
      | [] => next_marker R (fst page) = EmptyString
      | _ :: _ =>
          next_marker R (fst page) <> EmptyString /\
          pagesFrom R resource respKey rest
            (<["marker" := next_marker R (fst page)]> query)
            (h ++ [lbListCall resource query])%list
      end
  end.

(** The queries under which the pages are asked for. *)
Fixpoint queriesOf {Resp} (R : SRegion Resp) (pages : list (Resp * list Resp))
    (query : gmap string string) : list (gmap string string) :=
  match pages with
  | [] => []
  | page :: rest =>
      query :: queriesOf R rest (<["marker" := next_marker R (fst page)]> query)
  end.

(** ** The address of a load balancer (lines 90-96, 171-179, 213-229) *)

Definition set_eip (self : SLoadbalancer) (e : option SEipAddress) : SLoadbalancer :=
  {| subnet := subnet self; eip := e; Pools := Pools self; Listeners := Listeners self;
     VipPortId := VipPortId self; Id := Id self |}.

(** [GetEip]: the calls made, the load balancer after the call and the
    address returned ([None] is nil).  The error of [GetEips] is
    dropped. *)
Definition GetEip {Resp} (R : SRegion Resp) (self : SLoadbalancer) (h : list Call)
  : list Call * SLoadbalancer * option SEipAddress :=
  match eip self with
  | Some e => (h, self, Some e)
  | None =>
      let eips := GetEips R h (VipPortId self) in
      let self := fold_left (fun self e => set_eip self (Some e)) eips self in
      ((h ++ [GetEipsCall (VipPortId self)])%list, self, eip self)
  end.

Definition GetIEIP {Resp} (R : SRegion Resp) (self : SLoadbalancer) (h : list Call)
  : list Call * SLoadbalancer * option SEipAddress :=
  let '(h, self, e) := GetEip R self h in
  match e with
  | None => (h, self, None)
  | Some _ => (h, self, eip self)
  end.

Definition GetChargeType {Resp} (R : SRegion Resp) (self : SLoadbalancer) (h : list Call)
  : list Call * SLoadbalancer * string :=
  let '(h, self, e) := GetEip R self h in
  match e with
  | Some eip => (h, self, GetInternetChargeType R eip)
  | None => (h, self, EIP_CHARGE_TYPE_BY_TRAFFIC (consts R))
  end.

Definition GetEgressMbps {Resp} (R : SRegion Resp) (self : SLoadbalancer) (h : list Call)
  : list Call * SLoadbalancer * Z :=
  let '(h, self, e) := GetEip R self h in
  match e with
  | Some eip => (h, self, GetBandwidth R eip)
  | None => (h, self, 0%Z)
  end.

(** ** The network of a load balancer (lines 144-169, 181-188) *)

Definition set_subnet (self : SLoadbalancer) (n : option SNetwork) : SLoadbalancer :=
  {| subnet := n; eip := eip self; Pools := Pools self; Listeners := Listeners self;
     VipPortId := VipPortId self; Id := Id self |}.

(** [GetNetwork]: a port or a network that cannot be fetched is logged
    and leaves the network unset. *)
Definition GetNetwork {Resp} (R : SRegion Resp) (self : SLoadbalancer) (h : list Call)
  : list Call * SLoadbalancer * outcome (option SNetwork) :=
  match subnet self with
  | Some net => (h, self, Ok (Some net))
  | None =>
      let h1 := (h ++ [GetPortCall (VipPortId self)])%list in
      match GetPort R h (VipPortId self) with
      | Ok port =>
          let h2 := (h1 ++ [getNetworkCall (NetworkID port)])%list in
          match getNetwork R h1 (NetworkID port) with
          | Ok net => (h2, set_subnet self (Some net), Ok (Some net))
          | Err _ => (h2, self, Ok None)
          | Panic => (h2, self, Panic)
          end
      | Err _ => (h1, self, Ok None)
      | Panic => (h1, self, Panic)
      end
  end.

Definition GetNetworkIds {Resp} (R : SRegion Resp) (self : SLoadbalancer) (h : list Call)
  : list Call * SLoadbalancer * outcome (list string) :=
  let '(h, self, r) := GetNetwork R self h in
  (h, self, do net <- r;
            match net with
            | Some net => Ok [NetworkGetId net]
            | None => Ok []
            end).

Definition GetVpcId {Resp} (R : SRegion Resp) (self : SLoadbalancer) (h : list Call)
  : list Call * SLoadbalancer * outcome string :=
  let '(h, self, r) := GetNetwork R self h in
  (h, self, do net <- r;
            match net with
            | Some net => Ok (VpcID net)
            | None => Ok EmptyString
            end).

(** ** Creating a load balancer (lines 594-626) *)

(** [CreateLoadBalancer]: Go returns a load balancer and an error; [Err]
    is an error without a load balancer, and a value is the load balancer
    with the error returned beside it, if any.  [NetworkIds[0]] on an
    empty slice panics. *)
Definition CreateLoadBalancer {Resp} (R : SRegion Resp)
    (loadbalancer : cloudprovider.SLoadbalancerCreateOptions)
  : M Call (SLoadbalancer * option string) :=
  match cloudprovider.NetworkIds loadbalancer with
  | [] => liftM Panic
  | networkId :: _ =>
      perform subnet <-
        wrapM (callM (getNetworkCall networkId) (fun h => getNetwork R h networkId))
              "SRegion.CreateLoadBalancer.getNetwork";
      let params : gmap string Param :=
        <["name" := PString (cloudprovider.LbName loadbalancer)]>
          (<["vip_subnet_id" := PString (NeutronSubnetID subnet)]>
             (<["tenant_id" := PString (projectId R)]> ∅)) in
      let params :=
        if (0 <? String.length (cloudprovider.Address loadbalancer))%nat
        then <["vip_address" := PString (cloudprovider.Address loadbalancer)]> params
        else params in
      let body : gmap string Param := <["loadbalancer" := PMap params]> ∅ in
      perform resp <- callM (lbCreateCall "elb/loadbalancers" body)
                            (fun h => lbCreate R h "elb/loadbalancers" body);
      perform ret <- wrapM (liftM (UnmarshalLoadbalancer R resp)) "resp.Unmarshal";
      if (0 <? String.length (cloudprovider.EipId loadbalancer))%nat then
        fun h =>
          let h' := (h ++ [AssociateEipWithPortIdCall (cloudprovider.EipId loadbalancer)
                             (VipPortId ret)])%list in
          match AssociateEipWithPortId R h (cloudprovider.EipId loadbalancer) (VipPortId ret) with
          | Ok _ => (h', Ok (ret, None))
          | Err m =>
              (h', Ok (ret, Some ("SRegion.CreateLoadBalancer.AssociateEipWithPortId: " ++ m)))
          | Panic => (h', Panic)
          end
      else retM (ret, None)
  end.
(** ** The calls of a deletion *)

(** The calls made for a backend group: its backends listed and removed,
    the group fetched, its health monitor deleted and the group
    deleted. *)
Definition poolStep (c : Call) : bool :=
  match c with
  | getLoadBalancerBackendsCall _ => true
  | RemoveLoadBalancerBackendCall _ _ => true
  | GetLoadBalancerBackendGroupCall _ => true
  | DeleteLoadBalancerBackendGroupCall _ => true
  | lbDeleteCall resource => HasPrefix resource "elb/healthmonitors/"
  | _ => false
  end.

(** The backend group a call asks to delete, if it does. *)
Definition deletedPool (c : Call) : option string :=
  match c with
  | DeleteLoadBalancerBackendGroupCall poolId => Some poolId
  | _ => None
  end.

(** ** The plan of a deletion *)

(** Whether the region answers a call without an error, after the calls
    [h]. *)
Definition answersOk {Resp} (R : SRegion Resp) (h : list Call) (c : Call) : bool :=
  match c with
  | lbListCall resource query => is_Ok (lbList R h resource query)
  | lbCreateCall resource params => is_Ok (lbCreate R h resource params)
  | lbUpdateCall resource params => is_Ok (lbUpdate R h resource params)
  | lbDeleteCall resource => is_Ok (lbDelete R h resource)
  | getNetworkCall networkId => is_Ok (getNetwork R h networkId)
  | GetPortCall portId => is_Ok (GetPort R h portId)
  | GetEipsCall _ => true
  | AssociateEipWithPortIdCall eipId portId => is_Ok (AssociateEipWithPortId R h eipId portId)
  | getLoadBalancerBackendsCall poolId => is_Ok (getLoadBalancerBackends R h poolId)
  | RemoveLoadBalancerBackendCall poolId backendId =>
      is_Ok (RemoveLoadBalancerBackend R h poolId backendId)
  | GetLoadBalancerBackendGroupCall poolId => is_Ok (GetLoadBalancerBackendGroup R h poolId)
  | DeleteLoadBalancerBackendGroupCall poolId =>
      is_Ok (DeleteLoadBalancerBackendGroup R h poolId)
  | DeleteElbListenerCall listenerId => is_Ok (DeleteElbListener R h listenerId)
  end.

(** A list of calls made one after the other until one fails: the calls
    made, the failing one last, and whether none failed. *)
Fixpoint untilFailure {Resp} (R : SRegion Resp) (h : list Call) (plan : list Call)
  : list Call * bool :=
  match plan with
  | [] => ([], true)
  | c :: rest =>
      if answersOk R h c then
        let '(made, ok) := untilFailure R (h ++ [c])%list rest in (c :: made, ok)
      else ([c], false)
  end.

(** The calls to make for one backend group, after the calls [h]: its
    backends are listed and each one removed, the group is fetched, its
    health monitor, if it has one, is deleted, and the group is deleted.
    The backends and the health monitor are those the region answers
    with. *)
Definition poolPlan {Resp} (R : SRegion Resp) (h : list Call) (res : Pool) : list Call :=
  let poolId := PoolId res in
  let list := getLoadBalancerBackendsCall poolId in
  let backends :=
    match getLoadBalancerBackends R h poolId with
    | Ok backends => backends
    | _ => []
    end in
  let removes := map (fun backend => RemoveLoadBalancerBackendCall poolId (ID backend)) backends in
  let monitor :=
    match GetLoadBalancerBackendGroup R ((h ++ [list]) ++ removes)%list poolId with
    | Ok pool => HealthMonitorID pool
    | _ => EmptyString
    end in
  ([list] ++ removes ++ [GetLoadBalancerBackendGroupCall poolId]
   ++ (if String.eqb monitor EmptyString then []
       else [lbDeleteCall ("elb/healthmonitors/" ++ monitor)])
   ++ [DeleteLoadBalancerBackendGroupCall poolId])%list.

Fixpoint poolsPlan {Resp} (R : SRegion Resp) (h : list Call) (pools : list Pool)
  : list Call :=
  match pools with
  | [] => []
  | res :: rest => (poolPlan R h res ++ poolsPlan R (h ++ poolPlan R h res) rest)%list
  end.

(** The calls to make to delete a load balancer: those for its backend
    groups in their order, the deletion of its listeners in their order,
    and the deletion of the load balancer. *)
Definition deletePlan {Resp} (R : SRegion Resp) (h : list Call) (self : SLoadbalancer)
  : list Call :=
  (poolsPlan R h (Pools self)
   ++ map (fun lis => DeleteElbListenerCall (ListenerId lis)) (Listeners self)
   ++ [lbDeleteCall ("elb/loadbalancers/" ++ Id self)])%list.

(** A function that makes the calls of a plan until one fails, and
    returns nil exactly when none failed. *)
Definition follows {Resp} (R : SRegion Resp) (m : M Call unit)
    (plan : list Call -> list Call) : Prop :=
  forall h,
    fst (m h) = (h ++ fst (untilFailure R h (plan h)))%list /\
    (snd (m h) = Ok tt <-> snd (untilFailure R h (plan h)) = true).

End huawei.

(** ** A reference region *)

(** The constants as package [api] spells them. *)
Definition refConsts : huawei.Consts :=
  {| huawei.LB_SCHEDULER_WRR := "wrr";
     huawei.LB_SCHEDULER_WLC := "wlc";
     huawei.LB_SCHEDULER_SCH := "sch";
     huawei.LB_LISTENER_TYPE_HTTP := "http";
     huawei.LB_LISTENER_TYPE_HTTPS := "https";
     huawei.LB_LISTENER_TYPE_UDP := "udp";
     huawei.LB_LISTENER_TYPE_TCP := "tcp";
     huawei.LB_HEALTH_CHECK_HTTP := "http";
     huawei.LB_HEALTH_CHECK_TCP := "tcp";
     huawei.LB_HEALTH_CHECK_UDP := "udp";
     huawei.EIP_CHARGE_TYPE_BY_TRAFFIC := "traffic";
     huawei.ErrNotSupported := "NotSupportedError";
     huawei.ToHuaweiHealthCheckHttpCode := fun codes => codes |}.

(** A response: an item, or a page of items that names the next page. *)
Inductive refResp : Type :=
| RItem (id : string)
| RPage (items : list refResp) (next : string).

(** The pages a region lists: two pages, the second under the marker
    [m2]. *)
Definition twoPages (h : list huawei.Call) (resource : string)
    (query : gmap string string) : outcome refResp :=
  match query !! "marker" with
  | None => Ok (RPage [RItem "a"; RItem "b"] "m2")
  | Some _ => Ok (RPage [RItem "c"] EmptyString)
  end.

(** A region by what it lists, what it answers a delete request and what
    it answers the association of an address.  Every other call succeeds:
    the port of a load balancer has two addresses; a backend group has two
    backends and the health monitor [hm-] followed by its id. *)
Definition refRegionWith
    (lbList : list huawei.Call -> string -> gmap string string -> outcome refResp)
    (lbDelete : list huawei.Call -> string -> outcome refResp)
    (AssociateEipWithPortId : list huawei.Call -> string -> string -> outcome unit)
  : huawei.SRegion refResp :=
  {| huawei.consts := refConsts;
     huawei.projectId := "project-1";
     huawei.lbList := lbList;
     huawei.lbCreate := fun _ _ _ => Ok (RItem "created");
     huawei.lbUpdate := fun _ _ _ => Ok (RItem "updated");
     huawei.lbDelete := lbDelete;
     huawei.getNetwork := fun _ id =>
       Ok {| huawei.NetworkGetId := id; huawei.VpcID := "vpc-1";
             huawei.NeutronSubnetID := "subnet-1" |};
     huawei.GetPort := fun _ _ => Ok {| huawei.NetworkID := "net-1" |};
     huawei.GetEips := fun _ _ => [ {| huawei.EipID := "eip-1" |}; {| huawei.EipID := "eip-2" |} ];
     huawei.AssociateEipWithPortId := AssociateEipWithPortId;
     huawei.getLoadBalancerBackends := fun _ _ =>
       Ok [ {| huawei.ID := "b1" |}; {| huawei.ID := "b2" |} ];
     huawei.RemoveLoadBalancerBackend := fun _ _ _ => Ok tt;
     huawei.GetLoadBalancerBackendGroup := fun _ poolId =>
       Ok {| huawei.HealthMonitorID := "hm-" ++ poolId |};
     huawei.DeleteLoadBalancerBackendGroup := fun _ _ => Ok tt;
     huawei.DeleteElbListener := fun _ _ => Ok tt;
     huawei.GetArray := fun resp _ =>
       match resp with
       | RPage items _ => Ok items
       | RItem _ => Err "not an array"
       end;
     huawei.next_marker := fun resp =>
       match resp with
       | RPage _ next => next
       | RItem _ => EmptyString
       end;
     huawei.Unmarshal := fun _ _ => Ok tt;
     huawei.UnmarshalArray := fun _ => Ok tt;
     huawei.UnmarshalLoadbalancer := fun _ =>
       Ok {| huawei.subnet := None; huawei.eip := None; huawei.Pools := [];
             huawei.Listeners := []; huawei.VipPortId := "port-1"; huawei.Id := "lb-1" |};
     huawei.GetInternetChargeType := fun _ => "bandwidth";
     huawei.GetBandwidth := fun _ => 100%Z |}.

(** A region in which every call succeeds but the association of an
    address. *)
Definition refRegion : huawei.SRegion refResp :=
  refRegionWith twoPages (fun _ _ => Ok (RItem "deleted")) (fun _ _ _ => Err "eip in use").

(** A region whose every page names a next page. *)
Definition endlessRegion : huawei.SRegion refResp :=
  refRegionWith (fun _ _ _ => Ok (RPage [RItem "a"] "again"))
    (fun _ _ => Ok (RItem "deleted")) (fun _ _ _ => Ok tt).

(** A load balancer with two backend groups and two listeners. *)
Definition refLoadbalancer : huawei.SLoadbalancer :=
  {| huawei.subnet := None; huawei.eip := None;
     huawei.Pools := [ {| huawei.PoolId := "p1" |}; {| huawei.PoolId := "p2" |} ];
     huawei.Listeners := [ {| huawei.ListenerId := "l1" |}; {| huawei.ListenerId := "l2" |} ];
     huawei.VipPortId := "port-1"; huawei.Id := "lb-1" |}.

(** A backend group, a listener and a health check to create. *)
Definition refBackendGroup : cloudprovider.SLoadbalancerBackendGroup :=
  {| cloudprovider.Name := "web"; cloudprovider.Scheduler := "wrr";
     cloudprovider.Protocol := "tcp" |}.

Definition refListener : cloudprovider.SLoadbalancerListenerCreateOptions :=
  {| cloudprovider.ListenerName := "web-443"; cloudprovider.Description := EmptyString;
     cloudprovider.ListenerPort := 443; cloudprovider.EnableHTTP2 := true;
     cloudprovider.ListenerType := "https"; cloudprovider.BackendGroupId := "p1";
     cloudprovider.CertificateId := EmptyString; cloudprovider.XForwardedFor := true |}.

Definition refHealthCheck : cloudprovider.SLoadbalancerHealthCheck :=
  {| cloudprovider.HealthCheckInterval := 5; cloudprovider.HealthCheckRise := 3;
     cloudprovider.HealthCheckTimeout := 10; cloudprovider.HealthCheckType := "http";
     cloudprovider.HealthCheckDomain := "example.org"; cloudprovider.HealthCheckURI := "/";
     cloudprovider.HealthCheckHttpCode := "http_2xx" |}.

(** A function that only adds calls to the calls made; [P] holds of the
    calls it adds and of what it returns. *)
Definition emits {A} (m : M huawei.Call A)
    (P : list huawei.Call -> outcome A -> Prop) : Prop :=
  forall h, exists calls, m h = ((h ++ calls)%list, snd (m h)) /\ P calls (snd (m h)).

(** A load balancer to create, with an address to associate. *)
Definition refCreateOptions : cloudprovider.SLoadbalancerCreateOptions :=
  {| cloudprovider.LbName := "lb"; cloudprovider.NetworkIds := ["net-1"; "net-2"];
     cloudprovider.Address := EmptyString; cloudprovider.EipId := "eip-9" |}.

(** A region that refuses to delete a listener. *)
Definition keepListenersRegion : huawei.SRegion refResp :=
  {| huawei.consts := refConsts;
     huawei.projectId := huawei.projectId refRegion;
     huawei.lbList := huawei.lbList refRegion;
     huawei.lbCreate := huawei.lbCreate refRegion;
     huawei.lbUpdate := huawei.lbUpdate refRegion;
     huawei.lbDelete := huawei.lbDelete refRegion;
     huawei.getNetwork := huawei.getNetwork refRegion;
     huawei.GetPort := huawei.GetPort refRegion;
     huawei.GetEips := fun _ _ => [];
     huawei.AssociateEipWithPortId := huawei.AssociateEipWithPortId refRegion;
     huawei.getLoadBalancerBackends := huawei.getLoadBalancerBackends refRegion;
     huawei.RemoveLoadBalancerBackend := huawei.RemoveLoadBalancerBackend refRegion;
     huawei.GetLoadBalancerBackendGroup := huawei.GetLoadBalancerBackendGroup refRegion;
     huawei.DeleteLoadBalancerBackendGroup := huawei.DeleteLoadBalancerBackendGroup refRegion;
     huawei.DeleteElbListener := fun _ _ => Err "listener in use";
     huawei.GetArray := huawei.GetArray refRegion;
     huawei.next_marker := huawei.next_marker refRegion;
     huawei.Unmarshal := huawei.Unmarshal refRegion;
     huawei.UnmarshalArray := huawei.UnmarshalArray refRegion;
     huawei.UnmarshalLoadbalancer := huawei.UnmarshalLoadbalancer refRegion;
     huawei.GetInternetChargeType := huawei.GetInternetChargeType refRegion;
     huawei.GetBandwidth := huawei.GetBandwidth refRegion |}.

(** A region in which no network can be fetched. *)
Definition noNetworkRegion : huawei.SRegion refResp :=
  {| huawei.consts := refConsts;
     huawei.projectId := huawei.projectId refRegion;
     huawei.lbList := huawei.lbList refRegion;
     huawei.lbCreate := huawei.lbCreate refRegion;
     huawei.lbUpdate := huawei.lbUpdate refRegion;
     huawei.lbDelete := huawei.lbDelete refRegion;
     huawei.getNetwork := fun _ _ => Err "network not found";
     huawei.GetPort := huawei.GetPort refRegion;
     huawei.GetEips := huawei.GetEips refRegion;
     huawei.AssociateEipWithPortId := huawei.AssociateEipWithPortId refRegion;
     huawei.getLoadBalancerBackends := huawei.getLoadBalancerBackends refRegion;
     huawei.RemoveLoadBalancerBackend := huawei.RemoveLoadBalancerBackend refRegion;
     huawei.GetLoadBalancerBackendGroup := huawei.GetLoadBalancerBackendGroup refRegion;
     huawei.DeleteLoadBalancerBackendGroup := huawei.DeleteLoadBalancerBackendGroup refRegion;
     huawei.DeleteElbListener := huawei.DeleteElbListener refRegion;
     huawei.GetArray := huawei.GetArray refRegion;
     huawei.next_marker := huawei.next_marker refRegion;
     huawei.Unmarshal := huawei.Unmarshal refRegion;
     huawei.UnmarshalArray := huawei.UnmarshalArray refRegion;
     huawei.UnmarshalLoadbalancer := huawei.UnmarshalLoadbalancer refRegion;
     huawei.GetInternetChargeType := huawei.GetInternetChargeType refRegion;
     huawei.GetBandwidth := huawei.GetBandwidth refRegion |}.
(** * Properties *)

(** ** Strings *)

Lemma append_cons (c : ascii) (s t : string) : String c s ++ t = String c (s ++ t).
Proof. reflexivity. Qed.

Lemma append_nil_l (s : string) : EmptyString ++ s = s.
Proof. reflexivity. Qed.

Lemma append_nil_r (s : string) : s ++ EmptyString = s.
Proof. induction s as [|c s IH]; [reflexivity|]. rewrite append_cons. now f_equal. Qed.

Lemma append_assoc (s t u : string) : (s ++ t) ++ u = s ++ (t ++ u).
Proof.
  induction s as [|c s IH]; [reflexivity|].
  rewrite !append_cons. now f_equal.
Qed.

Lemma length_append (s t : string) :
  String.length (s ++ t) = (String.length s + String.length t)%nat.
Proof.
  induction s as [|c s IH]; [reflexivity|].
  rewrite append_cons. cbn [String.length]. now rewrite IH.
Qed.

Lemma prefix_append (p s : string) : String.prefix p (p ++ s) = true.
Proof.
  induction p as [|c p IH]; [now destruct s|].
  rewrite append_cons. cbn [String.prefix].
  destruct (ascii_dec c c) as [_|N]; [exact IH|now destruct N].
Qed.

(** Reassociate a script to the right. *)
Ltac assoc_r := rewrite ?append_assoc, ?append_nil_l, ?append_nil_r.

(** ** Outcomes *)

Lemma obind_Ok {A B} (o : outcome A) (k : A -> outcome B) (b : B) :
  obind o k = Ok b -> exists a, o = Ok a /\ k a = Ok b.
Proof. destruct o as [a| |]; cbn; [eauto|discriminate..]. Qed.

Lemma Wrap_Ok {A} (o : outcome A) (msg : string) (a : A) : Wrap o msg = Ok a -> o = Ok a.
Proof. now destruct o. Qed.

(** ** Machine-type fix-up *)

Lemma fixGuestMachineType_host (s : SKVMGuestInstance) :
  host (fixGuestMachineType s) = host s.
Proof.
  unfold fixGuestMachineType.
  destruct (String.eqb (GetOsName s) OS_NAME_MACOS);
    cbn [host Desc set_Desc set_Bios set_Machine desc.Metadata];
    destruct (IsAarch64 (host s)); try reflexivity;
    destruct (IsInStringArray _ _); reflexivity.
Qed.

Lemma fixGuestMachineType_Metadata (s : SKVMGuestInstance) :
  desc.Metadata (Desc (fixGuestMachineType s)) = desc.Metadata (Desc s).
Proof.
  unfold fixGuestMachineType.
  destruct (String.eqb (GetOsName s) OS_NAME_MACOS);
    cbn [host Desc set_Desc set_Bios set_Machine desc.Metadata];
    destruct (IsAarch64 (host s)); try reflexivity;
    destruct (IsInStringArray _ _); reflexivity.
Qed.

(** On an aarch64 host the fix-up leaves the BIOS at UEFI, whatever the
    guest. *)
Lemma fixGuestMachineType_aarch64_Bios (s : SKVMGuestInstance) :
  IsAarch64 (host s) = true ->
  desc.Bios (Desc (fixGuestMachineType s)) = qemu.BIOS_UEFI.
Proof.
  intros Ha. unfold fixGuestMachineType.
  destruct (String.eqb (GetOsName s) OS_NAME_MACOS); cbn; rewrite Ha; reflexivity.
Qed.

(** C6, as stated, fails: a macOS guest on an aarch64 host does not end
    with the Q35 machine; the aarch64 step, which runs second, turns the
    Q35 the macOS step has just set into ARM-virt. *)
Lemma fixGuestMachineType_macos_not_Q35 :
  GetOsName macosOnAarch64 = OS_NAME_MACOS /\
  desc.Machine (Desc (fixGuestMachineType macosOnAarch64)) = api.VM_MACHINE_TYPE_ARM_VIRT /\
  desc.Machine (Desc (fixGuestMachineType macosOnAarch64)) <> api.VM_MACHINE_TYPE_Q35.
Proof.
  assert (Hm : desc.Machine (Desc (fixGuestMachineType macosOnAarch64))
               = api.VM_MACHINE_TYPE_ARM_VIRT) by (vm_compute; reflexivity).
  split; [vm_compute; reflexivity|]. split; [exact Hm|].
  rewrite Hm. discriminate.
Qed.

(** C6, amended.  After [fixGuestMachineType]: on an aarch64 host a
    descriptor whose Machine is the empty string has Machine = ARM-virt and
    Bios = UEFI; a macOS guest has Bios = UEFI, Machine = Q35 on a host
    that is not aarch64 and Machine = ARM-virt on an aarch64 host.
    [initCpuDesc] runs the fix-up first: the architecture strategy is
    called on the fixed-up instance, and the instance it leaves carries
    the fixed-up Machine and Bios. *)
Theorem fixGuestMachineType_coerces (archMan : ArchMan) (s : SKVMGuestInstance) :
  (IsAarch64 (host s) = true -> desc.Machine (Desc s) = EmptyString ->
     desc.Machine (Desc (fixGuestMachineType s)) = api.VM_MACHINE_TYPE_ARM_VIRT /\
     desc.Bios (Desc (fixGuestMachineType s)) = qemu.BIOS_UEFI) /\
  (GetOsName s = OS_NAME_MACOS ->
     desc.Bios (Desc (fixGuestMachineType s)) = qemu.BIOS_UEFI /\
     desc.Machine (Desc (fixGuestMachineType s)) =
       (if IsAarch64 (host s) then api.VM_MACHINE_TYPE_ARM_VIRT
        else api.VM_MACHINE_TYPE_Q35)) /\
  (let s' := fixGuestMachineType s in
   initCpuDesc archMan s =
     match GenerateCpuDesc archMan (to_uint (desc.Cpu (Desc s'))) s' with
     | Ok cpuDesc => (set_Desc s' (set_CpuDesc (Desc s') cpuDesc), Ok tt)
     | Err m => (s', Err m)
     | Panic => (s', Panic)
     end) /\
  desc.Machine (Desc (fst (initCpuDesc archMan s))) = desc.Machine (Desc (fixGuestMachineType s)) /\
  desc.Bios (Desc (fst (initCpuDesc archMan s))) = desc.Bios (Desc (fixGuestMachineType s)).
Proof.
  split; [|split; [|split; [|split]]].
  - intros Ha Hm. split; [|now apply fixGuestMachineType_aarch64_Bios].
    unfold fixGuestMachineType.
    destruct (String.eqb (GetOsName s) OS_NAME_MACOS); cbn; rewrite Ha; cbn; [reflexivity|].
    rewrite Hm. reflexivity.
  - intros Hos. unfold fixGuestMachineType. rewrite Hos. cbn.
    destruct (IsAarch64 (host s)); split; reflexivity.
  - unfold initCpuDesc. reflexivity.
  - unfold initCpuDesc.
    destruct (GenerateCpuDesc archMan _ (fixGuestMachineType s)); reflexivity.
  - unfold initCpuDesc.
    destruct (GenerateCpuDesc archMan _ (fixGuestMachineType s)); reflexivity.
Qed.

Lemma fixGuestMachineType_coerces_witness :
  (desc.Machine (Desc (fixGuestMachineType macosOnAarch64)) = api.VM_MACHINE_TYPE_ARM_VIRT /\
   desc.Bios (Desc (fixGuestMachineType macosOnAarch64)) = qemu.BIOS_UEFI) /\
  (desc.Bios (Desc (fixGuestMachineType macosOnX86)) = qemu.BIOS_UEFI /\
   desc.Machine (Desc (fixGuestMachineType macosOnX86)) = api.VM_MACHINE_TYPE_Q35).
Proof.
  split.
  - apply (proj1 (fixGuestMachineType_coerces refArchMan macosOnAarch64)); reflexivity.
  - apply (proj1 (proj2 (fixGuestMachineType_coerces refArchMan macosOnX86))).
    vm_compute; reflexivity.
Defined.

(** ** NIC down-script lines *)

Lemma nicDownScripts_filter (E : Collab) (s : SKVMGuestInstance)
    (nics : list desc.SGuestNetwork) (cmd : string) :
  nicDownScripts E s nics cmd =
  do lines <- downScriptLines E s (List.filter (fun nic => negb (isVFIO nic)) nics);
  Ok (cmd ++ lines).
Proof.
  revert cmd. induction nics as [|nic rest IH]; intros cmd.
  - cbn. now rewrite append_nil_r.
  - cbn [nicDownScripts List.filter]. destruct (isVFIO nic); cbn [negb]; [apply IH|].
    cbn [downScriptLines]. unfold downScriptLine.
    destruct (getNicDownScriptPath E s nic) as [p| |]; cbn [obind]; [|reflexivity..].
    rewrite IH.
    destruct (downScriptLines E s _) as [ls| |]; cbn [obind]; [|reflexivity..].
    now rewrite append_assoc.
Qed.

(** There is a result when the bridge device of every NIC is found. *)
Lemma downScriptLines_Ok (E : Collab) (s : SKVMGuestInstance)
    (nics : list desc.SGuestNetwork) :
  Forall (fun nic => GetBridgeDev (host s) (desc.Bridge nic) <> None) nics ->
  exists lines, downScriptLines E s nics = Ok lines.
Proof.
  induction 1 as [|nic rest Hn _ [ls IH]]; [now exists EmptyString|].
  cbn [downScriptLines]. unfold downScriptLine, getNicDownScriptPath.
  destruct (GetBridgeDev (host s) (desc.Bridge nic)) as [b|]; [|now destruct Hn].
  cbn [obind]. rewrite IH. cbn [obind]. eauto.
Qed.

Lemma downScriptLines_In (E : Collab) (s : SKVMGuestInstance)
    (nics : list desc.SGuestNetwork) (lines : string) (nic : desc.SGuestNetwork) :
  downScriptLines E s nics = Ok lines -> In nic nics ->
  exists line pre post,
    downScriptLine E s nic = Ok line /\ lines = pre ++ line ++ post.
Proof.
  revert lines. induction nics as [|n rest IH]; intros lines Hl Hin; [destruct Hin|].
  cbn [downScriptLines] in Hl.
  apply obind_Ok in Hl as (l & Hline & Hl).
  apply obind_Ok in Hl as (ls & Hrest & Hl). injection Hl as <-.
  destruct Hin as [->|Hin].
  - exists l, EmptyString, ls. now rewrite append_nil_l.
  - destruct (IH ls Hrest Hin) as (line & pre & post & Hok & ->).
    exists line, (l ++ pre), post. now rewrite append_assoc.
Qed.

(** ** The pieces of the start script *)

(** A start script that is returned is made of the down-script lines of
    the NICs that are not VFIO, the outputs of the sub-renderers, and the
    options generated for the input of [startInput]. *)
Lemma generateStartScript_Ok (E : Collab) (s s' : SKVMGuestInstance)
    (data : RuntimeOverrides) (visit : list (string * JSONObject)) (script : string) :
  generateStartScript E s data visit = (s', Ok script) ->
  exists downLines diskScripts sriovInitScripts qemuOpts needMigrate port tls,
    downScriptLines E s (nonVFIONics s) = Ok downLines /\
    generateDiskSetupScripts E s (desc.Disks (Desc s)) = Ok diskScripts /\
    generateSRIOVInitScripts E s = Ok sriovInitScripts /\
    migrateOptions s data = Some (needMigrate, port, tls, s') /\
    GenerateStartOptions E (startInput E s data visit needMigrate port tls) = Ok qemuOpts /\
    script = startScriptText E s data downLines diskScripts sriovInitScripts qemuOpts.
Proof.
  unfold generateStartScript. intros H.
  destruct (startScriptHead E s data) as [cmd| |] eqn:Hhead; [|discriminate..].
  destruct (migrateOptions s data) as [[[[needMigrate port] tls] s1]|] eqn:Hmig;
    [|discriminate].
  destruct (Wrap (GenerateStartOptions E _) _) as [qemuOpts| |] eqn:Hopts;
    [|discriminate..].
  apply Wrap_Ok in Hopts. injection H as <- <-.
  unfold startScriptHead in Hhead.
  apply obind_Ok in Hhead as (_ & _ & Hhead).
  rewrite nicDownScripts_filter in Hhead.
  apply obind_Ok in Hhead as (cmd0 & Hnics & Hhead).
  apply obind_Ok in Hnics as (downLines & Hlines & Hnics). injection Hnics as <-.
  apply obind_Ok in Hhead as (diskScripts & Hdisk%Wrap_Ok & Hhead).
  apply obind_Ok in Hhead as (sriov & Hsriov%Wrap_Ok & Hhead).
  injection Hhead as <-.
  exists downLines, diskScripts, sriov, qemuOpts, needMigrate, port, tls.
  split; [exact Hlines|]. split; [exact Hdisk|]. split; [exact Hsriov|].
  split; [reflexivity|]. split; [exact Hopts|].
  unfold startScriptText, startScriptOpen, hugepageMount, defaultQemuCmdLine.
  destruct (IsHugepagesEnabled (host s)); assoc_r; reflexivity.
Qed.

(** ** The stop script *)

(** C2, as stated, fails: in the stop script of a guest with one virtio
    NIC the invocation of the NIC's down-script does not come before the
    loop that unmounts the hugepage directories, it comes after it. *)
Lemma generateStopScript_umount_first :
  exists script line,
    generateStopScript refCollab oneNicGuest = Ok script /\
    downScriptLine refCollab oneNicGuest (refNic "vnet0" "virtio") = Ok line /\
    ~ occursBefore line (stopScriptUmount (desc.Uuid (Desc oneNicGuest))) script /\
    occursBefore (stopScriptUmount (desc.Uuid (Desc oneNicGuest))) line script.
Proof.
  eexists. eexists. split; [vm_compute; reflexivity|]. split; [vm_compute; reflexivity|].
  split.
  - intros (i & j & Hi & Hj & Hlt).
    vm_compute in Hi. vm_compute in Hj.
    injection Hi as <-. injection Hj as <-. lia.
  - eexists. eexists. split; [vm_compute; reflexivity|]. split; [vm_compute; reflexivity|].
    lia.
Qed.

(** C2, amended.  The stop script is the kill part, then the loop that
    unmounts and removes the guest's hugepage directories, then the
    down-script invocations: for every NIC that is not VFIO the umount
    loop precedes the NIC's down-script invocation in the script text. A
    script is returned whenever the bridge device of every such NIC is
    found. *)
Theorem generateStopScript_order (E : Collab) (s : SKVMGuestInstance) :
  (Forall (fun nic => GetBridgeDev (host s) (desc.Bridge nic) <> None) (nonVFIONics s) ->
     exists script, generateStopScript E s = Ok script) /\
  (forall script nic,
     generateStopScript E s = Ok script ->
     In nic (desc.Nics (Desc s)) -> isVFIO nic = false ->
     exists line pre post,
       downScriptLine E s nic = Ok line /\
       script = (stopScriptKill E s ++ stopScriptUmount (desc.Uuid (Desc s)))
                ++ pre ++ line ++ post).
Proof.
  unfold generateStopScript. rewrite nicDownScripts_filter.
  fold (nonVFIONics s). split.
  - intros Hb. destruct (downScriptLines_Ok E s _ Hb) as [ls ->]. cbn [obind]. eauto.
  - intros script nic Hs Hin Hv.
    apply obind_Ok in Hs as (ls & Hls & Hs). injection Hs as <-.
    assert (Hin' : In nic (nonVFIONics s)).
    { apply filter_In. split; [exact Hin|]. now rewrite Hv. }
    destruct (downScriptLines_In E s _ ls nic Hls Hin') as (line & pre & post & Hl & ->).
    exists line, pre, post. split; [exact Hl|]. now rewrite append_nil_l.
Qed.

Lemma generateStopScript_order_witness :
  exists line pre post,
    downScriptLine refCollab oneNicGuest (refNic "vnet0" "virtio") = Ok line /\
    "VNC_FILE=/opt/cloud/workspace/servers/guest-1/vnc" ++ nl ++
    sconcat [
    "PID_FILE=/opt/cloud/workspace/servers/guest-1/pid"; nl;
    "if [ "; q "$1"; " != "; q "--force"; " ] && [ -f $VNC_FILE ]; then"; nl;
    "  VNC=`cat $VNC_FILE`"; nl;
    "  MON=$(($VNC + 55900))"; nl;
    "  echo quit | nc -w 1 127.0.0.1 $MON > /dev/null"; nl;
    "  sleep 1"; nl;
    "  echo "; q "Remove VNC $VNC_FILE"; nl;
    "  rm -f $VNC_FILE"; nl;
    "fi"; nl;
    "if [ -f $PID_FILE ]; then"; nl;
    "  PID=`cat $PID_FILE`"; nl;
    "  ps -p $PID > /dev/null"; nl;
    "  if [ $? -eq 0 ]; then"; nl;
    "    echo "; q "Kill process $PID"; nl;
    "    kill -9 $PID > /dev/null 2>&1"; nl;
    "  fi"; nl;
    "  echo "; q "Remove PID $PID_FILE"; nl;
    "  rm -f $PID_FILE"; nl;
    "fi"; nl;
    "for d in $(ls -d /dev/hugepages/guest-1*)"; nl;
    "do"; nl;
    "  if [ -d $d ]; then"; nl;
    "    umount $d"; nl;
    "    rm -rf $d"; nl;
    "  fi"; nl;
    "done"; nl;
    "/opt/cloud/workspace/servers/guest-1/if-down-br0-vnet0.sh vnet0"; nl ]
    = (stopScriptKill refCollab oneNicGuest ++ stopScriptUmount (desc.Uuid (Desc oneNicGuest)))
      ++ pre ++ line ++ post.
Proof.
  apply (proj2 (generateStopScript_order refCollab oneNicGuest)).
  - vm_compute; reflexivity.
  - left; reflexivity.
  - reflexivity.
Defined.

(** C10.  The down-script lines of both scripts cover exactly the NICs
    whose driver is not VFIO: the stop script is its kill and umount parts
    followed by the invocations for those NICs, in order, and nothing
    else; a start script that is returned begins with the same
    invocations, followed by the hugepage mount and the rest of the
    script.  A NIC whose driver is VFIO contributes no invocation. *)
Theorem down_scripts_cover_non_VFIO (E : Collab) (s : SKVMGuestInstance)
    (data : RuntimeOverrides) (visit : list (string * JSONObject)) :
  (forall nic, In nic (nonVFIONics s) <->
               In nic (desc.Nics (Desc s)) /\ desc.Driver nic <> api.NETWORK_DRIVER_VFIO) /\
  generateStopScript E s =
    (do lines <- downScriptLines E s (nonVFIONics s);
     Ok ((stopScriptKill E s ++ stopScriptUmount (desc.Uuid (Desc s))) ++ lines)) /\
  (forall s' script,
     generateStartScript E s data visit = (s', Ok script) ->
     exists lines rest,
       downScriptLines E s (nonVFIONics s) = Ok lines /\
       script = lines ++ hugepageMount s ++ ("sleep 1" ++ nl) ++ rest).
Proof.
  split; [|split].
  - intros nic. unfold nonVFIONics, isVFIO. rewrite filter_In, negb_true_iff.
    now rewrite String.eqb_neq.
  - unfold generateStopScript. now rewrite nicDownScripts_filter.
  - intros s' script H.
    apply generateStartScript_Ok in H
      as (lines & disk & sriov & opts & nm & port & tls & Hl & _ & _ & _ & _ & ->).
    exists lines. eexists. split; [exact Hl|].
    unfold startScriptText, startScriptOpen. rewrite !append_assoc. reflexivity.
Qed.

Lemma down_scripts_cover_non_VFIO_witness :
  exists lines rest,
    downScriptLines refCollab twoNicGuest [refNic "vnet0" "virtio"] = Ok lines /\
    lines = "/opt/cloud/workspace/servers/guest-1/if-down-br0-vnet0.sh vnet0" ++ nl /\
    snd (generateStartScript refCollab twoNicGuest refData []) =
      Ok (lines ++ hugepageMount twoNicGuest ++ ("sleep 1" ++ nl) ++ rest).
Proof.
  destruct (proj2 (proj2 (down_scripts_cover_non_VFIO refCollab twoNicGuest refData []))
              (fst (generateStartScript refCollab twoNicGuest refData []))
              (match snd (generateStartScript refCollab twoNicGuest refData []) with
               | Ok script => script
               | _ => EmptyString
               end))
    as (lines & rest & Hl & Hs).
  - vm_compute; reflexivity.
  - exists lines, rest. split; [exact Hl|]. split.
    + vm_compute in Hl. injection Hl as <-. vm_compute; reflexivity.
    + rewrite <- Hs. vm_compute; reflexivity.
Defined.

(** ** USB input devices *)

(** C8.  Whatever the value of the constant [OS_NAME_ANDROID], which is
    not among the sources: on a host that is not aarch64 the devices of a
    guest whose OS name is that constant contain usb-mouse and no
    usb-tablet (they are usb-mouse, after usb-kbd unless the keyboard is
    left out); on an aarch64 host the devices are the usb-tablet and
    usb-kbd pair on the guest's USB controller, whatever the OS.  These
    are the devices of the input the start script hands to the option
    generator. *)
Theorem usbDevices_android_and_aarch64 (E : Collab) (s : SKVMGuestInstance)
    (data : RuntimeOverrides) (visit : list (string * JSONObject))
    (needMigrate : bool) (port : Z) (tls : bool) :
  let input := startInput E s data visit needMigrate port tls in
  (IsAarch64 (host s) = false -> OsName input = OS_NAME_ANDROID E ->
     In "usb-mouse" (Devices input) /\
     Forall (fun d => HasPrefix d "usb-tablet" = false) (Devices input) /\
     (Devices input = ["usb-kbd"; "usb-mouse"] \/ Devices input = ["usb-mouse"])) /\
  (IsAarch64 (host s) = true ->
     Devices input =
       [ "usb-tablet,id=input0,bus=" ++ desc.UsbId (Desc s) ++ ".0,port=1";
         "usb-kbd,id=input1,bus=" ++ desc.UsbId (Desc s) ++ ".0,port=2" ]).
Proof.
  cbn zeta. cbn [Devices OsName startInput]. unfold startQemuArch, usbDevices. split.
  - intros -> ->. rewrite String.eqb_refl.
    destruct (negb _ && _ && _ && _)%bool; cbn [app].
    + split; [right; left; reflexivity|]. split; [|left; reflexivity].
      repeat constructor.
    + split; [left; reflexivity|]. split; [|right; reflexivity].
      repeat constructor.
  - intros ->. reflexivity.
Qed.

Lemma usbDevices_android_and_aarch64_witness :
  GetOsName (androidGuest false) = "android" /\
  (In "usb-mouse" (Devices (startInput refCollab (androidGuest false) refData [] false 0 false)) /\
   Forall (fun d => HasPrefix d "usb-tablet" = false)
     (Devices (startInput refCollab (androidGuest false) refData [] false 0 false)) /\
   (Devices (startInput refCollab (androidGuest false) refData [] false 0 false)
      = ["usb-kbd"; "usb-mouse"] \/
    Devices (startInput refCollab (androidGuest false) refData [] false 0 false)
      = ["usb-mouse"])) /\
  Devices (startInput refCollab (androidGuest true) refData [] false 0 false) =
    [ "usb-tablet,id=input0,bus=usb.0,port=1"; "usb-kbd,id=input1,bus=usb.0,port=2" ].
Proof.
  split; [vm_compute; reflexivity|]. split.
  - apply (proj1 (usbDevices_android_and_aarch64 refCollab (androidGuest false)
                    refData [] false 0 false)); vm_compute; reflexivity.
  - apply (proj2 (usbDevices_android_and_aarch64 refCollab (androidGuest true)
                    refData [] false 0 false)); reflexivity.
Defined.

(** ** The hypervisor binary *)

Lemma startScriptText_defaultQemuCmdLine (E : Collab) (s : SKVMGuestInstance)
    (data : RuntimeOverrides) (downLines diskScripts sriov qemuOpts : string) :
  exists pre post,
    startScriptText E s data downLines diskScripts sriov qemuOpts
    = pre ++ defaultQemuCmdLine E data ++ post.
Proof.
  unfold startScriptText, startScriptOpen.
  exists (downLines ++ hugepageMount s ++ ("sleep 1" ++ nl)
          ++ ("echo " ++ fmt_d (to_uint (vnc_port data)) ++ " > " ++ GetVncFilePath E s ++ nl)
          ++ diskScripts ++ sriov
          ++ ("STATE_FILE=`ls -d " ++ getStateFilePathRootPrefix E s ++ "* | head -n 1`" ++ nl)
          ++ ("PID_FILE=" ++ GetPidFilePath E s ++ nl)).
  eexists. rewrite !append_assoc. reflexivity.
Qed.

(** C9, as stated, fails: the path written as [DEFAULT_QEMU_CMD] is the
    one the default lookup returns, and on a host whose default build is
    installed under a path that holds the word latest it holds that word,
    also with [qemu_version] = latest in the runtime overrides. *)
Lemma qemu_version_latest_path_holds_latest :
  qemu_version latestData = Some "latest" /\
  exists script pre post,
    generateStartScript latestPathCollab oneNicGuest latestData [] = (oneNicGuest, Ok script) /\
    script = pre ++ ("DEFAULT_QEMU_CMD='/usr/local/qemu-latest/bin/qemu-system-x86_64'" ++ nl)
                 ++ post /\
    Contains "/usr/local/qemu-latest/bin/qemu-system-x86_64" "latest" = true.
Proof.
  split; [reflexivity|].
  assert (H : exists script,
             generateStartScript latestPathCollab oneNicGuest latestData []
             = (oneNicGuest, Ok script)) by (eexists; vm_compute; reflexivity).
  destruct H as [script H]. pose proof H as H0.
  apply generateStartScript_Ok in H0
    as (lines & disk & sriov & opts & nm & port & tls & _ & _ & _ & _ & _ & Hs).
  destruct (startScriptText_defaultQemuCmdLine latestPathCollab oneNicGuest latestData
              lines disk sriov opts) as (pre & post & Heq).
  exists script, pre, post. split; [exact H|]. split; [|vm_compute; reflexivity].
  rewrite Hs, Heq. reflexivity.
Qed.

(** C9, amended.  With [qemu_version] = latest in the runtime overrides
    the version is cleared to the empty string before the lookup, so the
    path written as [DEFAULT_QEMU_CMD] is the one the default lookup
    [GetQemu("")] returns, whatever the lookup answers under any other
    name, the name latest among them: it holds the string latest exactly
    when the default path itself does.  For any overrides, a versioned
    lookup that returns nothing falls back to the default lookup. *)
Theorem qemu_version_latest_is_default (E : Collab) (s : SKVMGuestInstance)
    (data : RuntimeOverrides) (visit : list (string * JSONObject)) :
  qemu_version data = Some "latest" ->
  startQemuVersion E data = EmptyString /\
  startQemuCmd E data = GetQemu E EmptyString /\
  (forall s' script,
     generateStartScript E s data visit = (s', Ok script) ->
     exists pre post,
       script = pre ++ ("DEFAULT_QEMU_CMD='" ++ GetQemu E EmptyString ++ "'" ++ nl) ++ post) /\
  Contains (startQemuCmd E data) "latest" = Contains (GetQemu E EmptyString) "latest" /\
  (forall E' : Collab,
     GetQemu E' EmptyString = GetQemu E EmptyString ->
     startQemuCmd E' data = startQemuCmd E data) /\
  (forall data', GetQemu E (startQemuVersion E data') = EmptyString ->
                 startQemuCmd E data' = GetQemu E EmptyString).
Proof.
  intros Hv.
  assert (Hver : forall E0, startQemuVersion E0 data = EmptyString).
  { intros E0. unfold startQemuVersion. rewrite Hv. reflexivity. }
  assert (Hcmd : forall E0, startQemuCmd E0 data = GetQemu E0 EmptyString).
  { intros E0. unfold startQemuCmd. rewrite Hver.
    now destruct (String.length _ =? 0)%nat. }
  split; [apply Hver|]. split; [apply Hcmd|]. split; [|split; [|split]].
  - intros s' script H.
    apply generateStartScript_Ok in H
      as (lines & disk & sriov & opts & nm & port & tls & _ & _ & _ & _ & _ & ->).
    destruct (startScriptText_defaultQemuCmdLine E s data lines disk sriov opts)
      as (pre & post & ->).
    exists pre, post. unfold defaultQemuCmdLine. now rewrite Hcmd.
  - now rewrite Hcmd.
  - intros E' HE. now rewrite !Hcmd.
  - intros data' H0. unfold startQemuCmd. rewrite H0. reflexivity.
Qed.

Lemma qemu_version_latest_is_default_witness :
  startQemuVersion refCollab latestData = EmptyString /\
  startQemuCmd refCollab latestData = "/usr/local/qemu-4.2.0/bin/qemu-system-x86_64" /\
  Contains (startQemuCmd refCollab latestData) "latest" = false.
Proof.
  destruct (qemu_version_latest_is_default refCollab oneNicGuest latestData [] eq_refl)
    as (Hver & Hcmd & _ & Hno & _).
  split; [exact Hver|]. split; [exact Hcmd|]. rewrite Hno. vm_compute; reflexivity.
Defined.

(** ** The incoming clause *)

(** C7, as stated, fails: for a migration-incoming launch the option
    generator is asked for the TCP form, and the end of the script adds
    the state-file form whenever a state file is there; with both, the
    composed command holds two incoming clauses, one of each form. *)
Lemma generateStartScript_two_incoming :
  exists s' script qemuOpts,
    generateStartScript refCollab oneNicGuest migrateData [] = (s', Ok script) /\
    GenerateStartOptions refCollab
      (startInput refCollab oneNicGuest migrateData [] true 4396 false) = Ok qemuOpts /\
    script = startScriptText refCollab oneNicGuest migrateData
               ("/opt/cloud/workspace/servers/guest-1/if-down-br0-vnet0.sh vnet0" ++ nl)
               EmptyString EmptyString qemuOpts /\
    let cmd := composedCommand refCollab oneNicGuest migrateData qemuOpts savedState in
    incomingClauses cmd = 2 /\
    Contains cmd " -incoming tcp:0:4396" = true /\
    Contains cmd (" --incoming " ++ dq ++ "exec: cat ") = true.
Proof.
  eexists. eexists. eexists. split; [vm_compute; reflexivity|].
  split; [vm_compute; reflexivity|]. split; [vm_compute; reflexivity|].
  cbn zeta. split; [vm_compute; reflexivity|].
  split; vm_compute; reflexivity.
Qed.

Lemma migrateOptions_NeedMigrate (s s' : SKVMGuestInstance) (data : RuntimeOverrides)
    (needMigrate : bool) (port : Z) (tls : bool) :
  migrateOptions s data = Some (needMigrate, port, tls, s') ->
  needMigrate = need_migrate data /\
  tls = need_migrate data && live_migrate_use_tls data /\
  (need_migrate data = true -> exists p, LiveMigrateDestPort s = Some p /\ port = to_uint p).
Proof.
  unfold migrateOptions.
  destruct (need_migrate data).
  - destruct (LiveMigrateDestPort s) as [p|]; [|discriminate].
    destruct (live_migrate_use_tls data); intros [= <- <- <- <-]; eauto.
  - destruct (desc.IsSlave (Desc s)).
    + destruct (LiveMigrateDestPort s) as [p|]; [|discriminate].
      intros [= <- <- <- <-]. repeat split. discriminate.
    + intros [= <- <- <- <-]. repeat split. discriminate.
Qed.

(** C7, amended.  The two forms of the incoming clause are chosen
    independently of each other.  A start script that is returned ends
    with the shell conditional on the state file, whatever the overrides
    say, and that conditional adds at most one exec-form clause (its two
    branches are an if and its elif): one when the state file is a
    directory holding [content] or a regular file, none otherwise.  The
    TCP form is left to the option generator, whose input carries
    [NeedMigrate] = [need_migrate] and, for a migration-incoming launch,
    the destination port. *)
Theorem incoming_forms_independent (E : Collab) (s s' : SKVMGuestInstance)
    (data : RuntimeOverrides) (visit : list (string * JSONObject)) (script : string) :
  generateStartScript E s data visit = (s', Ok script) ->
  exists head qemuOpts input,
    script = head ++ " " ++ qemuOpts ++ (dq ++ nl) ++ incomingTail /\
    GenerateStartOptions E input = Ok qemuOpts /\
    NeedMigrate input = need_migrate data /\
    (need_migrate data = true ->
     exists p, LiveMigrateDestPort s = Some p /\ LiveMigratePort input = to_uint p) /\
    forall st,
      composedCommand E s data qemuOpts st =
        (startQemuCmd E data ++ " " ++ kvmArg E s ++ " " ++ qemuOpts) ++ execIncoming st /\
      (execIncoming st = EmptyString \/
       exists target, execIncoming st = " --incoming " ++ q ("exec: cat " ++ target)) /\
      (execIncoming st = EmptyString <->
       st = NoStateFile \/ exists path, st = StateFileDir path false).
Proof.
  intros H.
  apply generateStartScript_Ok in H
    as (lines & disk & sriov & opts & nm & port & tls & _ & _ & _ & Hmig & Hopts & ->).
  apply migrateOptions_NeedMigrate in Hmig as (-> & -> & Hport).
  exists (startScriptOpen E s data lines disk sriov), opts.
  eexists. split; [reflexivity|].
  split; [exact Hopts|]. split; [reflexivity|]. split; [exact Hport|].
  intros st. split; [reflexivity|]. split.
  - destruct st as [|path [|]|path]; cbn [execIncoming]; eauto.
  - destruct st as [|path [|]|path]; cbn [execIncoming]; split; intros H;
      try discriminate; eauto.
    + destruct H as [H|[p H]]; discriminate.
    + destruct H as [H|[p H]]; discriminate.
Qed.

Lemma incoming_forms_independent_witness :
  exists script head qemuOpts input,
    snd (generateStartScript refCollab oneNicGuest migrateData []) = Ok script /\
    script = head ++ " " ++ qemuOpts ++ (dq ++ nl) ++ incomingTail /\
    GenerateStartOptions refCollab input = Ok qemuOpts /\
    NeedMigrate input = true.
Proof.
  eexists.
  edestruct (incoming_forms_independent refCollab oneNicGuest oneNicGuest migrateData [])
    as (head & qemuOpts & input & Hs & Hopts & Hnm & _).
  - vm_compute; reflexivity.
  - exists head, qemuOpts, input. split; [vm_compute; reflexivity|].
    split; [exact Hs|]. split; [exact Hopts|]. exact Hnm.
Defined.

(** ** Determinism of the start script *)

Lemma range_order_visitA : range_order (desc.ExtraOptions (Desc extraGuest)) visitA.
Proof.
  unfold range_order, visitA. cbn [extraGuest refGuest refDesc Desc desc.ExtraOptions].
  unfold extraOptionsOf.
  rewrite map_to_list_insert by (now apply lookup_singleton_ne).
  now rewrite map_to_list_singleton.
Qed.

Lemma range_order_visitB : range_order (desc.ExtraOptions (Desc extraGuest)) visitB.
Proof.
  unfold range_order. rewrite <- range_order_visitA. apply perm_swap.
Qed.

(** With at most one extra option there is one order to visit the map
    in, and the script is the same on every call. *)
Lemma range_order_unique_small {V} (m : gmap string V) (visit1 visit2 : list (string * V)) :
  (size m <= 1)%nat ->
  range_order m visit1 -> range_order m visit2 -> visit1 = visit2.
Proof.
  unfold range_order. intros Hsz H1 H2.
  assert (Hp : visit1 ≡ₚ visit2) by (now rewrite H1, H2).
  assert (Hlen : (length visit1 <= 1)%nat).
  { rewrite H1, length_map_to_list. exact Hsz. }
  destruct visit1 as [|kv1 [|? ?]]; cbn in Hlen; [| |lia].
  - now apply Permutation_nil in Hp as ->.
  - now apply Permutation_singleton_l in Hp as ->.
Qed.

Lemma generateStartScript_deterministic_small (E : Collab) (s : SKVMGuestInstance)
    (data : RuntimeOverrides) (r1 r2 : SKVMGuestInstance * outcome string) :
  (size (desc.ExtraOptions (Desc s)) <= 1)%nat ->
  generateStartScript_returns E s data r1 ->
  generateStartScript_returns E s data r2 ->
  r1 = r2.
Proof.
  intros Hsz (v1 & Hv1 & <-) (v2 & Hv2 & <-).
  now rewrite (range_order_unique_small _ v1 v2 Hsz Hv1 Hv2).
Qed.

(** C1: the code at the failing input.  The descriptor has two extra
    options; both [visitA] and [visitB] are orders in which a run may
    visit its [ExtraOptions] map, and on them [extraOptions] returns
    different strings: two calls of [generateStartScript] on the same
    guest, host and overrides can return two different scripts. *)
Theorem generateStartScript_depends_on_map_order :
  range_order (desc.ExtraOptions (Desc extraGuest)) visitA /\
  range_order (desc.ExtraOptions (Desc extraGuest)) visitB /\
  extraOptions refCollab visitA = "  -no-hpet " ++ q "on" ++ " -rtc " ++ q "base=utc" /\
  extraOptions refCollab visitB = "  -rtc " ++ q "base=utc" ++ " -no-hpet " ++ q "on" /\
  extraOptions refCollab visitA <> extraOptions refCollab visitB /\
  exists scriptA scriptB,
    generateStartScript_returns refCollab extraGuest refData (extraGuest, Ok scriptA) /\
    generateStartScript_returns refCollab extraGuest refData (extraGuest, Ok scriptB) /\
    scriptA <> scriptB.
Proof.
  split; [exact range_order_visitA|]. split; [exact range_order_visitB|].
  split; [vm_compute; reflexivity|]. split; [vm_compute; reflexivity|].
  split; [vm_compute; discriminate|].
  eexists. eexists. split; [|split].
  - exists visitA. split; [exact range_order_visitA|]. vm_compute; reflexivity.
  - exists visitB. split; [exact range_order_visitB|]. vm_compute; reflexivity.
  - vm_compute. discriminate.
Qed.

(** ** 64-bit arithmetic *)

Lemma two64_pos : (0 < two64)%Z.
Proof. reflexivity. Qed.

Lemma to_int64_range (z : Z) : in_int64 (to_int64 z).
Proof.
  unfold in_int64, to_int64.
  pose proof (Z.mod_pos_bound (z + two63) two64 two64_pos) as H.
  change two64 with (2 * two63)%Z in *. lia.
Qed.

Lemma to_int64_id (z : Z) : in_int64 z -> to_int64 z = z.
Proof.
  unfold in_int64, to_int64. intros H.
  rewrite Z.mod_small; [lia|]. change two64 with (2 * two63)%Z. lia.
Qed.

Lemma to_int64_mod (z : Z) : (to_int64 z mod two64 = z mod two64)%Z.
Proof.
  unfold to_int64. rewrite Zminus_mod_idemp_l. f_equal. lia.
Qed.

Lemma to_int64_congr (a b : Z) :
  (a mod two64 = b mod two64)%Z -> to_int64 a = to_int64 b.
Proof.
  intros H. unfold to_int64.
  rewrite (Zplus_mod a), (Zplus_mod b), H. reflexivity.
Qed.

Lemma int64_mod_inj (a b : Z) :
  in_int64 a -> in_int64 b -> (a mod two64 = b mod two64)%Z -> a = b.
Proof.
  intros Ha Hb H. rewrite <- (to_int64_id a Ha), <- (to_int64_id b Hb).
  now apply to_int64_congr.
Qed.

Lemma mod_congr_add (a a' b c : Z) :
  (a mod two64 = a' mod two64)%Z -> (a' + b = c)%Z ->
  ((a + b) mod two64 = c mod two64)%Z.
Proof. intros H <-. now rewrite Zplus_mod, H, <- Zplus_mod. Qed.

Lemma fold_add64_mod (l : list Z) (a : Z) :
  (fold_left add64 l a mod two64 = (a + Zsum l) mod two64)%Z.
Proof.
  revert a. induction l as [|x l IH]; intros a; cbn [fold_left Zsum].
  - f_equal. lia.
  - rewrite IH. unfold add64.
    apply mod_congr_add with (a' := (a + x)%Z); [apply to_int64_mod|lia].
Qed.

Lemma sum64_mod (l : list Z) : (sum64 l mod two64 = Zsum l mod two64)%Z.
Proof. unfold sum64. now rewrite fold_add64_mod. Qed.

(** ** Memory reconciliation *)

Lemma remainingMB_mod (devs : list MemoryDeviceInfo) (mem : Z) :
  (remainingMB mem devs mod two64 = (mem - Zsum (map deviceSizeMB devs)) mod two64)%Z.
Proof.
  unfold remainingMB. revert mem.
  induction devs as [|d devs IH]; intros mem; cbn [fold_left map Zsum].
  - f_equal. lia.
  - rewrite IH. unfold sub64.
    replace (to_int64 (mem - deviceSizeMB d) - Zsum (map deviceSizeMB devs))%Z
      with (to_int64 (mem - deviceSizeMB d) + - Zsum (map deviceSizeMB devs))%Z by lia.
    apply mod_congr_add with (a' := (mem - deviceSizeMB d)%Z); [apply to_int64_mod|lia].
Qed.

(** Without wrap-around the remainder is the difference in [Z]. *)
Lemma remainingMB_exact (devs : list MemoryDeviceInfo) (mem : Z) :
  Forall (fun d => 0 <= deviceSizeMB d)%Z devs ->
  in_int64 mem -> (- two63 <= mem - Zsum (map deviceSizeMB devs))%Z ->
  remainingMB mem devs = (mem - Zsum (map deviceSizeMB devs))%Z.
Proof.
  unfold remainingMB. intros Hpos. revert mem.
  induction Hpos as [|d devs Hd Hpos IH]; intros mem Hm Hlow;
    cbn [fold_left map Zsum] in *; [lia|].
  assert (Hs : (0 <= Zsum (map deviceSizeMB devs))%Z).
  { clear -Hpos. induction Hpos; cbn [map Zsum]; lia. }
  assert (Hsub : sub64 mem (deviceSizeMB d) = (mem - deviceSizeMB d)%Z).
  { unfold sub64. apply to_int64_id. unfold in_int64 in *. lia. }
  rewrite Hsub, IH; [lia| |lia]. unfold in_int64 in *. lia.
Qed.

Lemma memSlotsLoop_Ok (path_Base : string -> string) (objType : string)
    (devs : list MemoryDeviceInfo) (memSize : Z) (memSlots : list desc.SMemSlot) :
  forallb isDimm devs = true ->
  exists slots,
    memSlotsLoop path_Base objType devs memSize memSlots
      = Ok (remainingMB memSize devs, (memSlots ++ slots)%list) /\
    map desc.SlotSizeMB slots = map deviceSizeMB devs.
Proof.
  revert memSize memSlots.
  induction devs as [|d devs IH]; intros memSize memSlots Hall.
  - exists []. now rewrite app_nil_r.
  - cbn [forallb] in Hall. apply andb_true_iff in Hall as [Hd Hall].
    unfold isDimm in Hd. apply andb_true_iff in Hd as [Ht Hid].
    cbn [memSlotsLoop]. destruct (DataID d) as [id|]; [|discriminate]. rewrite Ht.
    destruct (IH (sub64 memSize (deviceSizeMB d))
                 (memSlots ++ [ {| desc.SlotSizeMB := deviceSizeMB d;
                      desc.MemObj := desc.NewObject objType (path_Base (DataMemdev d));
                      desc.MemDev := {| desc.DevType := "pc-dimm"; desc.DevId := id |} |} ])%list
                 Hall) as (slots & -> & Hsz).
    eexists. rewrite <- app_assoc. split; [reflexivity|].
    cbn [map app desc.SlotSizeMB]. now rewrite Hsz.
Qed.

Lemma memSlotsLoop_Err (path_Base : string -> string) (objType : string)
    (devs : list MemoryDeviceInfo) (memSize : Z) (memSlots : list desc.SMemSlot) :
  forallb isDimm devs = false ->
  exists d, In d devs /\ isDimm d = false /\
    memSlotsLoop path_Base objType devs memSize memSlots
      = Err ("unsupported memory device type " ++ Type_ d).
Proof.
  revert memSize memSlots.
  induction devs as [|d devs IH]; intros memSize memSlots Hall; [discriminate|].
  cbn [forallb] in Hall. cbn [memSlotsLoop].
  destruct (isDimm d) eqn:Hd.
  - cbn [andb] in Hall. unfold isDimm in Hd. apply andb_true_iff in Hd as [Ht Hid].
    destruct (DataID d) as [id|]; [|discriminate]. rewrite Ht.
    destruct (IH (sub64 memSize (deviceSizeMB d))
                 (memSlots ++ [ {| desc.SlotSizeMB := deviceSizeMB d;
                      desc.MemObj := desc.NewObject objType (path_Base (DataMemdev d));
                      desc.MemDev := {| desc.DevType := "pc-dimm"; desc.DevId := id |} |} ])%list
                 Hall) as (d' & Hin & Hd' & ->).
    exists d'. split; [now right|]. now split.
  - exists d. split; [now left|]. split; [exact Hd|].
    unfold isDimm in Hd.
    destruct (DataID d) as [id|]; [|reflexivity].
    destruct (String.eqb (Type_ d) "dimm"); [discriminate|reflexivity].
Qed.

(** C5.  When every reported device is a dimm with an id and the
    configured memory less the dimm sizes is positive, the call installs a
    memory descriptor whose slot sizes are the dimm sizes and whose base
    size is that remainder: the slot sizes plus the base size sum to
    [Desc.Mem] (as Go adds [int64]s; and in [Z] when the sizes are not
    negative and do not wrap around).  In every other case (a device that
    is not a dimm or has no id, or dimm sizes that leave no positive base
    size) the call returns an error and the instance is as it was: no
    memory descriptor is installed. *)
Theorem initMemDescFromMemoryInfo_reconciles (path_Base : string -> string)
    (archMan : ArchMan) (s : SKVMGuestInstance) (devs : list MemoryDeviceInfo) :
  in_int64 (desc.MemMB (Desc s)) ->
  let mem := desc.MemMB (Desc s) in
  let r := initMemDescFromMemoryInfo path_Base archMan s devs in
  (forallb isDimm devs = true -> (0 < remainingMB mem devs)%Z ->
     exists md,
       snd r = Ok tt /\
       desc.MemDesc (Desc (fst r)) = Some md /\
       slotSizes md = map deviceSizeMB devs /\
       desc.SizeMB md = remainingMB mem devs /\
       (0 < desc.SizeMB md)%Z /\
       add64 (sum64 (slotSizes md)) (desc.SizeMB md) = mem /\
       (Forall (fun d => 0 <= deviceSizeMB d)%Z devs ->
        (Zsum (map deviceSizeMB devs) <= mem + two63)%Z ->
        (Zsum (slotSizes md) + desc.SizeMB md = mem)%Z)) /\
  (forallb isDimm devs = false \/ (remainingMB mem devs <= 0)%Z ->
     exists msg, r = (s, Err msg)).
Proof.
  intros Hmem mem r. subst r. unfold initMemDescFromMemoryInfo. split.
  - intros Hall Hpos.
    destruct (memSlotsLoop_Ok path_Base (memObjType s) devs mem [] Hall)
      as (slots & Hloop & Hsz).
    fold mem. rewrite Hloop. cbn [app].
    destruct (Z.leb_spec (remainingMB mem devs) 0) as [Hle|_]; [lia|].
    eexists. split; [reflexivity|]. split; [reflexivity|].
    unfold slotSizes. cbn [desc.MemSlots desc.SizeMB].
    split; [exact Hsz|]. split; [reflexivity|]. split; [exact Hpos|]. split.
    + rewrite Hsz. apply int64_mod_inj; [apply to_int64_range|exact Hmem|].
      unfold add64. rewrite to_int64_mod.
      transitivity ((Zsum (map deviceSizeMB devs) + remainingMB mem devs) mod two64)%Z.
      * now apply mod_congr_add with (a' := Zsum (map deviceSizeMB devs)); [apply sum64_mod|].
      * rewrite Z.add_comm.
        apply mod_congr_add with (a' := (mem - Zsum (map deviceSizeMB devs))%Z);
          [apply remainingMB_mod|lia].
    + intros Hnn Hsum. rewrite Hsz.
      rewrite (remainingMB_exact devs mem Hnn Hmem); lia.
  - intros [Hbad|Hle].
    + destruct (memSlotsLoop_Err path_Base (memObjType s) devs mem [] Hbad)
        as (d & _ & _ & Hloop).
      fold mem. rewrite Hloop. eauto.
    + destruct (forallb isDimm devs) eqn:Hall.
      * destruct (memSlotsLoop_Ok path_Base (memObjType s) devs mem [] Hall)
          as (slots & Hloop & _).
        fold mem. rewrite Hloop.
        destruct (Z.leb_spec (remainingMB mem devs) 0) as [_|Hlt]; [eauto|lia].
      * destruct (memSlotsLoop_Err path_Base (memObjType s) devs mem [] Hall)
          as (d & _ & _ & Hloop).
        fold mem. rewrite Hloop. eauto.
Qed.

Lemma initMemDescFromMemoryInfo_reconciles_witness :
  (exists md,
     snd (initMemDescFromMemoryInfo id refArchMan oneNicGuest [dimm "mem1" GiB]) = Ok tt /\
     desc.MemDesc (Desc (fst (initMemDescFromMemoryInfo id refArchMan oneNicGuest
                                [dimm "mem1" GiB]))) = Some md /\
     slotSizes md = [1024%Z] /\ desc.SizeMB md = 3072%Z) /\
  (exists msg,
     initMemDescFromMemoryInfo id refArchMan oneNicGuest
       [dimm "mem1" GiB; dimm "mem2" GiB; dimm "mem3" GiB; dimm "mem4" GiB]
     = (oneNicGuest, Err msg)).
Proof.
  assert (Hmem : in_int64 (desc.MemMB (Desc oneNicGuest))) by (vm_compute; split; [discriminate|reflexivity]).
  split.
  - destruct (proj1 (initMemDescFromMemoryInfo_reconciles id refArchMan oneNicGuest
                       [dimm "mem1" GiB] Hmem) eq_refl eq_refl)
      as (md & Hok & Hmd & Hslots & Hbase & _).
    exists md. split; [exact Hok|]. split; [exact Hmd|]. split; [exact Hslots|exact Hbase].
  - apply (proj2 (initMemDescFromMemoryInfo_reconciles id refArchMan oneNicGuest
                    [dimm "mem1" GiB; dimm "mem2" GiB; dimm "mem3" GiB; dimm "mem4" GiB] Hmem)).
    right. vm_compute. discriminate.
Defined.

(** Two dimms of 1 GiB against a descriptor of 4096 MB leave a base
    object of 2048 MB: the descriptor is installed. *)
Example initMemDescFromMemoryInfo_2048_of_4096 :
  exists md,
    snd (initMemDescFromMemoryInfo id refArchMan oneNicGuest
           [dimm "mem1" GiB; dimm "mem2" GiB]) = Ok tt /\
    desc.MemDesc (Desc (fst (initMemDescFromMemoryInfo id refArchMan oneNicGuest
                               [dimm "mem1" GiB; dimm "mem2" GiB]))) = Some md /\
    slotSizes md = [1024%Z; 1024%Z] /\ desc.SizeMB md = 2048%Z.
Proof. eexists. repeat split; vm_compute; reflexivity. Qed.

(** ** Cmdline unification: the dynamic options *)

Lemma FilterOption_filterCallback (cl : qemutils.Cmdline) (filterOpts : list qemutils.Option) :
  qemutils.FilterOption filterCallback filterOpts cl
  = ((filterOpts ++ dynamicOptions cl)%list, staticOptions cl).
Proof.
  revert filterOpts. induction cl as [|o cl IH]; intros filterOpts.
  - cbn. now rewrite app_nil_r.
  - cbn [qemutils.FilterOption dynamicOptions staticOptions List.filter].
    unfold filterCallback at 1. destruct (isDynamicOption o); cbn [negb].
    + rewrite IH. unfold dynamicOptions, staticOptions. now rewrite <- app_assoc.
    + rewrite IH. reflexivity.
Qed.

Lemma dynamicOptions_staticOptions (cl : qemutils.Cmdline) :
  dynamicOptions (staticOptions cl) = [].
Proof.
  unfold dynamicOptions, staticOptions.
  induction cl as [|o cl IH]; [reflexivity|].
  cbn [List.filter]. destruct (isDynamicOption o) eqn:Ho; cbn [negb List.filter]; [exact IH|].
  now rewrite Ho.
Qed.

Lemma dynamicOptions_idem (cl : qemutils.Cmdline) :
  dynamicOptions (dynamicOptions cl) = dynamicOptions cl.
Proof.
  unfold dynamicOptions.
  induction cl as [|o cl IH]; [reflexivity|].
  cbn [List.filter]. destruct (isDynamicOption o) eqn:Ho; [|exact IH].
  cbn [List.filter]. rewrite Ho. now f_equal.
Qed.

Lemma staticOptions_idem (cl : qemutils.Cmdline) :
  staticOptions (staticOptions cl) = staticOptions cl.
Proof.
  unfold staticOptions.
  induction cl as [|o cl IH]; [reflexivity|].
  cbn [List.filter]. destruct (isDynamicOption o) eqn:Ho; cbn [negb]; [exact IH|].
  cbn [List.filter]. rewrite Ho. cbn [negb]. now f_equal.
Qed.

Section UnifyFacts.
Variable fmt_q : string -> string.
Variable NewCmdline : string -> outcome qemutils.Cmdline.
Variable ToString : qemutils.Cmdline -> string.
Variable DiffMain : string -> string -> list diffmatchpatch.Diff.
Variable PatchMake : string -> list diffmatchpatch.Diff -> list diffmatchpatch.Diff.
Variable PatchApply : list diffmatchpatch.Diff -> string -> string * bool.

Lemma parseCmdline_Ok (input : string) (cl : qemutils.Cmdline)
    (filterOpts : list qemutils.Option) :
  parseCmdline fmt_q NewCmdline input = Ok (cl, filterOpts) <->
  exists cl0, NewCmdline input = Ok cl0 /\
              cl = staticOptions cl0 /\ filterOpts = dynamicOptions cl0.
Proof.
  unfold parseCmdline. destruct (NewCmdline input) as [cl0| |].
  - rewrite FilterOption_filterCallback. cbn [app]. split.
    + intros [= <- <-]. eauto.
    + intros (cl1 & [= <-] & -> & ->). reflexivity.
  - split; [discriminate|]. now intros (cl1 & [=] & _).
  - split; [discriminate|]. now intros (cl1 & [=] & _).
Qed.

(** What a successful unification is made of. *)
Lemma unifyCmdline_Ok (cur src : string) (unifyCl : qemutils.Cmdline) :
  unifyCmdline fmt_q NewCmdline ToString DiffMain PatchMake PatchApply cur src = Ok unifyCl <->
  exists curCl srcCl patchedCl,
    NewCmdline cur = Ok curCl /\
    NewCmdline src = Ok srcCl /\
    NewCmdline (_unifyMigrateQemuCmdline DiffMain PatchMake PatchApply
                  (ToString (staticOptions curCl)) (ToString (staticOptions srcCl)))
      = Ok patchedCl /\
    unifyCl = (staticOptions patchedCl ++ dynamicOptions curCl)%list.
Proof.
  unfold unifyCmdline. split.
  - intros H.
    apply obind_Ok in H as ([curCl0 curF] & Hc%Wrap_Ok & H).
    apply obind_Ok in H as ([srcCl0 srcF] & Hs%Wrap_Ok & H).
    apply obind_Ok in H as ([uCl uF] & Hu%Wrap_Ok & H).
    injection H as <-.
    apply parseCmdline_Ok in Hc as (curCl & Hc & -> & ->).
    apply parseCmdline_Ok in Hs as (srcCl & Hs & -> & ->).
    apply parseCmdline_Ok in Hu as (pCl & Hu & -> & ->).
    exists curCl, srcCl, pCl. repeat split; assumption.
  - intros (curCl & srcCl & pCl & Hc & Hs & Hu & ->).
    assert (Hc' : parseCmdline fmt_q NewCmdline cur = Ok (staticOptions curCl, dynamicOptions curCl))
      by (apply parseCmdline_Ok; eauto).
    assert (Hs' : parseCmdline fmt_q NewCmdline src = Ok (staticOptions srcCl, dynamicOptions srcCl))
      by (apply parseCmdline_Ok; eauto).
    rewrite Hc'. cbn [Wrap obind]. rewrite Hs'. cbn [Wrap obind].
    assert (Hu' : parseCmdline fmt_q NewCmdline
                    (_unifyMigrateQemuCmdline DiffMain PatchMake PatchApply
                       (ToString (staticOptions curCl)) (ToString (staticOptions srcCl)))
                  = Ok (staticOptions pCl, dynamicOptions pCl))
      by (apply parseCmdline_Ok; eauto).
    rewrite Hu'. reflexivity.
Qed.
End UnifyFacts.

(** The callback of [parseCmdline] answers [true] exactly on the options
    of the whitelist. *)
Lemma isDynamicOption_whitelisted (o : qemutils.Option) :
  isDynamicOption o = whitelistedOption o.
Proof.
  unfold isDynamicOption, whitelistedOption, valsMatch, monitorSockets.
  destruct (String.eqb_spec (qemutils.Key o) "incoming") as [->|_].
  { cbn [String.eqb Ascii.eqb Bool.eqb andb orb]. now rewrite !orb_false_r. }
  destruct (String.eqb_spec (qemutils.Key o) "vnc") as [->|_]; [reflexivity|].
  destruct (String.eqb_spec (qemutils.Key o) "spice") as [->|_]; [reflexivity|].
  destruct (String.eqb_spec (qemutils.Key o) "daemonize") as [->|_]; [reflexivity|].
  cbn [andb orb].
  destruct (String.eqb (qemutils.Key o) "chardev"); reflexivity.
Qed.

Lemma dynamicOptions_whitelisted (cl : qemutils.Cmdline) :
  dynamicOptions cl = List.filter whitelistedOption cl.
Proof. apply List.filter_ext. intros o. apply isDynamicOption_whitelisted. Qed.

Lemma staticOptions_whitelisted (cl : qemutils.Cmdline) :
  staticOptions cl = List.filter (fun o => negb (whitelistedOption o)) cl.
Proof.
  apply List.filter_ext. intros o. now rewrite isDynamicOption_whitelisted.
Qed.

(** C4.  Whatever [%q], the parser, the serializer and the diff library
    do: the callback of [parseCmdline] answers [true] exactly on the
    whitelisted options (an incoming option with a value starting with
    tcp: or defer, vnc, spice, daemonize, and the chardev options of the
    four monitor sockets), and the whitelisted options of the unified
    command line are exactly the whitelisted options of the current
    command line, in their order there, so each carries the current host's
    value.  They are filtered out of both command lines before the diff,
    which is taken between the serializations of the options that are not
    whitelisted, and out of the patched text when it is parsed again; the
    current side's are then appended, and the result is serialized and
    returned. *)
Theorem unify_dynamic_options_from_current
    (fmt_q : string -> string)
    (NewCmdline : string -> outcome qemutils.Cmdline)
    (ToString : qemutils.Cmdline -> string)
    (DiffMain : string -> string -> list diffmatchpatch.Diff)
    (PatchMake : string -> list diffmatchpatch.Diff -> list diffmatchpatch.Diff)
    (PatchApply : list diffmatchpatch.Diff -> string -> string * bool)
    (cur src : string) (unifyCl : qemutils.Cmdline) :
  unifyCmdline fmt_q NewCmdline ToString DiffMain PatchMake PatchApply cur src = Ok unifyCl ->
  let rest := List.filter (fun o => negb (whitelistedOption o)) in
  (forall o, isDynamicOption o = whitelistedOption o) /\
  exists curCl srcCl patchedCl,
    NewCmdline cur = Ok curCl /\
    NewCmdline src = Ok srcCl /\
    NewCmdline (_unifyMigrateQemuCmdline DiffMain PatchMake PatchApply
                  (ToString (rest curCl)) (ToString (rest srcCl)))
      = Ok patchedCl /\
    unifyCl = (rest patchedCl ++ List.filter whitelistedOption curCl)%list /\
    List.filter whitelistedOption unifyCl = List.filter whitelistedOption curCl /\
    (forall o, In o unifyCl -> whitelistedOption o = true -> In o curCl) /\
    (forall o, In o curCl -> whitelistedOption o = true -> In o unifyCl) /\
    unifyMigrateQemuCmdline fmt_q NewCmdline ToString DiffMain PatchMake PatchApply cur src
      = Ok (ToString unifyCl).
Proof.
  intros H. cbn zeta. pose proof H as H0.
  split; [exact isDynamicOption_whitelisted|].
  apply unifyCmdline_Ok in H as (curCl & srcCl & pCl & Hc & Hs & Hu & ->).
  rewrite !staticOptions_whitelisted in Hu.
  rewrite staticOptions_whitelisted, dynamicOptions_whitelisted in H0 |- *.
  exists curCl, srcCl, pCl.
  split; [exact Hc|]. split; [exact Hs|]. split; [exact Hu|].
  split; [reflexivity|].
  assert (Hf : List.filter whitelistedOption
                 (List.filter (fun o => negb (whitelistedOption o)) pCl
                  ++ List.filter whitelistedOption curCl)
               = List.filter whitelistedOption curCl).
  { rewrite List.filter_app.
    rewrite <- (staticOptions_whitelisted pCl), <- !dynamicOptions_whitelisted.
    now rewrite dynamicOptions_staticOptions, dynamicOptions_idem. }
  split; [exact Hf|]. split; [|split].
  - intros o Hin Ho.
    assert (Hin' : In o (List.filter whitelistedOption
                           (List.filter (fun o => negb (whitelistedOption o)) pCl
                            ++ List.filter whitelistedOption curCl)))
      by (apply filter_In; auto).
    rewrite Hf in Hin'. now apply filter_In in Hin' as [Hin' _].
  - intros o Hin Ho. apply in_or_app. right. apply filter_In. auto.
  - unfold unifyMigrateQemuCmdline. rewrite H0. reflexivity.
Qed.

Lemma unify_dynamic_options_from_current_witness :
  exists curCl,
    qemutils.NewCmdline "-name vm1 -vnc :1 -m 4096 -incoming tcp:0:4396" = Ok curCl /\
    List.filter whitelistedOption
      [ {| qemutils.Key := "name"; qemutils.Value := "vm1" |};
        {| qemutils.Key := "m"; qemutils.Value := "4096" |};
        {| qemutils.Key := "cpu"; qemutils.Value := "host" |};
        {| qemutils.Key := "vnc"; qemutils.Value := ":1" |};
        {| qemutils.Key := "incoming"; qemutils.Value := "tcp:0:4396" |} ]
    = List.filter whitelistedOption curCl /\
    List.filter whitelistedOption curCl =
      [ {| qemutils.Key := "vnc"; qemutils.Value := ":1" |};
        {| qemutils.Key := "incoming"; qemutils.Value := "tcp:0:4396" |} ] /\
    unify "-name vm1 -vnc :1 -m 4096 -incoming tcp:0:4396"
          "-name vm1 -vnc :7 -m 4096 -cpu host -incoming tcp:0:9999"
    = Ok "-name vm1 -m 4096 -cpu host -vnc :1 -incoming tcp:0:4396".
Proof.
  destruct (unify_dynamic_options_from_current strconv_Quote
              qemutils.NewCmdline qemutils.ToString
              diffmatchpatch.DiffMain diffmatchpatch.PatchMake diffmatchpatch.PatchApply
              "-name vm1 -vnc :1 -m 4096 -incoming tcp:0:4396"
              "-name vm1 -vnc :7 -m 4096 -cpu host -incoming tcp:0:9999"
              [ {| qemutils.Key := "name"; qemutils.Value := "vm1" |};
                {| qemutils.Key := "m"; qemutils.Value := "4096" |};
                {| qemutils.Key := "cpu"; qemutils.Value := "host" |};
                {| qemutils.Key := "vnc"; qemutils.Value := ":1" |};
                {| qemutils.Key := "incoming"; qemutils.Value := "tcp:0:4396" |} ])
    as (_ & curCl & srcCl & patchedCl & Hc & _ & _ & _ & Hd & _ & _ & Hu).
  - vm_compute; reflexivity.
  - exists curCl. split; [exact Hc|]. split; [exact Hd|]. split.
    + vm_compute in Hc. injection Hc as <-. vm_compute; reflexivity.
    + unfold unify. rewrite Hu. vm_compute; reflexivity.
Defined.

(** ** The diff library as modelled: a patch applied to the text it was
    made from gives the other text *)

Lemma substring_all (s : string) : String.substring 0 (String.length s) s = s.
Proof. induction s as [|c s IH]; [reflexivity|]. cbn. now rewrite IH. Qed.

Lemma substring_append (t r : string) :
  String.substring (String.length t) (String.length r) (t ++ r) = r.
Proof.
  induction t as [|c t IH]; [apply substring_all|].
  rewrite append_cons. cbn [String.length String.substring]. exact IH.
Qed.

Lemma dropPrefix_append (t r : string) : diffmatchpatch.dropPrefix t (t ++ r) = Some r.
Proof.
  unfold diffmatchpatch.dropPrefix. rewrite prefix_append, length_append.
  replace (String.length t + String.length r - String.length t)%nat
    with (String.length r) by lia.
  now rewrite substring_append.
Qed.

Lemma commonPrefix_spec (a b p ra rb : string) :
  diffmatchpatch.commonPrefix a b = (p, ra, rb) -> a = p ++ ra /\ b = p ++ rb.
Proof.
  revert b p ra rb. induction a as [|x a IH]; intros b p ra rb H.
  - cbn in H. injection H as <- <- <-. now split.
  - destruct b as [|y b]; cbn [diffmatchpatch.commonPrefix] in H.
    + injection H as <- <- <-. now split.
    + destruct (Ascii.eqb x y) eqn:Hxy.
      * apply Ascii.eqb_eq in Hxy as <-.
        destruct (diffmatchpatch.commonPrefix a b) as [[p' ra'] rb'] eqn:Hc.
        injection H as <- <- <-.
        destruct (IH b p' ra' rb' Hc) as [-> ->].
        now rewrite !append_cons.
      * injection H as <- <- <-. now split.
Qed.

Lemma PatchApply_PatchMake (text1 text2 : string) :
  diffmatchpatch.PatchApply
    (diffmatchpatch.PatchMake text1 (diffmatchpatch.DiffMain text1 text2)) text1
  = (text2, true).
Proof.
  unfold diffmatchpatch.PatchApply, diffmatchpatch.PatchMake, diffmatchpatch.DiffMain.
  destruct (diffmatchpatch.commonPrefix text1 text2) as [[p r1] r2] eqn:Hc.
  apply commonPrefix_spec in Hc as [-> ->].
  cbn [diffmatchpatch.applyDiffs diffmatchpatch.Type_ diffmatchpatch.Text].
  rewrite dropPrefix_append. cbn [mbind option_bind].
  rewrite <- (append_nil_r r1) at 2. rewrite dropPrefix_append.
  cbn. now rewrite append_nil_r.
Qed.

Lemma _unifyMigrateQemuCmdline_src (cur src : string) :
  _unifyMigrateQemuCmdline diffmatchpatch.DiffMain diffmatchpatch.PatchMake
    diffmatchpatch.PatchApply cur src = src.
Proof. unfold _unifyMigrateQemuCmdline. now rewrite PatchApply_PatchMake. Qed.

(** ** The command-line parser as modelled: parsing what [ToString]
    writes gives the options back *)

Lemma noSpace_append (s t : string) : noSpace (s ++ t) = noSpace s && noSpace t.
Proof.
  induction s as [|c s IH]; [reflexivity|].
  rewrite append_cons. cbn [noSpace]. now rewrite IH, andb_assoc.
Qed.

Lemma eqb_empty_false (w : string) : w <> EmptyString -> String.eqb w EmptyString = false.
Proof. intros H. now apply String.eqb_neq. Qed.

Lemma fields_word (w s cur : string) :
  noSpace w = true -> qemutils.fields (w ++ s) cur = qemutils.fields s (cur ++ w).
Proof.
  revert cur. induction w as [|c w IH]; intros cur H.
  - now rewrite append_nil_l, append_nil_r.
  - cbn [noSpace] in H. apply andb_true_iff in H as [Hc Hw].
    apply negb_true_iff in Hc.
    rewrite append_cons. cbn [qemutils.fields]. rewrite Hc, (IH _ Hw).
    now rewrite append_assoc.
Qed.

Lemma fields_space (s cur : string) :
  qemutils.fields (" " ++ s) cur =
  if String.eqb cur EmptyString then qemutils.fields s EmptyString
  else cur :: qemutils.fields s EmptyString.
Proof. reflexivity. Qed.

Lemma Join_cons2 (x y : string) (r : list string) (sep : string) :
  qemutils.Join (x :: y :: r) sep = x ++ sep ++ qemutils.Join (y :: r) sep.
Proof. reflexivity. Qed.

Lemma Join_single (x sep : string) : qemutils.Join [x] sep = x.
Proof. reflexivity. Qed.

Lemma fields_Join_app (ws : list string) (T : string) :
  Forall wfWord ws -> ws <> [] ->
  qemutils.fields (qemutils.Join ws " " ++ " " ++ T) EmptyString
  = (ws ++ qemutils.fields T EmptyString)%list.
Proof.
  induction ws as [|w ws IH]; [contradiction|]. intros Hwf _.
  apply Forall_cons_iff in Hwf as [[Hne Hns] Hwf].
  destruct ws as [|w2 r].
  - cbn [qemutils.Join].
    rewrite (fields_word _ _ _ Hns), append_nil_l, fields_space, (eqb_empty_false _ Hne).
    reflexivity.
  - rewrite Join_cons2, !append_assoc.
    rewrite (fields_word _ _ _ Hns), append_nil_l, fields_space, (eqb_empty_false _ Hne).
    cbn [app]. f_equal. now apply IH.
Qed.

Lemma fields_Join (ws : list string) :
  Forall wfWord ws -> qemutils.fields (qemutils.Join ws " ") EmptyString = ws.
Proof.
  induction ws as [|w ws IH]; [reflexivity|]. intros Hwf.
  apply Forall_cons_iff in Hwf as [[Hne Hns] Hwf].
  destruct ws as [|w2 r].
  - cbn [qemutils.Join]. rewrite <- (append_nil_r w) at 1.
    rewrite (fields_word _ _ _ Hns), append_nil_l. cbn [qemutils.fields].
    now rewrite (eqb_empty_false _ Hne).
  - rewrite Join_cons2.
    rewrite (fields_word _ _ _ Hns), append_nil_l, fields_space, (eqb_empty_false _ Hne).
    f_equal. now apply IH.
Qed.

Lemma fields_wf (s cur : string) :
  noSpace cur = true -> Forall wfWord (qemutils.fields s cur).
Proof.
  revert cur. induction s as [|c s IH]; intros cur Hcur; cbn [qemutils.fields].
  - destruct (String.eqb_spec cur EmptyString); [constructor|].
    constructor; [now split|constructor].
  - destruct (Ascii.eqb c " ") eqn:Hc.
    + destruct (String.eqb_spec cur EmptyString); [now apply IH|].
      constructor; [now split|now apply IH].
    + apply IH. rewrite noSpace_append, Hcur. cbn [noSpace]. now rewrite Hc.
Qed.

Lemma Join_nonempty (v : string) (r : list string) (sep : string) :
  v <> EmptyString -> qemutils.Join (v :: r) sep <> EmptyString.
Proof.
  intros Hv. destruct v as [|c v]; [contradiction|].
  destruct r; [discriminate|]. rewrite Join_cons2, append_cons. discriminate.
Qed.

Lemma Join_snoc (vs : list string) (w : string) :
  Forall wfValue vs ->
  (if String.eqb (qemutils.Join vs " ") EmptyString then w
   else qemutils.Join vs " " ++ " " ++ w)
  = qemutils.Join (vs ++ [w]) " ".
Proof.
  induction vs as [|v vs IH]; [reflexivity|]. intros Hwf.
  apply Forall_cons_iff in Hwf as [[[Hne _] _] Hwf].
  rewrite (eqb_empty_false _ (Join_nonempty v vs " " Hne)).
  destruct vs as [|v2 r]; [reflexivity|].
  cbn [app]. rewrite !Join_cons2, !append_assoc. do 2 f_equal.
  specialize (IH Hwf). apply Forall_cons_iff in Hwf as [[[Hne2 _] _] _].
  rewrite (eqb_empty_false _ (Join_nonempty v2 r " " Hne2)) in IH.
  exact IH.
Qed.

Lemma dashKey_dash (key : string) : qemutils.dashKey ("-" ++ key) = Some key.
Proof. reflexivity. Qed.

Lemma dashKey_Some (w key : string) :
  qemutils.dashKey w = Some key -> w = "-" ++ key.
Proof.
  destruct w as [|c w]; [discriminate|]. cbn [qemutils.dashKey].
  destruct (Ascii.eqb c "-") eqn:Hc; [|discriminate].
  apply Ascii.eqb_eq in Hc as ->. now intros [= ->].
Qed.

Lemma Option_ToString_Join (key : string) (vs : list string) :
  Forall wfValue vs ->
  qemutils.Option_ToString {| qemutils.Key := key; qemutils.Value := qemutils.Join vs " " |}
  = qemutils.Join (("-" ++ key) :: vs) " ".
Proof.
  intros Hwf. unfold qemutils.Option_ToString. cbn [qemutils.Key qemutils.Value].
  destruct vs as [|v r]; [reflexivity|].
  apply Forall_cons_iff in Hwf as [[[Hne _] _] _].
  rewrite (eqb_empty_false _ (Join_nonempty v r " " Hne)), Join_cons2.
  now rewrite append_assoc.
Qed.

(** The words of the value of an open option extend its value. *)
Lemma parseWords_value (key : string) (vs vs0 rest : list string)
    (acc : list qemutils.Option) :
  Forall wfValue vs -> Forall wfValue vs0 ->
  qemutils.parseWords (vs ++ rest)
    ({| qemutils.Key := key; qemutils.Value := qemutils.Join vs0 " " |} :: acc)
  = qemutils.parseWords rest
      ({| qemutils.Key := key; qemutils.Value := qemutils.Join (vs0 ++ vs) " " |} :: acc).
Proof.
  revert vs0. induction vs as [|v vs IH]; intros vs0 Hvs Hvs0.
  - now rewrite app_nil_r.
  - apply Forall_cons_iff in Hvs as [Hv Hvs].
    cbn [app qemutils.parseWords]. rewrite (proj2 Hv).
    cbn [qemutils.Key qemutils.Value]. rewrite (Join_snoc vs0 v Hvs0).
    rewrite (IH (vs0 ++ [v])%list Hvs).
    + now rewrite <- app_assoc.
    + apply Forall_app. split; [exact Hvs0|]. now constructor.
Qed.

Lemma parseWords_option (key : string) (vs rest : list string)
    (acc : list qemutils.Option) :
  Forall wfValue vs ->
  qemutils.parseWords ((("-" ++ key) :: vs) ++ rest) acc
  = qemutils.parseWords rest
      ({| qemutils.Key := key; qemutils.Value := qemutils.Join vs " " |} :: acc).
Proof.
  intros Hvs. cbn [app qemutils.parseWords]. rewrite dashKey_dash.
  change EmptyString with (qemutils.Join [] " ") at 1.
  now rewrite (parseWords_value key vs [] rest acc Hvs (List.Forall_nil _)).
Qed.

Lemma wfWord_dash (key : string) : noSpace key = true -> wfWord ("-" ++ key).
Proof. intros H. split; [discriminate|]. exact H. Qed.

Lemma parseWords_ToString (cl : qemutils.Cmdline) (acc : list qemutils.Option) :
  Forall wfOption cl ->
  qemutils.parseWords (qemutils.fields (qemutils.ToString cl) EmptyString) acc
  = Ok (rev acc ++ cl)%list.
Proof.
  revert acc. induction cl as [|o cl IH]; intros acc Hwf.
  - cbn. now rewrite app_nil_r.
  - apply Forall_cons_iff in Hwf as [[Hkey (vs & Hval & Hvs)] Hwf].
    destruct o as [key value]. cbn [qemutils.Key qemutils.Value] in Hkey, Hval. subst value.
    assert (Hws : Forall wfWord (("-" ++ key) :: vs)).
    { constructor; [now apply wfWord_dash|].
      eapply List.Forall_impl; [|exact Hvs]. now intros w [Hw _]. }
    unfold qemutils.ToString. cbn [map]. rewrite (Option_ToString_Join key vs Hvs).
    destruct cl as [|o2 cl'].
    + cbn [map]. rewrite Join_single, (fields_Join _ Hws).
      rewrite <- (app_nil_r (_ :: vs)), (parseWords_option key vs [] acc Hvs).
      cbn [qemutils.parseWords rev]. reflexivity.
    + cbn [map]. rewrite Join_cons2.
      rewrite (fields_Join_app _ _ Hws) by discriminate.
      rewrite (parseWords_option key vs _ acc Hvs).
      specialize (IH ({| qemutils.Key := key; qemutils.Value := qemutils.Join vs " " |} :: acc) Hwf).
      unfold qemutils.ToString in IH. cbn [map] in IH. rewrite IH.
      cbn [rev]. now rewrite <- app_assoc.
Qed.

(** Parsing the serialization of well-formed options gives them back. *)
Lemma NewCmdline_ToString (cl : qemutils.Cmdline) :
  Forall wfOption cl -> qemutils.NewCmdline (qemutils.ToString cl) = Ok cl.
Proof. intros Hwf. unfold qemutils.NewCmdline. now rewrite parseWords_ToString. Qed.

Lemma parseWords_wf (ws : list string) (acc : list qemutils.Option) (cl : qemutils.Cmdline) :
  Forall wfWord ws -> Forall wfOption acc ->
  qemutils.parseWords ws acc = Ok cl -> Forall wfOption cl.
Proof.
  revert acc. induction ws as [|w ws IH]; intros acc Hws Hacc H.
  - cbn in H. injection H as <-. now apply Forall_rev.
  - apply Forall_cons_iff in Hws as [[Hne Hns] Hws]. cbn [qemutils.parseWords] in H.
    destruct (qemutils.dashKey w) as [key|] eqn:Hk.
    + apply (IH _ Hws) in H; [exact H|]. constructor; [|exact Hacc].
      apply dashKey_Some in Hk as ->. split; [exact Hns|].
      exists []. now split.
    + destruct acc as [|o acc']; [discriminate|].
      apply Forall_cons_iff in Hacc as [[Hkey (vs & Hval & Hvs)] Hacc].
      apply (IH _ Hws) in H; [exact H|]. constructor; [|exact Hacc].
      split; [exact Hkey|]. exists (vs ++ [w])%list.
      cbn [qemutils.Value]. rewrite Hval. split; [now apply Join_snoc|].
      apply Forall_app. split; [exact Hvs|]. now repeat constructor.
Qed.

(** The parser produces well-formed options only. *)
Lemma NewCmdline_wf (input : string) (cl : qemutils.Cmdline) :
  qemutils.NewCmdline input = Ok cl -> Forall wfOption cl.
Proof.
  unfold qemutils.NewCmdline. apply parseWords_wf; [|constructor].
  now apply fields_wf.
Qed.

Lemma staticOptions_wf (cl : qemutils.Cmdline) :
  Forall wfOption cl -> Forall wfOption (staticOptions cl).
Proof.
  intros H. apply List.Forall_forall. intros o Hin.
  apply filter_In in Hin as [Hin _]. revert o Hin. now apply List.Forall_forall.
Qed.

Lemma dynamicOptions_wf (cl : qemutils.Cmdline) :
  Forall wfOption cl -> Forall wfOption (dynamicOptions cl).
Proof.
  intros H. apply List.Forall_forall. intros o Hin.
  apply filter_In in Hin as [Hin _]. revert o Hin. now apply List.Forall_forall.
Qed.

(** ** Cmdline unification is idempotent *)

(** With the parser and the diff as modelled, the unified command line is
    the source's static options followed by the current dynamic ones. *)
Lemma unifyCmdline_model (cur src : string) (curCl srcCl : qemutils.Cmdline) :
  qemutils.NewCmdline cur = Ok curCl ->
  qemutils.NewCmdline src = Ok srcCl ->
  unifyCmdline strconv_Quote qemutils.NewCmdline qemutils.ToString
    diffmatchpatch.DiffMain diffmatchpatch.PatchMake diffmatchpatch.PatchApply cur src
  = Ok (staticOptions srcCl ++ dynamicOptions curCl)%list.
Proof.
  intros Hc Hs. apply unifyCmdline_Ok.
  exists curCl, srcCl, (staticOptions srcCl).
  split; [exact Hc|]. split; [exact Hs|]. split.
  - rewrite _unifyMigrateQemuCmdline_src.
    apply NewCmdline_ToString, staticOptions_wf, (NewCmdline_wf src), Hs.
  - now rewrite staticOptions_idem.
Qed.

(** C3.  For all command lines [a] and [b] that parse, unifying succeeds
    and unifying its result with [b] again returns the same text:
    unify(unify(a, b), b) = unify(a, b). *)
Theorem unify_idempotent (a b : string) (clA clB : qemutils.Cmdline) :
  qemutils.NewCmdline a = Ok clA ->
  qemutils.NewCmdline b = Ok clB ->
  exists u, unify a b = Ok u /\ unify u b = Ok u.
Proof.
  intros Ha Hb.
  pose proof (NewCmdline_wf a clA Ha) as Hwa.
  pose proof (NewCmdline_wf b clB Hb) as Hwb.
  set (unifyCl := (staticOptions clB ++ dynamicOptions clA)%list).
  assert (Hwu : Forall wfOption unifyCl).
  { apply Forall_app. split; [now apply staticOptions_wf|now apply dynamicOptions_wf]. }
  exists (qemutils.ToString unifyCl). unfold unify, unifyMigrateQemuCmdline. split.
  - now rewrite (unifyCmdline_model a b clA clB Ha Hb).
  - rewrite (unifyCmdline_model _ b unifyCl clB (NewCmdline_ToString unifyCl Hwu) Hb).
    cbn [obind]. do 2 f_equal. unfold unifyCl, dynamicOptions.
    rewrite List.filter_app.
    fold (dynamicOptions (staticOptions clB)). fold (dynamicOptions (dynamicOptions clA)).
    now rewrite dynamicOptions_staticOptions, dynamicOptions_idem.
Qed.

Lemma unify_idempotent_witness :
  exists u,
    unify "-name vm1 -vnc :1 -m 4096 -incoming tcp:0:4396"
          "-name vm1 -vnc :7 -m 4096 -cpu host -incoming tcp:0:9999" = Ok u /\
    unify u "-name vm1 -vnc :7 -m 4096 -cpu host -incoming tcp:0:9999" = Ok u.
Proof.
  apply (unify_idempotent
           "-name vm1 -vnc :1 -m 4096 -incoming tcp:0:4396"
           "-name vm1 -vnc :7 -m 4096 -cpu host -incoming tcp:0:9999"
           [ {| qemutils.Key := "name"; qemutils.Value := "vm1" |};
             {| qemutils.Key := "vnc"; qemutils.Value := ":1" |};
             {| qemutils.Key := "m"; qemutils.Value := "4096" |};
             {| qemutils.Key := "incoming"; qemutils.Value := "tcp:0:4396" |} ]
           [ {| qemutils.Key := "name"; qemutils.Value := "vm1" |};
             {| qemutils.Key := "vnc"; qemutils.Value := ":7" |};
             {| qemutils.Key := "m"; qemutils.Value := "4096" |};
             {| qemutils.Key := "cpu"; qemutils.Value := "host" |};
             {| qemutils.Key := "incoming"; qemutils.Value := "tcp:0:9999" |} ]);
    vm_compute; reflexivity.
Defined.

(** The unified text of the example. *)
Example unify_example :
  unify "-name vm1 -vnc :1 -m 4096 -incoming tcp:0:4396"
        "-name vm1 -vnc :7 -m 4096 -cpu host -incoming tcp:0:9999"
  = Ok "-name vm1 -m 4096 -cpu host -vnc :1 -incoming tcp:0:4396".
Proof. vm_compute; reflexivity. Qed.

(** * Further properties *)

(** ** The machine-type fix-up *)

Lemma IsInStringArray_ARM_VIRT :
  IsInStringArray api.VM_MACHINE_TYPE_ARM_VIRT
    [EmptyString; api.VM_MACHINE_TYPE_PC; api.VM_MACHINE_TYPE_Q35] = false.
Proof. reflexivity. Qed.

Lemma GetOsName_fixGuestMachineType (s : SKVMGuestInstance) :
  GetOsName (fixGuestMachineType s) = GetOsName s.
Proof. unfold GetOsName. now rewrite fixGuestMachineType_Metadata. Qed.

(** The fix-up by cases on the guest's OS and the host's architecture. *)
Lemma fixGuestMachineType_cases (s : SKVMGuestInstance) :
  fixGuestMachineType s =
  if IsAarch64 (host s) then
    set_Desc s
      (set_Bios
         (set_Machine (Desc s)
            (if String.eqb (GetOsName s) OS_NAME_MACOS then api.VM_MACHINE_TYPE_ARM_VIRT
             else if IsInStringArray (desc.Machine (Desc s))
                       [EmptyString; api.VM_MACHINE_TYPE_PC; api.VM_MACHINE_TYPE_Q35]
                  then api.VM_MACHINE_TYPE_ARM_VIRT
                  else desc.Machine (Desc s)))
         qemu.BIOS_UEFI)
  else if String.eqb (GetOsName s) OS_NAME_MACOS then
    set_Desc s (set_Bios (set_Machine (Desc s) api.VM_MACHINE_TYPE_Q35) qemu.BIOS_UEFI)
  else s.
Proof.
  unfold fixGuestMachineType.
  destruct (String.eqb (GetOsName s) OS_NAME_MACOS); cbn [host set_Desc];
    destruct (IsAarch64 (host s)); try reflexivity.
  cbn [Desc set_Desc]. destruct (IsInStringArray _ _); reflexivity.
Qed.

(** X1.  The fix-up is idempotent: applied to an instance it has already
    fixed, it changes nothing. *)
Theorem fixGuestMachineType_idempotent (s : SKVMGuestInstance) :
  fixGuestMachineType (fixGuestMachineType s) = fixGuestMachineType s.
Proof.
  rewrite (fixGuestMachineType_cases (fixGuestMachineType s)).
  rewrite GetOsName_fixGuestMachineType, fixGuestMachineType_host.
  rewrite (fixGuestMachineType_cases s).
  destruct (IsAarch64 (host s)); destruct (String.eqb (GetOsName s) OS_NAME_MACOS);
    try reflexivity.
  cbn [Desc set_Desc desc.Machine set_Bios set_Machine].
  destruct (IsInStringArray (desc.Machine (Desc s)) _) eqn:Hm.
  - rewrite IsInStringArray_ARM_VIRT. reflexivity.
  - rewrite Hm. reflexivity.
Qed.

(** X2.  The fix-up changes nothing of the instance but [Machine] and
    [Bios], and on a host that is not aarch64 it leaves a guest that is
    not macOS as it is. *)
Theorem fixGuestMachineType_frame (s : SKVMGuestInstance) :
  set_Desc (fixGuestMachineType s)
    (set_Bios (set_Machine (Desc (fixGuestMachineType s)) (desc.Machine (Desc s)))
       (desc.Bios (Desc s))) = s /\
  (IsAarch64 (host s) = false -> GetOsName s <> OS_NAME_MACOS ->
   fixGuestMachineType s = s).
Proof.
  split.
  - rewrite fixGuestMachineType_cases.
    destruct (IsAarch64 (host s)); [|destruct (String.eqb (GetOsName s) OS_NAME_MACOS)];
      destruct s as [d h p t]; destruct d; reflexivity.
  - intros Ha Hos. unfold fixGuestMachineType.
    apply String.eqb_neq in Hos. rewrite Hos, Ha. reflexivity.
Qed.

Lemma fixGuestMachineType_frame_witness : fixGuestMachineType oneNicGuest = oneNicGuest.
Proof.
  apply (proj2 (fixGuestMachineType_frame oneNicGuest)); [reflexivity|].
  vm_compute. discriminate.
Defined.

(** ** The PCI bus *)

(** X3.  [GetPciBus] and [isPcie] agree: the bus is the PCIe root
    exactly for the machines [isPcie] accepts, and the legacy PCI root
    otherwise; a descriptor with no machine type counts as the generic PC;
    and after the fix-up on an aarch64 host a guest whose machine type was
    empty, pc or q35 is on the PCIe root. *)
Theorem GetPciBus_isPcie (s : SKVMGuestInstance) :
  GetPciBus s = (if isPcie s then "pcie.0" else "pci.0") /\
  isPcie s = isQ35 s || isVirt s /\
  (desc.Machine (Desc s) = EmptyString -> GetPciBus s = "pci.0") /\
  (IsAarch64 (host s) = true ->
   IsInStringArray (desc.Machine (Desc s))
     [EmptyString; api.VM_MACHINE_TYPE_PC; api.VM_MACHINE_TYPE_Q35] = true ->
   GetPciBus (fixGuestMachineType s) = "pcie.0" /\ isVirt (fixGuestMachineType s) = true).
Proof.
  assert (Hp : isPcie s = isQ35 s || isVirt s).
  { unfold isPcie, isQ35, isVirt, IsInStringArray. cbn [existsb]. now rewrite orb_false_r. }
  split; [|split; [exact Hp|split]].
  - unfold GetPciBus. now rewrite Hp.
  - intros Hm. unfold GetPciBus, isQ35, isVirt, getMachine. rewrite Hm. reflexivity.
  - intros Ha Hin.
    assert (Hm : desc.Machine (Desc (fixGuestMachineType s)) = api.VM_MACHINE_TYPE_ARM_VIRT).
    { rewrite fixGuestMachineType_cases, Ha.
      cbn [Desc set_Desc desc.Machine set_Bios set_Machine]. rewrite Hin.
      now destruct (String.eqb (GetOsName s) OS_NAME_MACOS). }
    unfold GetPciBus, isQ35, isVirt, getMachine. rewrite Hm. split; reflexivity.
Qed.

Lemma GetPciBus_isPcie_witness :
  GetPciBus (fixGuestMachineType macosOnAarch64) = "pcie.0" /\
  isVirt (fixGuestMachineType macosOnAarch64) = true.
Proof.
  apply (proj2 (proj2 (proj2 (GetPciBus_isPcie macosOnAarch64)))); reflexivity.
Defined.

(** ** USB input devices on x86 *)

Lemma IsOldWindows_OsName (s : SKVMGuestInstance) :
  IsOldWindows s = true -> GetOsName s = OS_NAME_WINDOWS.
Proof.
  unfold IsOldWindows.
  destruct (String.eqb_spec (GetOsName s) OS_NAME_WINDOWS); [easy|discriminate].
Qed.

(** X4.  Whatever [strings.ToLower] does and whatever the value of the
    constant [OS_NAME_ANDROID]: on a host that is not aarch64 the keyboard
    is there exactly when the distribution is neither OpenWrt nor Cirros,
    the guest is neither an old Windows nor a Windows 10, and the keyboard
    is not disabled; the mouse exactly for a guest whose OS name is the
    Android constant; the tablet exactly for a guest that is neither that
    nor an old Windows.  So no guest gets both pointing devices, and an
    old Windows guest gets no USB input device at all (the Android
    constant not being the Windows one). *)
Theorem usbDevices_x86 (E : Collab) (s : SKVMGuestInstance) :
  let devices := usbDevices E s qemu.Arch_x86_64 (GetOsName s) in
  devices =
    ((if usbKbdWanted E s then ["usb-kbd"] else []) ++
     (if String.eqb (GetOsName s) (OS_NAME_ANDROID E) then ["usb-mouse"]
      else if IsOldWindows s then [] else ["usb-tablet"]))%list /\
  (In "usb-kbd" devices <-> usbKbdWanted E s = true) /\
  (In "usb-mouse" devices <-> GetOsName s = OS_NAME_ANDROID E) /\
  (In "usb-tablet" devices <->
   GetOsName s <> OS_NAME_ANDROID E /\ IsOldWindows s = false) /\
  (IsOldWindows s = true -> OS_NAME_ANDROID E <> OS_NAME_WINDOWS -> devices = []) /\
  ~ (In "usb-mouse" devices /\ In "usb-tablet" devices).
Proof.
  cbn zeta.
  assert (Heq : usbDevices E s qemu.Arch_x86_64 (GetOsName s) =
    ((if usbKbdWanted E s then ["usb-kbd"] else []) ++
     (if String.eqb (GetOsName s) (OS_NAME_ANDROID E) then ["usb-mouse"]
      else if IsOldWindows s then [] else ["usb-tablet"]))%list).
  { unfold usbDevices, usbKbdWanted.
    destruct (negb _ && _ && _ && _)%bool;
      destruct (String.eqb (GetOsName s) (OS_NAME_ANDROID E));
      destruct (IsOldWindows s); reflexivity. }
  assert (Hold : IsOldWindows s = true ->
                 usbKbdWanted E s = false /\ GetOsName s = OS_NAME_WINDOWS).
  { intros H. split.
    - unfold usbKbdWanted. rewrite H. cbn [negb]. now rewrite andb_false_r.
    - exact (IsOldWindows_OsName s H). }
  rewrite Heq. split; [reflexivity|].
  destruct (String.eqb_spec (GetOsName s) (OS_NAME_ANDROID E)) as [Ha|Ha];
    destruct (IsOldWindows s) eqn:Ho; destruct (usbKbdWanted E s) eqn:Hk; cbn [app In];
    try (destruct (Hold eq_refl) as [? ?]; discriminate).
  all: try (destruct (Hold eq_refl) as [_ Hw]).
  all: intuition (discriminate || congruence).
Qed.

Lemma usbDevices_x86_witness :
  usbDevices refCollab oldWindowsGuest qemu.Arch_x86_64 (GetOsName oldWindowsGuest) = [].
Proof.
  apply (proj1 (proj2 (proj2 (proj2 (proj2 (usbDevices_x86 refCollab oldWindowsGuest)))))).
  - vm_compute; reflexivity.
  - discriminate.
Defined.

(** ** Extra options *)

Lemma sconcat_app (l1 l2 : list string) :
  sconcat (l1 ++ l2)%list = sconcat l1 ++ sconcat l2.
Proof.
  induction l1 as [|x l1 IH]; [reflexivity|].
  cbn [app]. unfold sconcat in *. cbn [fold_right]. rewrite IH.
  now rewrite append_assoc.
Qed.

Lemma extraOptionsArray_pieces (E : Collab) (k : string) (elems : list JSONObject)
    (cmd : string) :
  extraOptionsArray E k elems cmd =
  cmd ++ sconcat (map (fun vAtI => " -" ++ k ++ " " ++ JSONObject_String E vAtI) elems).
Proof.
  revert cmd. induction elems as [|v rest IH]; intros cmd.
  - cbn. now rewrite append_nil_r.
  - cbn [extraOptionsArray map]. rewrite IH. unfold sconcat. cbn [fold_right].
    now rewrite !append_assoc.
Qed.

Lemma extraOptionsStep_pieces (E : Collab) (cmd : string) (kv : string * JSONObject) :
  extraOptionsStep E cmd kv = cmd ++ sconcat (extraOptionPieces E kv).
Proof.
  destruct kv as [k v].
  destruct v; cbn [extraOptionsStep extraOptionPieces];
    try (unfold sconcat; cbn [fold_right]; now rewrite append_nil_r).
  apply extraOptionsArray_pieces.
Qed.

Lemma extraOptions_fold (E : Collab) (visit : list (string * JSONObject)) (cmd : string) :
  fold_left (extraOptionsStep E) visit cmd =
  cmd ++ sconcat (flat_map (extraOptionPieces E) visit).
Proof.
  revert cmd. induction visit as [|kv rest IH]; intros cmd.
  - cbn. now rewrite append_nil_r.
  - cbn [fold_left flat_map]. rewrite IH, extraOptionsStep_pieces, sconcat_app.
    now rewrite append_assoc.
Qed.

Lemma length_sconcat_perm (l1 l2 : list string) :
  l1 ≡ₚ l2 -> String.length (sconcat l1) = String.length (sconcat l2).
Proof.
  induction 1 as [|x l l' _ IH|x y l|l l' l'' _ IH1 _ IH2];
    unfold sconcat in *; cbn [fold_right]; rewrite ?length_append; lia.
Qed.

(** X5.  The text [extraOptions] returns is a blank followed by the
    options of the entries in the order the run visits them, one option
    per element for an array and one per entry otherwise.  Two runs over
    the same map return the same options, possibly in another order, and
    texts of the same length. *)
Theorem extraOptions_pieces (E : Collab) (m : gmap string JSONObject)
    (v1 v2 : list (string * JSONObject)) :
  range_order m v1 -> range_order m v2 ->
  extraOptions E v1 = " " ++ sconcat (flat_map (extraOptionPieces E) v1) /\
  extraOptions E v2 = " " ++ sconcat (flat_map (extraOptionPieces E) v2) /\
  flat_map (extraOptionPieces E) v1 ≡ₚ flat_map (extraOptionPieces E) v2 /\
  String.length (extraOptions E v1) = String.length (extraOptions E v2) /\
  (m = ∅ -> extraOptions E v1 = " ").
Proof.
  intros H1 H2. unfold extraOptions. rewrite !extraOptions_fold.
  assert (Hp : flat_map (extraOptionPieces E) v1 ≡ₚ flat_map (extraOptionPieces E) v2).
  { apply Permutation_flat_map. unfold range_order in *. now rewrite H1, H2. }
  split; [reflexivity|]. split; [reflexivity|]. split; [exact Hp|]. split.
  - rewrite !length_append. now rewrite (length_sconcat_perm _ _ Hp).
  - intros ->. unfold range_order in H1. rewrite map_to_list_empty in H1.
    apply Permutation_nil_r in H1. subst v1. reflexivity.
Qed.

Lemma extraOptions_pieces_witness :
  flat_map (extraOptionPieces refCollab) visitA ≡ₚ
  flat_map (extraOptionPieces refCollab) visitB.
Proof.
  exact (proj1 (proj2 (proj2
    (extraOptions_pieces refCollab _ visitA visitB
       range_order_visitA range_order_visitB)))).
Defined.

(** ** Failures of the start script *)

Lemma nicDownScripts_outcome (E : Collab) (s : SKVMGuestInstance)
    (nics : list desc.SGuestNetwork) (cmd : string) :
  (forall m, nicDownScripts E s nics cmd <> Err m) /\
  (nicDownScripts E s nics cmd = Panic <-> existsb (bridgeMissing s) nics = true).
Proof.
  revert cmd. induction nics as [|nic rest IH]; intros cmd.
  - cbn. split; [discriminate|]. split; discriminate.
  - cbn [nicDownScripts existsb]. unfold bridgeMissing at 1.
    destruct (isVFIO nic); cbn [negb andb orb]; [apply IH|].
    unfold getNicDownScriptPath.
    destruct (GetBridgeDev (host s) (desc.Bridge nic)); cbn [obind orb].
    + apply IH.
    + split; [discriminate|]. split; reflexivity.
Qed.

(** X6.  When the launch is a migration target, or the guest is a slave,
    and the live-migration port of the instance was never assigned, the
    call returns no script: it panics as soon as the first part of the
    script is put together, and leaves the instance as it was. *)
Theorem generateStartScript_nil_port (E : Collab) (s : SKVMGuestInstance)
    (data : RuntimeOverrides) (visit : list (string * JSONObject)) :
  need_migrate data = true \/ desc.IsSlave (Desc s) = true ->
  LiveMigrateDestPort s = None ->
  (forall s' script, generateStartScript E s data visit <> (s', Ok script)) /\
  (forall cmd, startScriptHead E s data = Ok cmd ->
               generateStartScript E s data visit = (s, Panic)).
Proof.
  intros Hflag Hport.
  assert (Hm : migrateOptions s data = None).
  { unfold migrateOptions. rewrite Hport.
    destruct (need_migrate data); [reflexivity|].
    destruct Hflag as [?| ->]; [discriminate|reflexivity]. }
  unfold generateStartScript. rewrite Hm. split.
  - intros s' script. destruct (startScriptHead E s data); discriminate.
  - now intros cmd ->.
Qed.

Lemma generateStartScript_nil_port_witness :
  generateStartScript refCollab noPortGuest migrateData [] = (noPortGuest, Panic).
Proof.
  destruct (generateStartScript_nil_port refCollab noPortGuest migrateData []
              (or_introl eq_refl) eq_refl) as [_ H].
  eapply H. vm_compute. reflexivity.
Defined.

(** X7.  The call changes nothing of the instance but the TLS flag of the
    live migration, and that flag it only ever sets: it is set when the
    launch is a migration target that asks for TLS, the port is assigned
    and the first part of the script was put together, also when the
    options then fail to generate. *)
Theorem generateStartScript_instance (E : Collab) (s : SKVMGuestInstance)
    (data : RuntimeOverrides) (visit : list (string * JSONObject)) :
  let s' := fst (generateStartScript E s data visit) in
  Desc s' = Desc s /\ host s' = host s /\
  LiveMigrateDestPort s' = LiveMigrateDestPort s /\
  LiveMigrateUseTls s' =
    LiveMigrateUseTls s
    || (is_Ok (startScriptHead E s data) && need_migrate data
        && live_migrate_use_tls data
        && match LiveMigrateDestPort s with Some _ => true | None => false end).
Proof.
  cbn zeta. unfold generateStartScript, migrateOptions.
  destruct (startScriptHead E s data) as [cmd| |]; cbn [is_Ok andb fst];
    rewrite ?orb_false_r; try (repeat split; congruence).
  destruct (need_migrate data); cbn [andb].
  - destruct (LiveMigrateDestPort s) as [port|] eqn:Hp; cbn [fst];
      rewrite ?andb_false_r, ?orb_false_r; try (repeat split; congruence).
    destruct (live_migrate_use_tls data); cbn [andb].
    + destruct (Wrap _ _); cbn [fst Desc host LiveMigrateDestPort LiveMigrateUseTls];
        rewrite ?orb_true_r; repeat split; congruence.
    + destruct (Wrap _ _); cbn [fst]; rewrite ?orb_false_r; repeat split; congruence.
  - destruct (desc.IsSlave (Desc s)).
    + destruct (LiveMigrateDestPort s) as [port|] eqn:Hp; cbn [fst];
        rewrite ?orb_false_r; try (repeat split; congruence).
      destruct (Wrap _ _); cbn [fst]; rewrite ?orb_false_r; repeat split; congruence.
    + destruct (Wrap _ _); cbn [fst]; rewrite ?orb_false_r; repeat split; congruence.
Qed.

(** X8.  A key that cannot be saved ends the call before anything else is
    looked at: the error is returned under the prefix of the step, the
    instance is untouched, and a NIC whose bridge is missing, on which the
    call would panic otherwise, is never reached. *)
Theorem generateStartScript_key_error (E : Collab) (s : SKVMGuestInstance)
    (data : RuntimeOverrides) (visit : list (string * JSONObject))
    (key m : string) :
  encrypt_key data = Some key ->
  saveEncryptKeyFile E s key = Err m ->
  generateStartScript E s data visit = (s, Err ("save encrypt key file: " ++ m)).
Proof.
  intros Hk Hs. unfold generateStartScript, startScriptHead.
  rewrite Hk, Hs. reflexivity.
Qed.

Lemma generateStartScript_key_error_witness :
  existsb (bridgeMissing strayNicGuest) (desc.Nics (Desc strayNicGuest)) = true /\
  generateStartScript noKeyCollab strayNicGuest encryptedData [] =
  (strayNicGuest, Err "save encrypt key file: read-only file system").
Proof.
  split; [reflexivity|].
  exact (generateStartScript_key_error noKeyCollab strayNicGuest encryptedData []
           "0123456789abcdef" "read-only file system" eq_refl eq_refl).
Defined.

(** X9.  Once the key is saved and every NIC has its bridge, an error of
    the disk scripts, of the SR-IOV scripts or of the option generator is
    returned under the name of its step, in that order of precedence; the
    first two leave the instance untouched. *)
Theorem generateStartScript_wrapped_errors (E : Collab) (s : SKVMGuestInstance)
    (data : RuntimeOverrides) (visit : list (string * JSONObject)) :
  match encrypt_key data with
  | Some key => saveEncryptKeyFile E s key = Ok tt
  | None => True
  end ->
  existsb (bridgeMissing s) (desc.Nics (Desc s)) = false ->
  (forall m, generateDiskSetupScripts E s (desc.Disks (Desc s)) = Err m ->
     generateStartScript E s data visit = (s, Err ("generateDiskSetupScripts: " ++ m))) /\
  (forall d m, generateDiskSetupScripts E s (desc.Disks (Desc s)) = Ok d ->
     generateSRIOVInitScripts E s = Err m ->
     generateStartScript E s data visit = (s, Err ("generateSRIOVInitScripts: " ++ m))) /\
  (forall d i needMigrate port tls s' m,
     generateDiskSetupScripts E s (desc.Disks (Desc s)) = Ok d ->
     generateSRIOVInitScripts E s = Ok i ->
     migrateOptions s data = Some (needMigrate, port, tls, s') ->
     GenerateStartOptions E (startInput E s data visit needMigrate port tls) = Err m ->
     generateStartScript E s data visit = (s', Err ("GenerateStartCommand: " ++ m))).
Proof.
  intros Hkey Hnics.
  assert (Hk : match encrypt_key data with
               | Some key => Wrap (saveEncryptKeyFile E s key) "save encrypt key file"
               | None => Ok tt
               end = Ok tt).
  { destruct (encrypt_key data); [now rewrite Hkey|reflexivity]. }
  destruct (nicDownScripts E s (desc.Nics (Desc s)) EmptyString) as [down|m0|] eqn:Hd.
  2: { now destruct (proj1 (nicDownScripts_outcome E s (desc.Nics (Desc s)) EmptyString) m0). }
  2: { apply (proj2 (nicDownScripts_outcome E s (desc.Nics (Desc s)) EmptyString)) in Hd.
       congruence. }
  unfold generateStartScript, startScriptHead. rewrite Hk. cbn [obind]. rewrite Hd.
  cbn [obind]. split; [|split].
  - intros m ->. reflexivity.
  - intros d m -> ->. reflexivity.
  - intros d i needMigrate port tls s' m -> -> -> ->. reflexivity.
Qed.

Lemma generateStartScript_wrapped_errors_witness :
  generateStartScript noDiskCollab oneNicGuest refData [] =
  (oneNicGuest, Err "generateDiskSetupScripts: no such disk").
Proof.
  exact (proj1 (generateStartScript_wrapped_errors noDiskCollab oneNicGuest refData []
                  I eq_refl) "no such disk" eq_refl).
Defined.

(** ** Missing bridges *)

(** X10.  [generateStopScript] never returns an error; it panics exactly
    when some NIC that is not VFIO sits on a bridge the host does not
    have, and returns a script otherwise. *)
Theorem generateStopScript_outcome (E : Collab) (s : SKVMGuestInstance) :
  (forall m, generateStopScript E s <> Err m) /\
  (generateStopScript E s = Panic <->
   existsb (bridgeMissing s) (desc.Nics (Desc s)) = true) /\
  (is_Ok (generateStopScript E s) =
   negb (existsb (bridgeMissing s) (desc.Nics (Desc s)))).
Proof.
  unfold generateStopScript. cbn zeta.
  destruct (nicDownScripts_outcome E s (desc.Nics (Desc s))
              (EmptyString ++ stopScriptKill E s ++ stopScriptUmount (desc.Uuid (Desc s))))
    as [He Hp].
  split; [exact He|]. split; [exact Hp|].
  destruct (nicDownScripts E s _ _) as [script|m|] eqn:Hr; cbn [is_Ok].
  - destruct (existsb _ _); [|reflexivity].
    destruct Hp as [_ Hp]. discriminate (Hp eq_refl).
  - now destruct (He m).
  - destruct Hp as [Hp _]. now rewrite (Hp eq_refl).
Qed.

(** X11.  A NIC that is not VFIO and sits on a bridge the host does not
    have: [generateNicScripts] reports it as an error that names the
    bridge and calls no generator, while the stop script, and the start
    script of a launch without a key, panic on it. *)
Theorem generateNicScripts_missing_bridge (E : Collab) (G : NicScriptGen)
    (s : SKVMGuestInstance) (nic : desc.SGuestNetwork) :
  In nic (desc.Nics (Desc s)) ->
  isVFIO nic = false ->
  GetBridgeDev (host s) (desc.Bridge nic) = None ->
  generateNicScripts E G s nic = Err ("Can't find bridge " ++ desc.Bridge nic) /\
  generateStopScript E s = Panic /\
  (forall data visit, encrypt_key data = None ->
     generateStartScript E s data visit = (s, Panic)).
Proof.
  intros Hin Hv Hb.
  assert (Hex : existsb (bridgeMissing s) (desc.Nics (Desc s)) = true).
  { apply existsb_exists. exists nic. split; [exact Hin|].
    unfold bridgeMissing. now rewrite Hv, Hb. }
  split; [|split].
  - unfold generateNicScripts. now rewrite Hb.
  - unfold generateStopScript. cbn zeta.
    now apply (proj2 (nicDownScripts_outcome E s _ _)).
  - intros data visit Hk. unfold generateStartScript, startScriptHead.
    rewrite Hk. cbn [obind].
    rewrite (proj2 (proj2 (nicDownScripts_outcome E s _ EmptyString)) Hex).
    reflexivity.
Qed.

Lemma generateNicScripts_missing_bridge_witness :
  generateNicScripts refCollab refNicScriptGen strayNicGuest strayNic =
    Err "Can't find bridge br9" /\
  generateStopScript refCollab strayNicGuest = Panic.
Proof.
  destruct (generateNicScripts_missing_bridge refCollab refNicScriptGen
              strayNicGuest strayNic (or_intror (or_introl eq_refl)) eq_refl eq_refl)
    as (H1 & H2 & _).
  split; [exact H1|exact H2].
Defined.

(** ** Memory descriptor: backend, slots and errors *)

Lemma memSlotsLoop_shape (path_Base : string -> string) (objType : string)
    (devs : list MemoryDeviceInfo) (memSize memSize' : Z)
    (memSlots memSlots' : list desc.SMemSlot) :
  memSlotsLoop path_Base objType devs memSize memSlots = Ok (memSize', memSlots') ->
  exists slots,
    memSlots' = (memSlots ++ slots)%list /\
    Forall2 (slotFor path_Base objType) devs slots.
Proof.
  revert memSize memSlots.
  induction devs as [|d devs IH]; intros memSize memSlots H; cbn [memSlotsLoop] in H.
  - injection H as _ <-. exists []. split; [now rewrite app_nil_r|constructor].
  - destruct (DataID d) as [id|] eqn:Hid; [|discriminate].
    destruct (String.eqb_spec (Type_ d) "dimm") as [Ht|]; [|discriminate].
    apply IH in H as (slots & -> & Hall).
    eexists (_ :: slots). split; [now rewrite <- app_assoc|].
    constructor; [|exact Hall].
    unfold slotFor. cbn. auto.
Qed.

Lemma memSlotsLoop_app (path_Base : string -> string) (objType : string)
    (pre rest : list MemoryDeviceInfo) (memSize : Z) (memSlots : list desc.SMemSlot) :
  forallb isDimm pre = true ->
  exists memSize' memSlots',
    memSlotsLoop path_Base objType (pre ++ rest) memSize memSlots =
    memSlotsLoop path_Base objType rest memSize' memSlots'.
Proof.
  revert memSize memSlots.
  induction pre as [|d pre IH]; intros memSize memSlots Hall; [now eauto|].
  cbn [forallb] in Hall. apply andb_true_iff in Hall as [Hd Hall].
  unfold isDimm in Hd. apply andb_true_iff in Hd as [Ht Hid].
  cbn [app memSlotsLoop]. destruct (DataID d) as [id|]; [|discriminate]. rewrite Ht.
  now apply IH.
Qed.

Lemma initMemDesc_Mem (archMan : ArchMan) (s : SKVMGuestInstance) (memSizeMB : Z) :
  exists mem,
    desc.MemDesc (Desc (initMemDesc archMan s memSizeMB)) =
      Some {| desc.SizeMB := memSizeMB; desc.Mem := Some mem;
              desc.MemSlots := desc.MemSlots (GenerateMemDesc archMan) |} /\
    desc.ObjType mem = memObjType s.
Proof.
  unfold initMemDesc, memObjType.
  cbn [Desc set_Desc set_MemDesc desc.MemDesc].
  destruct (IsHugepagesEnabled (host s)); [|destruct (isMemcleanEnabled s)];
    eexists; split; reflexivity.
Qed.

(** X12.  The base object [initMemDesc] installs has the backend type
    that [initMemDescFromMemoryInfo] gives the slots, always carries the
    size in MB, carries the hugepage path exactly on a host with
    hugepages, and shared, preallocated memory exactly when the backend is
    not plain RAM.  A second call replaces what the first installed. *)
Theorem initMemDesc_backend (archMan : ArchMan) (s : SKVMGuestInstance)
    (memSizeMB memSizeMB' : Z) :
  exists mem,
    desc.MemDesc (Desc (initMemDesc archMan s memSizeMB)) =
      Some {| desc.SizeMB := memSizeMB; desc.Mem := Some mem;
              desc.MemSlots := desc.MemSlots (GenerateMemDesc archMan) |} /\
    desc.ObjType mem = memObjType s /\
    desc.ObjId mem = "mem" /\
    desc.Options mem !! "size" = Some (fmt_d memSizeMB ++ "M") /\
    desc.Options mem !! "mem-path" =
      (if IsHugepagesEnabled (host s)
       then Some ("/dev/hugepages/" ++ desc.Uuid (Desc s)) else None) /\
    desc.Options mem !! "share" =
      (if String.eqb (memObjType s) "memory-backend-ram" then None else Some "on") /\
    desc.Options mem !! "prealloc" = desc.Options mem !! "share" /\
    initMemDesc archMan (initMemDesc archMan s memSizeMB') memSizeMB =
    initMemDesc archMan s memSizeMB.
Proof.
  unfold initMemDesc, memObjType, isMemcleanEnabled, meta.
  cbn [Desc set_Desc set_MemDesc host desc.MemDesc desc.Metadata desc.Uuid].
  destruct (IsHugepagesEnabled (host s));
    [|destruct (String.eqb (default EmptyString (desc.Metadata (Desc s) !! "enable_memclean")) "true")];
    eexists; (split; [reflexivity|]);
    cbn [set_Options desc.NewObject desc.ObjType desc.ObjId desc.Options String.eqb Ascii.eqb Bool.eqb];
    repeat split;
    repeat (first [rewrite lookup_insert_eq | rewrite lookup_insert_ne by discriminate
                  | rewrite lookup_empty]);
    reflexivity.
Qed.

(** X13.  When the call succeeds, the descriptor it installs has one slot
    per reported device, in the order reported: a [pc-dimm] under the
    device's id, over an object named after the last element of the
    device's memory path and of the same backend type as the base object.
    Nothing else of the instance changes. *)
Theorem initMemDescFromMemoryInfo_slots (path_Base : string -> string)
    (archMan : ArchMan) (s : SKVMGuestInstance) (devs : list MemoryDeviceInfo) :
  let r := initMemDescFromMemoryInfo path_Base archMan s devs in
  snd r = Ok tt ->
  exists md mem,
    desc.MemDesc (Desc (fst r)) = Some md /\
    desc.Mem md = Some mem /\
    desc.ObjType mem = memObjType s /\
    Forall2 (slotFor path_Base (desc.ObjType mem)) devs (desc.MemSlots md) /\
    host (fst r) = host s /\
    LiveMigrateDestPort (fst r) = LiveMigrateDestPort s /\
    LiveMigrateUseTls (fst r) = LiveMigrateUseTls s /\
    set_MemDesc (Desc (fst r)) md = set_MemDesc (Desc s) md.
Proof.
  cbn zeta. unfold initMemDescFromMemoryInfo.
  destruct (memSlotsLoop path_Base (memObjType s) devs (desc.MemMB (Desc s)) [])
    as [[memSize memSlots]|m|] eqn:Hloop; [|discriminate..].
  destruct (memSize <=? 0)%Z; [discriminate|]. intros _.
  apply memSlotsLoop_shape in Hloop as (slots & -> & Hall). cbn [app].
  destruct (initMemDesc_Mem archMan s memSize) as (mem & Hmd & Hty).
  unfold set_MemSlots. rewrite Hmd. cbn [fst Desc set_Desc desc.MemDesc set_MemDesc
    desc.SizeMB desc.Mem desc.MemSlots host LiveMigrateDestPort LiveMigrateUseTls].
  eexists _, mem. split; [reflexivity|]. cbn [desc.Mem desc.MemSlots].
  split; [reflexivity|]. split; [exact Hty|]. rewrite Hty.
  split; [exact Hall|]. repeat split.
Qed.

Lemma initMemDescFromMemoryInfo_slots_witness :
  exists md mem,
    desc.MemDesc (Desc (fst (initMemDescFromMemoryInfo refBase refArchMan oneNicGuest
                               [dimm "dimm1" GiB; dimm "dimm2" (2 * GiB)]))) = Some md /\
    desc.Mem md = Some mem /\
    Forall2 (slotFor refBase (desc.ObjType mem))
      [dimm "dimm1" GiB; dimm "dimm2" (2 * GiB)] (desc.MemSlots md).
Proof.
  destruct (initMemDescFromMemoryInfo_slots refBase refArchMan oneNicGuest
              [dimm "dimm1" GiB; dimm "dimm2" (2 * GiB)] eq_refl)
    as (md & mem & H1 & H2 & _ & H3 & _).
  exists md, mem. auto.
Defined.

(** X14.  The first reported device that is not a dimm, or is a dimm
    without an id, ends the call with an error that names its type, and
    the instance is as it was: also when the dimms before it already
    exceed the configured memory, which is only checked after the last
    device. *)
Theorem initMemDescFromMemoryInfo_first_rejected (path_Base : string -> string)
    (archMan : ArchMan) (s : SKVMGuestInstance)
    (pre post : list MemoryDeviceInfo) (d : MemoryDeviceInfo) :
  forallb isDimm pre = true ->
  isDimm d = false ->
  initMemDescFromMemoryInfo path_Base archMan s (pre ++ d :: post) =
  (s, Err ("unsupported memory device type " ++ Type_ d)).
Proof.
  intros Hpre Hd. unfold initMemDescFromMemoryInfo.
  destruct (memSlotsLoop_app path_Base (memObjType s) pre (d :: post)
              (desc.MemMB (Desc s)) [] Hpre) as (m' & slots' & ->).
  cbn [memSlotsLoop]. unfold isDimm in Hd.
  destruct (DataID d); [|reflexivity].
  rewrite andb_true_r in Hd. now rewrite Hd.
Qed.

Lemma initMemDescFromMemoryInfo_first_rejected_witness :
  (remainingMB (desc.MemMB (Desc oneNicGuest)) [dimm "dimm1" (8 * GiB)] <= 0)%Z /\
  initMemDescFromMemoryInfo refBase refArchMan oneNicGuest
    ([dimm "dimm1" (8 * GiB)] ++ anonymousDimm :: [dimm "dimm2" GiB]) =
  (oneNicGuest, Err "unsupported memory device type dimm").
Proof.
  split; [vm_compute; discriminate|].
  exact (initMemDescFromMemoryInfo_first_rejected refBase refArchMan oneNicGuest
           [dimm "dimm1" (8 * GiB)] [dimm "dimm2" GiB] anonymousDimm eq_refl eq_refl).
Defined.

(** ** CPU descriptor *)

(** X15.  [initCpuDesc] fixes the machine type before it asks for the CPU
    descriptor, with the CPU count taken as unsigned, and keeps the fix
    when the descriptor fails to generate: the instance is then the fixed
    instance, with the CPU descriptor it had.  On success only the CPU
    descriptor differs from the fixed instance. *)
Theorem initCpuDesc_outcome (archMan : ArchMan) (s : SKVMGuestInstance) :
  let r := initCpuDesc archMan s in
  let s1 := fixGuestMachineType s in
  let gen := GenerateCpuDesc archMan (to_uint (desc.Cpu (Desc s))) s1 in
  desc.Machine (Desc (fst r)) = desc.Machine (Desc s1) /\
  desc.Bios (Desc (fst r)) = desc.Bios (Desc s1) /\
  desc.MemDesc (Desc (fst r)) = desc.MemDesc (Desc s) /\
  match gen with
  | Ok cpuDesc =>
      snd r = Ok tt /\ desc.CpuDesc (Desc (fst r)) = Some cpuDesc /\
      set_CpuDesc (Desc (fst r)) cpuDesc = set_CpuDesc (Desc s1) cpuDesc
  | Err m => r = (s1, Err m) /\ desc.CpuDesc (Desc (fst r)) = desc.CpuDesc (Desc s)
  | Panic => r = (s1, Panic)
  end.
Proof.
  cbn zeta. unfold initCpuDesc.
  assert (Hcpu : desc.Cpu (Desc (fixGuestMachineType s)) = desc.Cpu (Desc s)
                 /\ desc.MemDesc (Desc (fixGuestMachineType s)) = desc.MemDesc (Desc s)
                 /\ desc.CpuDesc (Desc (fixGuestMachineType s)) = desc.CpuDesc (Desc s)).
  { rewrite fixGuestMachineType_cases.
    destruct (IsAarch64 (host s)); destruct (String.eqb (GetOsName s) OS_NAME_MACOS);
      try destruct (IsInStringArray _ _); repeat split. }
  destruct Hcpu as (Hc & Hm & Hd). rewrite Hc.
  destruct (GenerateCpuDesc archMan _ _); cbn [fst snd Desc set_Desc set_CpuDesc
    desc.Machine desc.Bios desc.MemDesc desc.CpuDesc]; repeat split; auto.
Qed.

(** ** Parsing a command line *)

Lemma filter_sublist {A} (f : A -> bool) (l : list A) : sublist (List.filter f l) l.
Proof.
  induction l as [|x l IH]; cbn [List.filter]; [constructor|].
  destruct (f x); now constructor.
Qed.

Lemma filter_partition_perm {A} (f : A -> bool) (l : list A) :
  (List.filter (fun x => negb (f x)) l ++ List.filter f l)%list ≡ₚ l.
Proof.
  induction l as [|x l IH]; cbn [List.filter]; [reflexivity|].
  destruct (f x); cbn [negb app].
  - rewrite <- Permutation_middle. now constructor.
  - now constructor.
Qed.

Lemma isDynamicOption_Key (o : qemutils.Option) :
  isDynamicOption o = true ->
  In (qemutils.Key o) ["incoming"; "vnc"; "spice"; "daemonize"; "chardev"].
Proof.
  unfold isDynamicOption.
  destruct (String.eqb_spec (qemutils.Key o) "incoming") as [->|_]; [cbn; auto|].
  destruct (String.eqb_spec (qemutils.Key o) "vnc") as [->|_]; [cbn; auto|].
  destruct (String.eqb_spec (qemutils.Key o) "spice") as [->|_]; [cbn; auto|].
  destruct (String.eqb_spec (qemutils.Key o) "daemonize") as [->|_]; [cbn; auto 6|].
  cbn [orb].
  destruct (String.eqb_spec (qemutils.Key o) "chardev") as [->|_]; [cbn; auto 6|].
  discriminate.
Qed.

(** X16.  Whatever the parser and [%q]: when the parser accepts the
    text, [parseCmdline] splits the parsed options in two, each in its
    parsed order: the dynamic options go to the side list and the others
    stay in the command line, none is lost or repeated, and only an option
    under one of the keys incoming, vnc, spice, daemonize and chardev can
    go to the side list. *)
Theorem parseCmdline_partition (fmt_q : string -> string)
    (NewCmdline : string -> outcome qemutils.Cmdline)
    (input : string) (cl0 : qemutils.Cmdline) :
  NewCmdline input = Ok cl0 ->
  exists cl filterOpts,
    parseCmdline fmt_q NewCmdline input = Ok (cl, filterOpts) /\
    (cl ++ filterOpts)%list ≡ₚ cl0 /\
    sublist cl cl0 /\ sublist filterOpts cl0 /\
    (forall o, In o filterOpts <-> In o cl0 /\ isDynamicOption o = true) /\
    (forall o, In o cl <-> In o cl0 /\ isDynamicOption o = false) /\
    (forall o, In o filterOpts ->
       In (qemutils.Key o) ["incoming"; "vnc"; "spice"; "daemonize"; "chardev"]).
Proof.
  intros Hp. exists (staticOptions cl0), (dynamicOptions cl0).
  split; [apply parseCmdline_Ok; eauto|].
  unfold staticOptions, dynamicOptions.
  split; [apply filter_partition_perm|].
  split; [apply filter_sublist|]. split; [apply filter_sublist|].
  split; [intros o; apply filter_In|]. split.
  - intros o. rewrite filter_In. now rewrite negb_true_iff.
  - intros o [_ Ho]%filter_In. now apply isDynamicOption_Key.
Qed.

Lemma parseCmdline_partition_witness :
  exists cl filterOpts,
    parseCmdline strconv_Quote qemutils.NewCmdline "-name guest-1 -vnc :1 -incoming defer -m 4096M"
      = Ok (cl, filterOpts) /\
    (cl ++ filterOpts)%list ≡ₚ
      [ {| qemutils.Key := "name"; qemutils.Value := "guest-1" |};
        {| qemutils.Key := "vnc"; qemutils.Value := ":1" |};
        {| qemutils.Key := "incoming"; qemutils.Value := "defer" |};
        {| qemutils.Key := "m"; qemutils.Value := "4096M" |} ].
Proof.
  destruct (parseCmdline_partition strconv_Quote qemutils.NewCmdline
              "-name guest-1 -vnc :1 -incoming defer -m 4096M" _ eq_refl)
    as (cl & filterOpts & H1 & H2 & _).
  exists cl, filterOpts. split; [exact H1|exact H2].
Defined.

(** X17.  Whatever [%q], the parser, the serializer and the diff library
    do: the current command line is parsed first and the source second,
    and the first that the parser rejects ends the unification with the
    parser's message under two prefixes, that of [parseCmdline] and that
    of the side it was parsing, each with the rejected text as [%q] prints
    it; a text the patch produced that the parser rejects is reported the
    same way, as the unified text. *)
Theorem unifyMigrateQemuCmdline_errors
    (fmt_q : string -> string)
    (NewCmdline : string -> outcome qemutils.Cmdline)
    (ToString : qemutils.Cmdline -> string)
    (DiffMain : string -> string -> list diffmatchpatch.Diff)
    (PatchMake : string -> list diffmatchpatch.Diff -> list diffmatchpatch.Diff)
    (PatchApply : list diffmatchpatch.Diff -> string -> string * bool)
    (cur src : string) :
  let r := unifyMigrateQemuCmdline fmt_q NewCmdline ToString DiffMain PatchMake PatchApply
             cur src in
  match NewCmdline cur, NewCmdline src with
  | Err m, _ =>
      r = Err ("parseCmdline current " ++ fmt_q cur ++ ": "
               ++ "NewCmdline " ++ fmt_q cur ++ ": " ++ m)
  | Panic, _ => r = Panic
  | Ok _, Err m =>
      r = Err ("parseCmdline source " ++ fmt_q src ++ ": "
               ++ "NewCmdline " ++ fmt_q src ++ ": " ++ m)
  | Ok _, Panic => r = Panic
  | Ok curCl, Ok srcCl =>
      let unifyStr :=
        _unifyMigrateQemuCmdline DiffMain PatchMake PatchApply
          (ToString (staticOptions curCl)) (ToString (staticOptions srcCl)) in
      match NewCmdline unifyStr with
      | Err m =>
          r = Err ("parseCmdline unitfy " ++ fmt_q unifyStr ++ ": "
                   ++ "NewCmdline " ++ fmt_q unifyStr ++ ": " ++ m)
      | Panic => r = Panic
      | Ok patchedCl =>
          r = Ok (ToString (staticOptions patchedCl ++ dynamicOptions curCl)%list)
      end
  end.
Proof.
  cbn zeta. unfold unifyMigrateQemuCmdline, unifyCmdline, parseCmdline.
  destruct (NewCmdline cur) as [curCl|m|]; cbn [Wrap obind]; try reflexivity.
  rewrite FilterOption_filterCallback. cbn [app Wrap obind].
  destruct (NewCmdline src) as [srcCl|m|]; cbn [Wrap obind]; try reflexivity.
  rewrite FilterOption_filterCallback. cbn [app Wrap obind].
  destruct (NewCmdline _) as [patchedCl|m|]; cbn [Wrap obind]; try reflexivity.
  rewrite FilterOption_filterCallback. cbn [app Wrap obind]. reflexivity.
Qed.

(** On a text that holds a double quote, the message holds the quote
    behind a backslash. *)
Lemma unifyMigrateQemuCmdline_errors_witness :
  unify ("say " ++ dq ++ "hi" ++ dq) "-m 1" =
  Err ("parseCmdline current " ++ dq ++ "say " ++ backslash ++ dq ++ "hi" ++ backslash ++ dq ++ dq
       ++ ": NewCmdline " ++ dq ++ "say " ++ backslash ++ dq ++ "hi" ++ backslash ++ dq ++ dq
       ++ ": invalid option say").
Proof.
  pose proof (unifyMigrateQemuCmdline_errors strconv_Quote
                qemutils.NewCmdline qemutils.ToString
                diffmatchpatch.DiffMain diffmatchpatch.PatchMake diffmatchpatch.PatchApply
                ("say " ++ dq ++ "hi" ++ dq) "-m 1") as H.
  unfold unify. cbn zeta in H.
  change (qemutils.NewCmdline ("say " ++ dq ++ "hi" ++ dq))
    with (Err (A := qemutils.Cmdline) "invalid option say") in H at 1.
  rewrite H. vm_compute. reflexivity.
Defined.

(** * Properties of the Huawei load balancer *)

(** ** Request bodies *)

(** The calls made by one request, whatever it answers. *)
Ltac M_fst R :=
  unfold bindM, liftM, callM, wrapM, retM;
  repeat match goal with
         | |- context [huawei.lbCreate R ?h ?r ?b] => destruct (huawei.lbCreate R h r b)
         | |- context [huawei.lbUpdate R ?h ?r ?b] => destruct (huawei.lbUpdate R h r b)
         end;
  reflexivity.

Lemma length_zero_ltb (s : string) :
  (0 <? String.length s)%nat = negb (String.eqb s EmptyString).
Proof. now destruct s. Qed.

Lemma NoDup_4 {A} (a b c d : A) :
  NoDup [a; b; c; d] -> a <> b /\ a <> c /\ a <> d /\ b <> c /\ b <> d /\ c <> d.
Proof.
  intros H.
  repeat match goal with
         | H : NoDup (_ :: _) |- _ => inversion H; clear H; subst
         end.
  rewrite ?not_elem_of_cons in *. intuition congruence.
Qed.

(** X18.  A backend group is created exactly for a scheduler of the
    table [LB_ALGORITHM_MAP] and a protocol of the table
    [LBBG_PROTOCOL_MAP], with the algorithm and the protocol the tables
    give, in one request; any other scheduler, and then any other
    protocol, is refused as not supported without a request being made.
    (The protocol sent for TCP and UDP is the upper case of the constant,
    which is what the table holds for the constants as they are
    spelt.) *)
Theorem CreateLoadBalancerBackendGroup_tables {Resp} (R : huawei.SRegion Resp)
    (lbId : string) (opts : cloudprovider.SLoadbalancerBackendGroup)
    (h : list huawei.Call) :
  let A := huawei.consts R in
  huawei.distinct_keys A ->
  ToUpper (huawei.LB_LISTENER_TYPE_TCP A) = "TCP" ->
  ToUpper (huawei.LB_LISTENER_TYPE_UDP A) = "UDP" ->
  match huawei.LB_ALGORITHM_MAP A !! cloudprovider.Scheduler opts,
        huawei.LBBG_PROTOCOL_MAP A !! cloudprovider.Protocol opts with
  | Some algorithm, Some protocol =>
      let params : gmap string huawei.Param :=
        <["protocol" := huawei.PString protocol]>
          (<["lb_algorithm" := huawei.PString algorithm]>
             (<["name" := huawei.PString (cloudprovider.Name opts)]>
                (<["loadbalancer_id" := huawei.PString lbId]> ∅))) in
      huawei.backendGroupParams A lbId opts = Ok params /\
      fst (huawei.CreateLoadBalancerBackendGroup R lbId opts h) =
        (h ++ [huawei.lbCreateCall "elb/pools" (<["pool" := huawei.PMap params]> ∅)])%list
  | None, _ =>
      huawei.CreateLoadBalancerBackendGroup R lbId opts h =
      (h, Err ("invalid scheduler " ++ cloudprovider.Scheduler opts ++ ": "
               ++ huawei.ErrNotSupported A))
  | Some _, None =>
      huawei.CreateLoadBalancerBackendGroup R lbId opts h =
      (h, Err ("invalid protocol " ++ cloudprovider.Protocol opts ++ ": "
               ++ huawei.ErrNotSupported A))
  end.
Proof.
  cbn zeta. intros (_ & Hd & _) Htcp Hudp.
  apply NoDup_4 in Hd as (H12 & H13 & H14 & H23 & H24 & H34).
  unfold huawei.CreateLoadBalancerBackendGroup, huawei.backendGroupParams,
    huawei.LB_ALGORITHM_MAP, huawei.LBBG_PROTOCOL_MAP.
  set (A := huawei.consts R) in *.
  assert (Halg :
    forall s, (<[huawei.LB_SCHEDULER_WRR A := "ROUND_ROBIN"]>
      (<[huawei.LB_SCHEDULER_WLC A := "LEAST_CONNECTIONS"]>
        (<[huawei.LB_SCHEDULER_SCH A := "SOURCE_IP"]> (∅ : gmap string string)))) !! s =
    if String.eqb s (huawei.LB_SCHEDULER_WRR A) then Some "ROUND_ROBIN"
    else if String.eqb s (huawei.LB_SCHEDULER_WLC A) then Some "LEAST_CONNECTIONS"
    else if String.eqb s (huawei.LB_SCHEDULER_SCH A) then Some "SOURCE_IP" else None).
  { intros s.
    destruct (String.eqb_spec s (huawei.LB_SCHEDULER_WRR A)) as [->|?];
      [now rewrite lookup_insert_eq|rewrite lookup_insert_ne by congruence].
    destruct (String.eqb_spec s (huawei.LB_SCHEDULER_WLC A)) as [->|?];
      [now rewrite lookup_insert_eq|rewrite lookup_insert_ne by congruence].
    destruct (String.eqb_spec s (huawei.LB_SCHEDULER_SCH A)) as [->|?];
      [now rewrite lookup_insert_eq|rewrite lookup_insert_ne by congruence].
    apply lookup_empty. }
  assert (Hproto :
    forall s, (<[huawei.LB_LISTENER_TYPE_HTTP A := "HTTP"]>
      (<[huawei.LB_LISTENER_TYPE_HTTPS A := "HTTP"]>
        (<[huawei.LB_LISTENER_TYPE_UDP A := "UDP"]>
          (<[huawei.LB_LISTENER_TYPE_TCP A := "TCP"]> (∅ : gmap string string))))) !! s =
    if String.eqb s (huawei.LB_LISTENER_TYPE_TCP A) then Some "TCP"
    else if String.eqb s (huawei.LB_LISTENER_TYPE_UDP A) then Some "UDP"
    else if String.eqb s (huawei.LB_LISTENER_TYPE_HTTP A)
            || String.eqb s (huawei.LB_LISTENER_TYPE_HTTPS A) then Some "HTTP" else None).
  { intros s.
    destruct (String.eqb_spec s (huawei.LB_LISTENER_TYPE_TCP A)) as [->|?].
    { rewrite !lookup_insert_ne by congruence. now rewrite lookup_insert_eq. }
    destruct (String.eqb_spec s (huawei.LB_LISTENER_TYPE_UDP A)) as [->|?].
    { rewrite !lookup_insert_ne by congruence. now rewrite lookup_insert_eq. }
    destruct (String.eqb_spec s (huawei.LB_LISTENER_TYPE_HTTP A)) as [->|?];
      [now rewrite lookup_insert_eq|rewrite lookup_insert_ne by congruence].
    destruct (String.eqb_spec s (huawei.LB_LISTENER_TYPE_HTTPS A)) as [->|?];
      [now rewrite lookup_insert_eq|rewrite lookup_insert_ne by congruence].
    rewrite !lookup_insert_ne by congruence. apply lookup_empty. }
  rewrite Halg, Hproto.
  destruct (String.eqb (cloudprovider.Scheduler opts) (huawei.LB_SCHEDULER_WRR A));
    [|destruct (String.eqb (cloudprovider.Scheduler opts) (huawei.LB_SCHEDULER_WLC A));
      [|destruct (String.eqb (cloudprovider.Scheduler opts) (huawei.LB_SCHEDULER_SCH A))]];
    cbn [Wrap obind]; try reflexivity.
  all: destruct (String.eqb_spec (cloudprovider.Protocol opts) (huawei.LB_LISTENER_TYPE_TCP A))
         as [Ht|?]; cbn [orb];
       [rewrite Ht, Htcp; split; [reflexivity|M_fst R]|].
  all: destruct (String.eqb_spec (cloudprovider.Protocol opts) (huawei.LB_LISTENER_TYPE_UDP A))
         as [Hu|?]; cbn [orb];
       [rewrite Hu, Hudp; split; [reflexivity|M_fst R]|].
  all: destruct (String.eqb (cloudprovider.Protocol opts) (huawei.LB_LISTENER_TYPE_HTTP A)
                 || String.eqb (cloudprovider.Protocol opts) (huawei.LB_LISTENER_TYPE_HTTPS A));
       [split; [reflexivity|M_fst R]|reflexivity].
Qed.

Lemma distinct_keys_refConsts : huawei.distinct_keys refConsts.
Proof.
  unfold huawei.distinct_keys.
  repeat split; apply (bool_decide_unpack _); vm_compute; reflexivity.
Qed.

Lemma CreateLoadBalancerBackendGroup_tables_witness :
  fst (huawei.CreateLoadBalancerBackendGroup refRegion "lb-1" refBackendGroup []) =
  [ huawei.lbCreateCall "elb/pools"
      (<["pool" := huawei.PMap
           (<["protocol" := huawei.PString "TCP"]>
              (<["lb_algorithm" := huawei.PString "ROUND_ROBIN"]>
                 (<["name" := huawei.PString "web"]>
                    (<["loadbalancer_id" := huawei.PString "lb-1"]> ∅))))]> ∅) ].
Proof.
  exact (proj2 (CreateLoadBalancerBackendGroup_tables refRegion "lb-1" refBackendGroup []
                  distinct_keys_refConsts eq_refl eq_refl)).
Defined.

Ltac lookup_keys :=
  repeat first [ rewrite lookup_insert_eq
               | rewrite lookup_insert_ne by discriminate
               | rewrite lookup_empty ].

(** X19.  A listener is created exactly for the types TCP, UDP, HTTP and
    HTTPS, in one request; any other type is refused as not supported
    without a request being made.  The protocol sent is the type in upper
    case, and [TERMINATED_HTTPS] for HTTPS; the default pool is sent
    exactly when a backend group is named, the certificate exactly for
    HTTPS (also when no certificate is named), and the header insertion
    exactly when the forwarded-for flag is set. *)
Theorem CreateLoadBalancerListener_body {Resp} (R : huawei.SRegion Resp)
    (listener : cloudprovider.SLoadbalancerListenerCreateOptions) (lbId : string)
    (h : list huawei.Call) :
  let A := huawei.consts R in
  let t := cloudprovider.ListenerType listener in
  huawei.distinct_keys A ->
  if IsInStringArray t [huawei.LB_LISTENER_TYPE_TCP A; huawei.LB_LISTENER_TYPE_UDP A;
                        huawei.LB_LISTENER_TYPE_HTTP A; huawei.LB_LISTENER_TYPE_HTTPS A]
  then
    exists params,
      huawei.listenerParams A listener lbId = Ok params /\
      fst (huawei.CreateLoadBalancerListener R listener lbId h) =
        (h ++ [huawei.lbCreateCall "elb/listeners" (<["listener" := huawei.PMap params]> ∅)])%list /\
      params !! "protocol" =
        Some (huawei.PString (if String.eqb t (huawei.LB_LISTENER_TYPE_HTTPS A)
                              then "TERMINATED_HTTPS" else ToUpper t)) /\
      params !! "default_pool_id" =
        (if String.eqb (cloudprovider.BackendGroupId listener) EmptyString then None
         else Some (huawei.PString (cloudprovider.BackendGroupId listener))) /\
      params !! "default_tls_container_ref" =
        (if String.eqb t (huawei.LB_LISTENER_TYPE_HTTPS A)
         then Some (huawei.PString (cloudprovider.CertificateId listener)) else None) /\
      params !! "insert_headers" =
        (if cloudprovider.XForwardedFor listener
         then Some (huawei.PMap (<["X-Forwarded-ELB-IP" := huawei.PBool true]> ∅)) else None) /\
      params !! "name" = Some (huawei.PString (cloudprovider.ListenerName listener)) /\
      params !! "description" = Some (huawei.PString (cloudprovider.Description listener)) /\
      params !! "protocol_port" = Some (huawei.PInt (cloudprovider.ListenerPort listener)) /\
      params !! "loadbalancer_id" = Some (huawei.PString lbId) /\
      params !! "http2_enable" = Some (huawei.PBool (cloudprovider.EnableHTTP2 listener))
  else
    huawei.CreateLoadBalancerListener R listener lbId h =
    (h, Err ("protocol " ++ t ++ ": " ++ huawei.ErrNotSupported A)).
Proof.
  cbn zeta. intros (_ & Hd & _).
  apply NoDup_4 in Hd as (H12 & H13 & H14 & H23 & H24 & H34).
  unfold huawei.CreateLoadBalancerListener, huawei.listenerParams, IsInStringArray.
  cbn [existsb]. rewrite length_zero_ltb.
  set (A := huawei.consts R) in *.
  destruct (String.eqb_spec (cloudprovider.ListenerType listener) (huawei.LB_LISTENER_TYPE_HTTPS A))
    as [Hs|Hs].
  - rewrite Hs.
    rewrite (proj2 (String.eqb_neq _ _) H24), (proj2 (String.eqb_neq _ _) H23),
            (proj2 (String.eqb_neq _ _) (not_eq_sym H12)).
    cbn [orb obind].
    destruct (String.eqb (cloudprovider.BackendGroupId listener) EmptyString);
      destruct (cloudprovider.XForwardedFor listener); cbn [negb];
      eexists; (split; [reflexivity|]); (split; [M_fst R|]);
      repeat split; lookup_keys; reflexivity.
  - rewrite !orb_false_r, !orb_assoc.
    destruct (String.eqb (cloudprovider.ListenerType listener) (huawei.LB_LISTENER_TYPE_TCP A)
              || String.eqb (cloudprovider.ListenerType listener) (huawei.LB_LISTENER_TYPE_UDP A)
              || String.eqb (cloudprovider.ListenerType listener) (huawei.LB_LISTENER_TYPE_HTTP A));
      cbn [orb obind Wrap]; [|reflexivity].
    destruct (String.eqb (cloudprovider.BackendGroupId listener) EmptyString);
      destruct (cloudprovider.XForwardedFor listener); cbn [negb];
      eexists; (split; [reflexivity|]); (split; [M_fst R|]);
      repeat split; lookup_keys; reflexivity.
Qed.

Lemma CreateLoadBalancerListener_body_witness :
  exists params,
    huawei.listenerParams refConsts refListener "lb-1" = Ok params /\
    params !! "protocol" = Some (huawei.PString "TERMINATED_HTTPS") /\
    params !! "default_tls_container_ref" = Some (huawei.PString EmptyString).
Proof.
  destruct (CreateLoadBalancerListener_body refRegion refListener "lb-1" []
              distinct_keys_refConsts) as (params & H1 & _ & H2 & _ & H3 & _).
  exists params. split; [exact H1|]. split; [exact H2|exact H3].
Defined.

(** ** Health checks *)

Lemma delete_httpCheckParams (A : huawei.Consts)
    (healthCheck : cloudprovider.SLoadbalancerHealthCheck)
    (params : gmap string huawei.Param) (k : string) :
  k <> "domain_name" -> k <> "url_path" -> k <> "expected_codes" ->
  delete k (huawei.httpCheckParams A healthCheck params) =
  huawei.httpCheckParams A healthCheck (delete k params).
Proof.
  intros H1 H2 H3. unfold huawei.httpCheckParams.
  destruct (String.eqb _ _); [|reflexivity].
  destruct (0 <? _)%nat; destruct (0 <? _)%nat; destruct (0 <? _)%nat;
    rewrite ?delete_insert_ne by congruence; reflexivity.
Qed.

Lemma lookup_httpCheckParams (A : huawei.Consts)
    (healthCheck : cloudprovider.SLoadbalancerHealthCheck)
    (params : gmap string huawei.Param) (k : string) :
  k <> "domain_name" -> k <> "url_path" -> k <> "expected_codes" ->
  huawei.httpCheckParams A healthCheck params !! k = params !! k.
Proof.
  intros H1 H2 H3. unfold huawei.httpCheckParams.
  destruct (String.eqb _ _); [|reflexivity].
  destruct (0 <? _)%nat; destruct (0 <? _)%nat; destruct (0 <? _)%nat;
    rewrite ?lookup_insert_ne by congruence; reflexivity.
Qed.

(** X20.  The body that updates a health check is the body that creates
    it less the backend group and the type.  Creating never refuses a
    type: one request is made whatever the type, and a type that is not in
    the table [LB_HEALTHCHECK_TYPE_MAP] is sent as the empty string.  The
    domain, the path and the expected codes are sent only for an HTTP
    check, and only those that are not empty. *)
Theorem healthCheck_bodies {Resp} (R : huawei.SRegion Resp) (id : string)
    (healthCheck : cloudprovider.SLoadbalancerHealthCheck) (h : list huawei.Call) :
  let A := huawei.consts R in
  let create := huawei.healthCheckCreateParams A id healthCheck in
  let update := huawei.healthCheckUpdateParams A healthCheck in
  delete "pool_id" (delete "type" create) = update /\
  create !! "pool_id" = Some (huawei.PString id) /\
  create !! "type" =
    Some (huawei.PString
            (default EmptyString
               (huawei.LB_HEALTHCHECK_TYPE_MAP A !! cloudprovider.HealthCheckType healthCheck))) /\
  fst (huawei.CreateLoadBalancerHealthCheck R id healthCheck h) =
    (h ++ [huawei.lbCreateCall "elb/healthmonitors"
             (<["healthmonitor" := huawei.PMap create]> ∅)])%list /\
  fst (huawei.UpdateLoadBalancerHealthCheck R id healthCheck h) =
    (h ++ [huawei.lbUpdateCall ("elb/healthmonitors/" ++ id)
             (<["healthmonitor" := huawei.PMap update]> ∅)])%list /\
  (String.eqb (cloudprovider.HealthCheckType healthCheck) (huawei.LB_HEALTH_CHECK_HTTP A) = false ->
   update = <["delay" := huawei.PInt (cloudprovider.HealthCheckInterval healthCheck)]>
              (<["max_retries" := huawei.PInt (cloudprovider.HealthCheckRise healthCheck)]>
                 (<["timeout" := huawei.PInt (cloudprovider.HealthCheckTimeout healthCheck)]> ∅))) /\
  create !! "domain_name" =
    (if String.eqb (cloudprovider.HealthCheckType healthCheck) (huawei.LB_HEALTH_CHECK_HTTP A)
        && negb (String.eqb (cloudprovider.HealthCheckDomain healthCheck) EmptyString)
     then Some (huawei.PString (cloudprovider.HealthCheckDomain healthCheck)) else None).
Proof.
  cbn zeta. set (A := huawei.consts R).
  split; [|split; [|split; [|split; [|split; [|split]]]]].
  - unfold huawei.healthCheckCreateParams, huawei.healthCheckUpdateParams.
    rewrite !delete_httpCheckParams by discriminate. reflexivity.
  - unfold huawei.healthCheckCreateParams.
    rewrite lookup_httpCheckParams by discriminate. lookup_keys. reflexivity.
  - unfold huawei.healthCheckCreateParams.
    rewrite lookup_httpCheckParams by discriminate. lookup_keys. reflexivity.
  - unfold huawei.CreateLoadBalancerHealthCheck. M_fst R.
  - unfold huawei.UpdateLoadBalancerHealthCheck. M_fst R.
  - intros Ht. unfold huawei.healthCheckUpdateParams, huawei.httpCheckParams.
    fold A. now rewrite Ht.
  - unfold huawei.healthCheckCreateParams, huawei.httpCheckParams. fold A.
    destruct (String.eqb _ (huawei.LB_HEALTH_CHECK_HTTP A)); cbn [andb];
      [|lookup_keys; reflexivity].
    rewrite !length_zero_ltb.
    destruct (String.eqb (cloudprovider.HealthCheckDomain healthCheck) EmptyString);
      destruct (String.eqb (cloudprovider.HealthCheckURI healthCheck) EmptyString);
      destruct (String.eqb (cloudprovider.HealthCheckHttpCode healthCheck) EmptyString);
      cbn [negb]; lookup_keys; reflexivity.
Qed.

(** ** Listing page by page *)

Lemma length_zero_eqb (s : string) : (String.length s =? 0)%nat = String.eqb s EmptyString.
Proof. now destruct s. Qed.

Lemma default_last_cons {A} (a x : A) (l : list A) :
  default a (last (x :: l)) = default x (last l).
Proof.
  revert a x. induction l as [|y l IH]; intros a x; [reflexivity|].
  change (last (x :: y :: l)) with (last (y :: l)). now rewrite (IH a y), (IH x y).
Qed.

Lemma lbListAllFrom_pages {Resp} (R : huawei.SRegion Resp) (resource respKey : string)
    (pages : list (Resp * list Resp)) :
  forall (query : gmap string string) (h : list huawei.Call) (ret : list Resp) (fuel : nat),
    huawei.pagesFrom R resource respKey pages query h ->
    length pages <= fuel ->
    huawei.lbListAllFrom fuel R resource query respKey ret h =
    ((h ++ map (huawei.lbListCall resource) (huawei.queriesOf R pages query))%list,
     default query (last (huawei.queriesOf R pages query)),
     Some (do _ <- huawei.UnmarshalArray R (ret ++ concat (map snd pages))%list;
           Ok (ret ++ concat (map snd pages))%list)).
Proof.
  induction pages as [|page rest IH]; intros query h ret fuel Hp Hf; [destruct Hp|].
  destruct fuel as [|fuel]; [cbn in Hf; lia|].
  cbn [huawei.pagesFrom] in Hp. destruct Hp as (Hl & Ha & Hrest).
  cbn [huawei.lbListAllFrom]. rewrite Hl, Ha. cbn [Wrap].
  rewrite length_zero_eqb.
  destruct rest as [|page' rest].
  - rewrite Hrest. cbn. now rewrite app_nil_r.
  - destruct Hrest as (Hm & Hrest).
    rewrite (proj2 (String.eqb_neq _ _) Hm).
    rewrite (IH _ _ _ fuel Hrest) by (cbn [length] in *; lia).
    cbn [huawei.queriesOf map concat].
    rewrite !default_last_cons, <- !app_assoc. cbn [app]. reflexivity.
Qed.

(** X21.  When the region answers with a last page after finitely many,
    [lbListAll] returns: it asks for each page once, the first under the
    caller's query and each next one under the marker the page before it
    named, and gives the items of all pages in the order of the pages,
    unless they fail to unmarshal.  It leaves the marker of the last page
    asked for in the caller's query. *)
Theorem lbListAll_pages {Resp} (R : huawei.SRegion Resp) (resource respKey : string)
    (pages : list (Resp * list Resp)) (query : gmap string string)
    (h : list huawei.Call) (fuel : nat) :
  huawei.pagesFrom R resource respKey pages query h ->
  length pages <= fuel ->
  huawei.lbListAll fuel R resource query respKey h =
  ((h ++ map (huawei.lbListCall resource) (huawei.queriesOf R pages query))%list,
   default query (last (huawei.queriesOf R pages query)),
   Some (do _ <- huawei.UnmarshalArray R (concat (map snd pages));
         Ok (concat (map snd pages)))).
Proof.
  intros Hp Hf. unfold huawei.lbListAll.
  now rewrite (lbListAllFrom_pages R resource respKey pages query h [] fuel Hp Hf).
Qed.

Lemma lbListAll_pages_witness :
  huawei.lbListAll 5 refRegion "elb/pools" (<["loadbalancer_id" := "lb-1"]> ∅) "pools" [] =
  ([ huawei.lbListCall "elb/pools" (<["loadbalancer_id" := "lb-1"]> ∅);
     huawei.lbListCall "elb/pools" (<["marker" := "m2"]> (<["loadbalancer_id" := "lb-1"]> ∅)) ],
   <["marker" := "m2"]> (<["loadbalancer_id" := "lb-1"]> ∅),
   Some (Ok [RItem "a"; RItem "b"; RItem "c"])).
Proof.
  apply (lbListAll_pages refRegion "elb/pools" "pools"
           [ (RPage [RItem "a"; RItem "b"] "m2", [RItem "a"; RItem "b"]);
             (RPage [RItem "c"] EmptyString, [RItem "c"]) ]
           (<["loadbalancer_id" := "lb-1"]> ∅) [] 5).
  - cbn. repeat split; discriminate.
  - cbn. lia.
Defined.

Lemma lbListAllFrom_endless {Resp} (R : huawei.SRegion Resp) (resource respKey : string) :
  (forall h query, exists resp arr,
      huawei.lbList R h resource query = Ok resp /\
      huawei.GetArray R resp respKey = Ok arr /\
      huawei.next_marker R resp <> EmptyString) ->
  forall fuel query h ret,
    exists h' query',
      huawei.lbListAllFrom fuel R resource query respKey ret h = (h', query', None) /\
      length h' = length h + fuel.
Proof.
  intros Hall. induction fuel as [|fuel IH]; intros query h ret.
  - exists h, query. split; [reflexivity|lia].
  - cbn [huawei.lbListAllFrom].
    destruct (Hall h query) as (resp & arr & -> & -> & Hm). cbn [Wrap].
    rewrite length_zero_eqb, (proj2 (String.eqb_neq _ _) Hm).
    destruct (IH (<["marker" := huawei.next_marker R resp]> query)
                 (h ++ [huawei.lbListCall resource query])%list (ret ++ arr)%list)
      as (h' & query' & -> & Hlen).
    exists h', query'. split; [reflexivity|].
    rewrite Hlen, length_app. cbn [length]. lia.
Qed.

(** X22.  There is no limit on the pages: against a region whose every
    page names a next page, [lbListAll] does not return, whatever the
    number of pages it is given the time for, and has asked for that many
    pages. *)
Theorem lbListAll_no_page_limit {Resp} (R : huawei.SRegion Resp)
    (resource respKey : string) (fuel : nat) (query : gmap string string)
    (h : list huawei.Call) :
  (forall h query, exists resp arr,
      huawei.lbList R h resource query = Ok resp /\
      huawei.GetArray R resp respKey = Ok arr /\
      huawei.next_marker R resp <> EmptyString) ->
  snd (huawei.lbListAll fuel R resource query respKey h) = None /\
  length (fst (fst (huawei.lbListAll fuel R resource query respKey h))) = length h + fuel.
Proof.
  intros Hall. unfold huawei.lbListAll.
  destruct (lbListAllFrom_endless R resource respKey Hall fuel query h [])
    as (h' & query' & -> & Hlen).
  split; [reflexivity|exact Hlen].
Qed.

Lemma lbListAll_no_page_limit_witness :
  snd (huawei.lbListAll 7 endlessRegion "elb/pools" ∅ "pools" []) = None.
Proof.
  apply (lbListAll_no_page_limit endlessRegion "elb/pools" "pools" 7 ∅ []).
  intros h query. exists (RPage [RItem "a"] "again"), [RItem "a"].
  repeat split. discriminate.
Defined.

(** ** Deleting a load balancer *)

Lemma emits_run {A} (m : M huawei.Call A) (P : list huawei.Call -> outcome A -> Prop)
    (h : list huawei.Call) :
  emits m P -> exists calls r, m h = ((h ++ calls)%list, r) /\ P calls r.
Proof. intros H. destruct (H h) as (calls & Heq & HP). eauto. Qed.

Lemma emits_intro {A} (m : M huawei.Call A) (P : list huawei.Call -> outcome A -> Prop) :
  (forall h, exists calls r, m h = ((h ++ calls)%list, r) /\ P calls r) -> emits m P.
Proof.
  intros H h. destruct (H h) as (calls & r & Heq & HP).
  exists calls. rewrite Heq. cbn [snd]. auto.
Qed.

Lemma removeBackends_calls {Resp} (R : huawei.SRegion Resp) (poolId : string)
    (backends : list huawei.SElbBackend) :
  emits (huawei.removeBackends R poolId backends)
    (fun calls _ => forallb huawei.poolStep calls = true /\
                    omap huawei.deletedPool calls = []).
Proof.
  apply emits_intro. induction backends as [|backend rest IH]; intros h.
  - exists [], (Ok tt). cbn. now rewrite app_nil_r.
  - cbn [huawei.removeBackends]. unfold bindM, wrapM, callM.
    destruct (huawei.RemoveLoadBalancerBackend R h poolId (huawei.ID backend)) as [[]|m|];
      cbn [Wrap].
    + destruct (IH (h ++ [huawei.RemoveLoadBalancerBackendCall poolId (huawei.ID backend)])%list)
        as (calls & r & -> & Hf & Hd).
      eexists (_ :: calls), r. split; [now rewrite <- app_assoc|].
      cbn. now rewrite Hf, Hd.
    + eexists [_], _. split; [reflexivity|]. now cbn.
    + eexists [_], _. split; [reflexivity|]. now cbn.
Qed.

Lemma deletePool_calls {Resp} (R : huawei.SRegion Resp) (res : huawei.Pool) :
  emits (huawei.deletePool R res)
    (fun calls r =>
       forallb huawei.poolStep calls = true /\
       omap huawei.deletedPool calls `prefix_of` [huawei.PoolId res] /\
       (r = Ok tt -> omap huawei.deletedPool calls = [huawei.PoolId res])).
Proof.
  apply emits_intro. intros h. unfold huawei.deletePool.
  unfold bindM at 1. unfold wrapM at 1. unfold callM at 1.
  destruct (huawei.getLoadBalancerBackends R h (huawei.PoolId res)) as [backends|m|];
    cbn [Wrap];
    [|eexists [_], _; split; [reflexivity|]; cbn; split; [reflexivity|];
      split; [apply prefix_nil|discriminate]..].
  unfold bindM at 1.
  destruct (emits_run _ _ (h ++ [huawei.getLoadBalancerBackendsCall (huawei.PoolId res)])%list
              (removeBackends_calls R (huawei.PoolId res) backends))
    as (c1 & r1 & -> & Hf1 & Hd1).
  destruct r1 as [[]|m|];
    [|eexists (_ :: c1), _; split; [now rewrite <- app_assoc|]; cbn; rewrite Hf1, Hd1;
      split; [reflexivity|]; split; [apply prefix_nil|discriminate]..].
  unfold bindM at 1. unfold wrapM at 1. unfold callM at 1.
  destruct (huawei.GetLoadBalancerBackendGroup R _ (huawei.PoolId res)) as [pool|m|];
    cbn [Wrap];
    [|eexists (_ :: c1 ++ [_])%list, _;
      (split; [now rewrite <- !app_assoc|]); cbn;
      rewrite forallb_app, omap_app, Hf1, Hd1; cbn; unfold HasPrefix; rewrite ?prefix_append;
      split; [reflexivity|]; split; [apply prefix_nil|discriminate]..].
  unfold bindM at 1.
  destruct (0 <? String.length (huawei.HealthMonitorID pool))%nat.
  - unfold wrapM at 1. unfold huawei.DeleteLoadbalancerHealthCheck, bindM at 1, callM at 1.
    destruct (huawei.lbDelete R _ _) as [resp|m|]; cbn [retM Wrap];
      [|eexists (_ :: c1 ++ [_; _])%list, _;
        (split; [now rewrite <- !app_assoc|]); cbn;
        rewrite forallb_app, omap_app, Hf1, Hd1; cbn; unfold HasPrefix; rewrite ?prefix_append;
        split; [reflexivity|]; split; [apply prefix_nil|discriminate]..].
    unfold wrapM, callM.
    eexists (_ :: c1 ++ [_; _; _])%list, _.
    split; [now rewrite <- !app_assoc|]. cbn.
    rewrite forallb_app, omap_app, Hf1, Hd1. cbn. unfold HasPrefix. rewrite ?prefix_append.
    split; [reflexivity|]. split; [reflexivity|]. reflexivity.
  - unfold retM, wrapM, callM.
    eexists (_ :: c1 ++ [_; _])%list, _.
    split; [now rewrite <- !app_assoc|]. cbn.
    rewrite forallb_app, omap_app, Hf1, Hd1. cbn. unfold HasPrefix. rewrite ?prefix_append.
    split; [reflexivity|]. split; [reflexivity|]. reflexivity.
Qed.

Lemma deletePools_calls {Resp} (R : huawei.SRegion Resp) (pools : list huawei.Pool) :
  emits (huawei.deletePools R pools)
    (fun calls r =>
       forallb huawei.poolStep calls = true /\
       omap huawei.deletedPool calls `prefix_of` map huawei.PoolId pools /\
       (r = Ok tt -> omap huawei.deletedPool calls = map huawei.PoolId pools)).
Proof.
  apply emits_intro. induction pools as [|res rest IH]; intros h.
  - exists [], (Ok tt). split; [cbn; now rewrite app_nil_r|].
    cbn. split; [reflexivity|]. split; [apply prefix_nil|reflexivity].
  - cbn [huawei.deletePools map]. unfold bindM.
    destruct (emits_run _ _ h (deletePool_calls R res)) as (c1 & r1 & -> & Hf1 & Hp1 & Hd1).
    destruct r1 as [[]|m|].
    + destruct (IH (h ++ c1)%list) as (c2 & r2 & -> & Hf2 & Hp2 & Hd2).
      exists (c1 ++ c2)%list, r2. split; [now rewrite app_assoc|].
      rewrite forallb_app, omap_app, Hf1, Hf2, (Hd1 eq_refl). cbn [andb app].
      split; [reflexivity|]. split; [now apply prefix_cons|].
      intros Hr. now rewrite (Hd2 Hr).
    + exists c1, (Err m). split; [reflexivity|]. split; [exact Hf1|].
      split; [|discriminate].
      etransitivity; [exact Hp1|]. apply prefix_cons, prefix_nil.
    + exists c1, Panic. split; [reflexivity|]. split; [exact Hf1|].
      split; [|discriminate].
      etransitivity; [exact Hp1|]. apply prefix_cons, prefix_nil.
Qed.

Lemma deleteListeners_calls {Resp} (R : huawei.SRegion Resp)
    (listeners : list huawei.Listener) :
  emits (huawei.deleteListeners R listeners)
    (fun calls r =>
       exists ids, calls = map huawei.DeleteElbListenerCall ids /\
                   ids `prefix_of` map huawei.ListenerId listeners /\
                   (r = Ok tt -> ids = map huawei.ListenerId listeners)).
Proof.
  apply emits_intro. induction listeners as [|lis rest IH]; intros h.
  - exists [], (Ok tt). split; [cbn; now rewrite app_nil_r|].
    exists []. cbn. split; [reflexivity|]. split; [apply prefix_nil|reflexivity].
  - cbn [huawei.deleteListeners map]. unfold bindM, wrapM, callM.
    destruct (huawei.DeleteElbListener R h (huawei.ListenerId lis)) as [[]|m|]; cbn [Wrap].
    + destruct (IH (h ++ [huawei.DeleteElbListenerCall (huawei.ListenerId lis)])%list)
        as (c2 & r2 & -> & ids & -> & Hp & Hd).
      eexists (_ :: map huawei.DeleteElbListenerCall ids), r2.
      split; [now rewrite <- app_assoc|].
      exists (huawei.ListenerId lis :: ids). split; [reflexivity|].
      split; [now apply prefix_cons|]. intros Hr. now rewrite (Hd Hr).
    + eexists [_], _. split; [reflexivity|].
      exists [huawei.ListenerId lis]. split; [reflexivity|].
      split; [apply prefix_cons, prefix_nil|discriminate].
    + eexists [_], _. split; [reflexivity|].
      exists [huawei.ListenerId lis]. split; [reflexivity|].
      split; [apply prefix_cons, prefix_nil|discriminate].
Qed.

(** *** A plan carried out until a call fails *)

Lemma untilFailure_true {Resp} (R : huawei.SRegion Resp) (plan : list huawei.Call) :
  forall h, snd (huawei.untilFailure R h plan) = true ->
            fst (huawei.untilFailure R h plan) = plan.
Proof.
  induction plan as [|c plan IH]; intros h; cbn [huawei.untilFailure]; [reflexivity|].
  destruct (huawei.answersOk R h c); [|discriminate].
  specialize (IH (h ++ [c])%list).
  destruct (huawei.untilFailure R (h ++ [c])%list plan) as [made ok]. cbn [fst snd] in *.
  intros Hok. now rewrite (IH Hok).
Qed.

Lemma untilFailure_false {Resp} (R : huawei.SRegion Resp) (plan : list huawei.Call) :
  forall h, snd (huawei.untilFailure R h plan) = false ->
    exists made failed rest,
      plan = (made ++ failed :: rest)%list /\
      fst (huawei.untilFailure R h plan) = (made ++ [failed])%list /\
      huawei.untilFailure R h made = (made, true) /\
      huawei.answersOk R (h ++ made)%list failed = false.
Proof.
  induction plan as [|c plan IH]; intros h; cbn [huawei.untilFailure]; [discriminate|].
  destruct (huawei.answersOk R h c) eqn:Hc.
  - specialize (IH (h ++ [c])%list).
    destruct (huawei.untilFailure R (h ++ [c])%list plan) as [made0 ok]. cbn [fst snd] in *.
    intros Hok. destruct (IH Hok) as (made & failed & rest & -> & -> & Hm & Hf).
    exists (c :: made), failed, rest. split; [reflexivity|]. split; [reflexivity|]. split.
    + cbn [huawei.untilFailure]. now rewrite Hc, Hm.
    + now rewrite <- app_assoc in Hf.
  - intros _. exists [], c, plan. cbn [app huawei.untilFailure].
    rewrite app_nil_r. auto.
Qed.

Lemma untilFailure_app {Resp} (R : huawei.SRegion Resp) (p1 p2 : list huawei.Call) :
  forall h,
    huawei.untilFailure R h (p1 ++ p2) =
    if snd (huawei.untilFailure R h p1)
    then ((p1 ++ fst (huawei.untilFailure R (h ++ p1) p2))%list,
          snd (huawei.untilFailure R (h ++ p1) p2))
    else huawei.untilFailure R h p1.
Proof.
  induction p1 as [|c p1 IH]; intros h; cbn [app huawei.untilFailure].
  - cbn [snd]. rewrite app_nil_r. now destruct (huawei.untilFailure R h p2).
  - destruct (huawei.answersOk R h c); [|reflexivity].
    rewrite IH.
    destruct (huawei.untilFailure R (h ++ [c])%list p1) as [made ok]. cbn [snd].
    destruct ok; [|reflexivity].
    rewrite <- app_assoc. cbn [app]. reflexivity.
Qed.

Lemma follows_ext {Resp} (R : huawei.SRegion Resp) (m : M huawei.Call unit)
    (p p' : list huawei.Call -> list huawei.Call) :
  (forall h, p h = p' h) -> huawei.follows R m p -> huawei.follows R m p'.
Proof. intros He H h. rewrite <- He. apply H. Qed.

Lemma follows_ret {Resp} (R : huawei.SRegion Resp) :
  huawei.follows R (retM tt) (fun _ => []).
Proof. intros h. cbn. rewrite app_nil_r. now split. Qed.

Lemma follows_bind {Resp} (R : huawei.SRegion Resp) (m1 m2 : M huawei.Call unit)
    (p1 p2 : list huawei.Call -> list huawei.Call) :
  huawei.follows R m1 p1 -> huawei.follows R m2 p2 ->
  huawei.follows R (bindM m1 (fun _ => m2)) (fun h => (p1 h ++ p2 (h ++ p1 h))%list).
Proof.
  intros H1 H2 h. unfold bindM. destruct (H1 h) as [Hf1 Hs1].
  rewrite untilFailure_app.
  destruct (m1 h) as [h1 r1]. cbn [fst snd] in Hf1, Hs1.
  destruct (snd (huawei.untilFailure R h (p1 h))) eqn:Hok.
  - rewrite (proj2 Hs1 eq_refl). rewrite (untilFailure_true R _ _ Hok) in Hf1. subst h1.
    destruct (H2 (h ++ p1 h)%list) as [Hf2 Hs2]. cbn [fst snd].
    split; [now rewrite Hf2, app_assoc|exact Hs2].
  - destruct r1 as [[]|e|].
    + destruct Hs1 as [Hs1 _]. discriminate (Hs1 eq_refl).
    + cbn [fst snd]. split; [exact Hf1|]. rewrite Hok. split; discriminate.
    + cbn [fst snd]. split; [exact Hf1|]. rewrite Hok. split; discriminate.
Qed.

Lemma follows_call_bind {Resp A} (R : huawei.SRegion Resp) (c : huawei.Call)
    (answer : list huawei.Call -> outcome A) (msg : string)
    (k : A -> M huawei.Call unit) (pk : A -> list huawei.Call -> list huawei.Call)
    (d : list huawei.Call -> list huawei.Call) :
  (forall h, huawei.answersOk R h c = is_Ok (answer h)) ->
  (forall a, huawei.follows R (k a) (pk a)) ->
  huawei.follows R (bindM (wrapM (callM c answer) msg) k)
    (fun h => c :: match answer h with
                   | Ok a => pk a (h ++ [c])%list
                   | _ => d h
                   end).
Proof.
  intros Ha Hk h. unfold bindM, wrapM, callM. cbn [huawei.untilFailure]. rewrite Ha.
  destruct (answer h) as [a|e|]; cbn [Wrap is_Ok fst snd].
  - destruct (Hk a (h ++ [c])%list) as [Hf Hs].
    destruct (huawei.untilFailure R (h ++ [c])%list (pk a (h ++ [c])%list)) as [made ok].
    cbn [fst snd] in *. split; [|exact Hs].
    rewrite Hf, <- app_assoc. reflexivity.
  - split; [reflexivity|]. split; discriminate.
  - split; [reflexivity|]. split; discriminate.
Qed.

Lemma follows_call {Resp} (R : huawei.SRegion Resp) (c : huawei.Call)
    (answer : list huawei.Call -> outcome unit) (msg : string) :
  (forall h, huawei.answersOk R h c = is_Ok (answer h)) ->
  huawei.follows R (wrapM (callM c answer) msg) (fun _ => [c]).
Proof.
  intros Ha h. unfold wrapM, callM. cbn [huawei.untilFailure]. rewrite Ha.
  destruct (answer h) as [[]|e|]; cbn [Wrap is_Ok fst snd];
    (split; [reflexivity|]); split; (reflexivity || discriminate).
Qed.

Lemma follows_lbDelete {Resp} (R : huawei.SRegion Resp) (resource msg : string) :
  huawei.follows R
    (wrapM (perform _ <- callM (huawei.lbDeleteCall resource)
                               (fun h => huawei.lbDelete R h resource); retM tt) msg)
    (fun _ => [huawei.lbDeleteCall resource]).
Proof.
  intros h. unfold wrapM, bindM, callM, retM. cbn [huawei.untilFailure huawei.answersOk].
  destruct (huawei.lbDelete R h resource) as [resp|e|]; cbn [Wrap is_Ok fst snd];
    (split; [reflexivity|]); split; (reflexivity || discriminate).
Qed.

Lemma removeBackends_follows {Resp} (R : huawei.SRegion Resp) (poolId : string)
    (backends : list huawei.SElbBackend) :
  huawei.follows R (huawei.removeBackends R poolId backends)
    (fun _ => map (fun backend =>
                     huawei.RemoveLoadBalancerBackendCall poolId (huawei.ID backend))
                  backends).
Proof.
  induction backends as [|backend rest IH]; [apply follows_ret|].
  cbn [huawei.removeBackends map].
  exact (follows_bind R _ _
           (fun _ => [huawei.RemoveLoadBalancerBackendCall poolId (huawei.ID backend)])
           (fun _ => map (fun backend =>
                            huawei.RemoveLoadBalancerBackendCall poolId (huawei.ID backend))
                         rest)
           (follows_call R
              (huawei.RemoveLoadBalancerBackendCall poolId (huawei.ID backend))
              (fun h => huawei.RemoveLoadBalancerBackend R h poolId (huawei.ID backend))
              _ (fun h => eq_refl))
           IH).
Qed.

Lemma deleteListeners_follows {Resp} (R : huawei.SRegion Resp)
    (listeners : list huawei.Listener) :
  huawei.follows R (huawei.deleteListeners R listeners)
    (fun _ => map (fun lis => huawei.DeleteElbListenerCall (huawei.ListenerId lis)) listeners).
Proof.
  induction listeners as [|lis rest IH]; [apply follows_ret|].
  cbn [huawei.deleteListeners map].
  exact (follows_bind R _ _
           (fun _ => [huawei.DeleteElbListenerCall (huawei.ListenerId lis)])
           (fun _ => map (fun lis => huawei.DeleteElbListenerCall (huawei.ListenerId lis)) rest)
           (follows_call R
              (huawei.DeleteElbListenerCall (huawei.ListenerId lis))
              (fun h => huawei.DeleteElbListener R h (huawei.ListenerId lis))
              _ (fun h => eq_refl))
           IH).
Qed.

Lemma healthCheck_follows {Resp} (R : huawei.SRegion Resp) (monitor : string) :
  huawei.follows R
    (if (0 <? String.length monitor)%nat
     then wrapM (huawei.DeleteLoadbalancerHealthCheck R monitor) "delete health check"
     else retM tt)
    (fun _ => if String.eqb monitor EmptyString then []
              else [huawei.lbDeleteCall ("elb/healthmonitors/" ++ monitor)]).
Proof.
  rewrite length_zero_ltb.
  destruct (String.eqb monitor EmptyString); cbn [negb];
    [apply follows_ret|apply follows_lbDelete].
Qed.

Lemma deletePool_follows {Resp} (R : huawei.SRegion Resp) (res : huawei.Pool) :
  huawei.follows R (huawei.deletePool R res) (fun h => huawei.poolPlan R h res).
Proof.
  unfold huawei.deletePool.
  pose (poolId := huawei.PoolId res).
  pose (removes := fun backends : list huawei.SElbBackend =>
          map (fun backend =>
                 huawei.RemoveLoadBalancerBackendCall poolId (huawei.ID backend)) backends).
  pose (del := huawei.DeleteLoadBalancerBackendGroupCall poolId).
  pose (monitorPlan := fun pool : huawei.SElbBackendGroup =>
          if String.eqb (huawei.HealthMonitorID pool) EmptyString then []
          else [huawei.lbDeleteCall ("elb/healthmonitors/" ++ huawei.HealthMonitorID pool)]).
  pose (tail := fun h2 : list huawei.Call =>
          huawei.GetLoadBalancerBackendGroupCall poolId
          :: match huawei.GetLoadBalancerBackendGroup R h2 poolId with
             | Ok pool => (monitorPlan pool ++ [del])%list
             | _ => [del]
             end).
  assert (Htail : forall k3 : huawei.SElbBackendGroup -> M huawei.Call unit,
            (forall pool, huawei.follows R (k3 pool)
                            (fun _ => (monitorPlan pool ++ [del])%list)) ->
            huawei.follows R
              (bindM (wrapM (callM (huawei.GetLoadBalancerBackendGroupCall poolId)
                               (fun h => huawei.GetLoadBalancerBackendGroup R h poolId))
                            "GetLoadBalancerBackendGroup") k3)
              tail).
  { intros k3 Hk3.
    exact (follows_call_bind R (huawei.GetLoadBalancerBackendGroupCall poolId)
             (fun h => huawei.GetLoadBalancerBackendGroup R h poolId) _ k3
             (fun pool _ => (monitorPlan pool ++ [del])%list)
             (fun _ => [del]) (fun h => eq_refl) Hk3). }
  apply (follows_ext R _
           (fun h =>
              huawei.getLoadBalancerBackendsCall poolId
              :: match huawei.getLoadBalancerBackends R h poolId with
                 | Ok backends =>
                     (removes backends
                      ++ tail ((h ++ [huawei.getLoadBalancerBackendsCall poolId])
                               ++ removes backends))%list
                 | _ => tail ((h ++ [huawei.getLoadBalancerBackendsCall poolId]) ++ [])%list
                 end)).
  - intros h. unfold huawei.poolPlan, tail, monitorPlan, del, removes, poolId. cbn zeta.
    destruct (huawei.getLoadBalancerBackends R h (huawei.PoolId res)) as [backends|e|];
      cbn [map app];
      destruct (huawei.GetLoadBalancerBackendGroup R _ (huawei.PoolId res)) as [pool|e'|];
      reflexivity.
  - refine (follows_call_bind R (huawei.getLoadBalancerBackendsCall poolId)
              (fun h => huawei.getLoadBalancerBackends R h poolId) _ _
              (fun backends h1 => (removes backends ++ tail (h1 ++ removes backends))%list)
              (fun h => tail ((h ++ [huawei.getLoadBalancerBackendsCall poolId]) ++ [])%list)
              (fun h => eq_refl) _).
    intros backends.
    refine (follows_bind R _ _ (fun _ => removes backends) tail
              (removeBackends_follows R poolId backends) _).
    apply Htail. intros pool.
    refine (follows_bind R _ _ (fun _ => monitorPlan pool) (fun _ => [del])
              (healthCheck_follows R (huawei.HealthMonitorID pool)) _).
    exact (follows_call R del
             (fun h => huawei.DeleteLoadBalancerBackendGroup R h poolId) _
             (fun h => eq_refl)).
Qed.

Lemma deletePools_follows {Resp} (R : huawei.SRegion Resp) (pools : list huawei.Pool) :
  huawei.follows R (huawei.deletePools R pools) (fun h => huawei.poolsPlan R h pools).
Proof.
  induction pools as [|res rest IH]; [apply follows_ret|].
  cbn [huawei.deletePools huawei.poolsPlan].
  exact (follows_bind R _ _ _ _ (deletePool_follows R res) IH).
Qed.

Lemma Delete_follows {Resp} (R : huawei.SRegion Resp) (self : huawei.SLoadbalancer) :
  huawei.follows R (huawei.Delete R self) (fun h => huawei.deletePlan R h self).
Proof.
  unfold huawei.Delete, huawei.deletePlan.
  apply (follows_bind R _ _ _ (fun _ => (_ ++ [_])%list) (deletePools_follows R _)).
  apply (follows_bind R _ _ (fun _ => _) (fun _ => [_]) (deleteListeners_follows R _)).
  intros h. unfold huawei.DeleteLoadBalancer, huawei.GetId, bindM, callM, retM.
  cbn [huawei.untilFailure huawei.answersOk].
  destruct (huawei.lbDelete R h _) as [resp|e|]; cbn [is_Ok fst snd];
    (split; [reflexivity|]); split; (reflexivity || discriminate).
Qed.

Lemma poolPlan_poolStep {Resp} (R : huawei.SRegion Resp) (h : list huawei.Call)
    (res : huawei.Pool) :
  forallb huawei.poolStep (huawei.poolPlan R h res) = true.
Proof.
  unfold huawei.poolPlan. cbn zeta. rewrite !forallb_app. cbn [forallb huawei.poolStep andb].
  assert (Hr : forall backends : list huawei.SElbBackend,
            forallb huawei.poolStep
              (map (fun backend =>
                      huawei.RemoveLoadBalancerBackendCall (huawei.PoolId res)
                        (huawei.ID backend)) backends) = true).
  { intros backends. induction backends as [|b bs IH]; [reflexivity|exact IH]. }
  rewrite Hr. cbn [andb].
  destruct (String.eqb _ EmptyString); cbn [forallb huawei.poolStep andb]; [reflexivity|].
  unfold HasPrefix. now rewrite prefix_append.
Qed.

Lemma poolsPlan_poolStep {Resp} (R : huawei.SRegion Resp) (pools : list huawei.Pool) :
  forall h, forallb huawei.poolStep (huawei.poolsPlan R h pools) = true.
Proof.
  induction pools as [|res rest IH]; intros h; [reflexivity|].
  cbn [huawei.poolsPlan]. now rewrite forallb_app, poolPlan_poolStep, IH.
Qed.

(** X23.  [Delete] carries out a plan and stops at the first call that
    fails.  The plan is: for each backend group in order, its backends
    listed and each one removed, the group fetched, its health monitor
    deleted if it has one, and the group deleted; then each listener
    deleted, in order; then the load balancer deleted.  [Delete] makes the
    calls of the plan in this order, up to and with the first that the
    region answers with an error, and returns nil exactly when none did,
    which is when the whole plan was carried out.  The request that
    deletes the load balancer is the last of the plan and is in it once. *)
Theorem Delete_stages {Resp} (R : huawei.SRegion Resp) (self : huawei.SLoadbalancer)
    (h : list huawei.Call) :
  let deleteLb := huawei.lbDeleteCall ("elb/loadbalancers/" ++ huawei.Id self) in
  let plan := huawei.deletePlan R h self in
  let run := huawei.untilFailure R h plan in
  fst (huawei.Delete R self h) = (h ++ fst run)%list /\
  (snd (huawei.Delete R self h) = Ok tt <-> snd run = true) /\
  (snd run = true -> fst run = plan) /\
  (snd run = false ->
   exists made failed rest,
     plan = (made ++ failed :: rest)%list /\
     fst run = (made ++ [failed])%list /\
     huawei.untilFailure R h made = (made, true) /\
     huawei.answersOk R (h ++ made)%list failed = false) /\
  (exists before, plan = (before ++ [deleteLb])%list /\ ~ In deleteLb before).
Proof.
  cbn zeta. destruct (Delete_follows R self h) as [Hf Hs].
  split; [exact Hf|]. split; [exact Hs|].
  split; [apply untilFailure_true|]. split; [apply untilFailure_false|].
  unfold huawei.deletePlan. eexists. split; [now rewrite app_assoc|].
  intros [Hin|Hin]%in_app_or.
  - pose proof (poolsPlan_poolStep R (huawei.Pools self) h) as Hp.
    rewrite forallb_forall in Hp. specialize (Hp _ Hin). vm_compute in Hp. discriminate.
  - apply in_map_iff in Hin as (lis & Heq & _). discriminate.
Qed.

(** A deletion in which no call fails. *)
Lemma Delete_stages_witness :
  huawei.Delete refRegion refLoadbalancer [] =
  ([ huawei.getLoadBalancerBackendsCall "p1";
     huawei.RemoveLoadBalancerBackendCall "p1" "b1";
     huawei.RemoveLoadBalancerBackendCall "p1" "b2";
     huawei.GetLoadBalancerBackendGroupCall "p1";
     huawei.lbDeleteCall "elb/healthmonitors/hm-p1";
     huawei.DeleteLoadBalancerBackendGroupCall "p1";
     huawei.getLoadBalancerBackendsCall "p2";
     huawei.RemoveLoadBalancerBackendCall "p2" "b1";
     huawei.RemoveLoadBalancerBackendCall "p2" "b2";
     huawei.GetLoadBalancerBackendGroupCall "p2";
     huawei.lbDeleteCall "elb/healthmonitors/hm-p2";
     huawei.DeleteLoadBalancerBackendGroupCall "p2";
     huawei.DeleteElbListenerCall "l1";
     huawei.DeleteElbListenerCall "l2";
     huawei.lbDeleteCall "elb/loadbalancers/lb-1" ],
   Ok tt).
Proof.
  destruct (Delete_stages refRegion refLoadbalancer []) as (Hf & Hs & _).
  destruct (huawei.Delete refRegion refLoadbalancer []) as [h r]. cbn [fst snd] in Hf, Hs.
  rewrite Hf, (proj2 Hs eq_refl). reflexivity.
Defined.

(** X24.  Against a region that refuses to delete a listener, [Delete]
    of a load balancer with a listener returns the error under the name of
    the listener and the request that deletes the load balancer is not
    made, though every backend group is already deleted by then. *)
Theorem Delete_listener_error {Resp} (R : huawei.SRegion Resp)
    (self : huawei.SLoadbalancer) (h : list huawei.Call)
    (lis : huawei.Listener) (rest : list huawei.Listener) (m : string) :
  huawei.Listeners self = lis :: rest ->
  (forall h, huawei.DeleteElbListener R h (huawei.ListenerId lis) = Err m) ->
  snd (huawei.deletePools R (huawei.Pools self) h) = Ok tt ->
  exists poolCalls,
    huawei.Delete R self h =
      ((h ++ poolCalls ++ [huawei.DeleteElbListenerCall (huawei.ListenerId lis)])%list,
       Err ("delete listener " ++ huawei.ListenerId lis ++ ": " ++ m)) /\
    omap huawei.deletedPool poolCalls = map huawei.PoolId (huawei.Pools self).
Proof.
  intros Hl Herr Hpools. unfold huawei.Delete, bindM.
  destruct (emits_run _ _ h (deletePools_calls R (huawei.Pools self)))
    as (c1 & r1 & Heq & Hf1 & Hp1 & Hd1).
  rewrite Heq in Hpools |- *. cbn [snd] in Hpools. subst r1.
  rewrite Hl. cbn [huawei.deleteListeners]. unfold bindM, wrapM, callM.
  rewrite Herr. cbn [Wrap].
  exists c1. split; [now rewrite <- app_assoc|]. exact (Hd1 eq_refl).
Qed.

Lemma Delete_listener_error_witness :
  exists poolCalls,
    huawei.Delete keepListenersRegion refLoadbalancer [] =
      (([] ++ poolCalls ++ [huawei.DeleteElbListenerCall "l1"])%list,
       Err "delete listener l1: listener in use") /\
    omap huawei.deletedPool poolCalls = ["p1"; "p2"].
Proof.
  exact (Delete_listener_error keepListenersRegion refLoadbalancer []
           {| huawei.ListenerId := "l1" |} [ {| huawei.ListenerId := "l2" |} ]
           "listener in use" eq_refl (fun _ => eq_refl) eq_refl).
Defined.

(** ** The address and the network of a load balancer *)

Lemma fold_set_eip (eips : list huawei.SEipAddress) (self : huawei.SLoadbalancer) :
  fold_left (fun self e => huawei.set_eip self (Some e)) eips self =
  match last eips with
  | Some e => huawei.set_eip self (Some e)
  | None => self
  end.
Proof.
  revert self. induction eips as [|e rest IH]; intros self; [reflexivity|].
  cbn [fold_left]. rewrite IH.
  destruct rest as [|e' rest]; [reflexivity|].
  change (last (e :: e' :: rest)) with (last (e' :: rest)).
  destruct (last (e' :: rest)) eqn:Hl; [reflexivity|].
  apply last_None in Hl. discriminate.
Qed.

(** X25.  On a load balancer with no address yet, [GetEip] asks the
    region once for the addresses of the port and takes the last of them;
    the error of that call is never looked at.  An address found is kept:
    later calls return it without asking any region.  When there is none,
    nothing is kept, the charge type reads as by traffic and the bandwidth
    as 0. *)
Theorem GetEip_last {Resp} (R : huawei.SRegion Resp) (self : huawei.SLoadbalancer)
    (h : list huawei.Call) :
  huawei.eip self = None ->
  let eips := huawei.GetEips R h (huawei.VipPortId self) in
  let self1 := snd (fst (huawei.GetEip R self h)) in
  huawei.GetEip R self h =
    ((h ++ [huawei.GetEipsCall (huawei.VipPortId self)])%list, self1, last eips) /\
  self1 = match last eips with
          | Some e => huawei.set_eip self (Some e)
          | None => self
          end /\
  (forall Resp' (R' : huawei.SRegion Resp') h' e,
     last eips = Some e -> huawei.GetEip R' self1 h' = (h', self1, Some e)) /\
  snd (huawei.GetIEIP R self h) = last eips /\
  snd (huawei.GetChargeType R self h) =
    match last eips with
    | Some e => huawei.GetInternetChargeType R e
    | None => huawei.EIP_CHARGE_TYPE_BY_TRAFFIC (huawei.consts R)
    end /\
  snd (huawei.GetEgressMbps R self h) =
    match last eips with
    | Some e => huawei.GetBandwidth R e
    | None => 0%Z
    end.
Proof.
  intros Hnone. cbn zeta.
  assert (Heq : huawei.GetEip R self h =
    ((h ++ [huawei.GetEipsCall (huawei.VipPortId self)])%list,
     match last (huawei.GetEips R h (huawei.VipPortId self)) with
     | Some e => huawei.set_eip self (Some e)
     | None => self
     end, last (huawei.GetEips R h (huawei.VipPortId self)))).
  { unfold huawei.GetEip. rewrite Hnone, fold_set_eip.
    destruct (last (huawei.GetEips R h (huawei.VipPortId self))); cbn; now rewrite ?Hnone. }
  unfold huawei.GetIEIP, huawei.GetChargeType, huawei.GetEgressMbps.
  rewrite Heq. cbn [fst snd].
  split; [reflexivity|]. split; [reflexivity|]. split.
  - intros Resp' R' h' e He. rewrite He. reflexivity.
  - destruct (last (huawei.GetEips R h (huawei.VipPortId self))); cbn; auto.
Qed.

Lemma GetEip_last_witness :
  huawei.GetEip refRegion refLoadbalancer [] =
  ([huawei.GetEipsCall "port-1"],
   huawei.set_eip refLoadbalancer (Some {| huawei.EipID := "eip-2" |}),
   Some {| huawei.EipID := "eip-2" |}).
Proof.
  exact (proj1 (GetEip_last refRegion refLoadbalancer [] eq_refl)).
Defined.

(** X26.  [GetNetwork] swallows the errors of the region.  With no
    network kept yet it fetches the port and then the network of the port;
    a port that cannot be fetched, and likewise a network that cannot be
    fetched, reads as no network: the network ids are empty and the VPC id
    is the empty string, never an error, nothing is kept and the next call
    asks again.  A network found is kept, and read from then on without a
    call to any region. *)
Theorem GetNetwork_errors {Resp} (R : huawei.SRegion Resp) (self : huawei.SLoadbalancer)
    (h : list huawei.Call) :
  match huawei.subnet self with
  | Some net =>
      huawei.GetNetworkIds R self h = (h, self, Ok [huawei.NetworkGetId net]) /\
      huawei.GetVpcId R self h = (h, self, Ok (huawei.VpcID net))
  | None =>
      let h1 := (h ++ [huawei.GetPortCall (huawei.VipPortId self)])%list in
      match huawei.GetPort R h (huawei.VipPortId self) with
      | Err _ =>
          huawei.GetNetworkIds R self h = (h1, self, Ok []) /\
          huawei.GetVpcId R self h = (h1, self, Ok EmptyString)
      | Panic =>
          huawei.GetNetworkIds R self h = (h1, self, Panic) /\
          huawei.GetVpcId R self h = (h1, self, Panic)
      | Ok port =>
          let h2 := (h1 ++ [huawei.getNetworkCall (huawei.NetworkID port)])%list in
          match huawei.getNetwork R h1 (huawei.NetworkID port) with
          | Err _ =>
              huawei.GetNetworkIds R self h = (h2, self, Ok []) /\
              huawei.GetVpcId R self h = (h2, self, Ok EmptyString)
          | Panic =>
              huawei.GetNetworkIds R self h = (h2, self, Panic) /\
              huawei.GetVpcId R self h = (h2, self, Panic)
          | Ok net =>
              let kept := huawei.set_subnet self (Some net) in
              huawei.GetNetworkIds R self h = (h2, kept, Ok [huawei.NetworkGetId net]) /\
              huawei.GetVpcId R self h = (h2, kept, Ok (huawei.VpcID net)) /\
              (forall Resp' (R' : huawei.SRegion Resp') h',
                 huawei.GetNetworkIds R' kept h' = (h', kept, Ok [huawei.NetworkGetId net]) /\
                 huawei.GetVpcId R' kept h' = (h', kept, Ok (huawei.VpcID net)))
          end
      end
  end.
Proof.
  unfold huawei.GetNetworkIds, huawei.GetVpcId, huawei.GetNetwork.
  destruct (huawei.subnet self) as [net|] eqn:Hs; [split; reflexivity|].
  cbn zeta.
  destruct (huawei.GetPort R h (huawei.VipPortId self)) as [port|m|];
    [|split; reflexivity..].
  destruct (huawei.getNetwork R _ (huawei.NetworkID port)) as [net|m|];
    [|split; reflexivity..].
  split; [reflexivity|]. split; [reflexivity|].
  intros Resp' R' h'. split; reflexivity.
Qed.

(** A network that cannot be fetched. *)
Lemma GetNetwork_errors_witness :
  huawei.GetNetworkIds noNetworkRegion refLoadbalancer [] =
    ([huawei.GetPortCall "port-1"; huawei.getNetworkCall "net-1"], refLoadbalancer, Ok []) /\
  huawei.GetVpcId noNetworkRegion refLoadbalancer [] =
    ([huawei.GetPortCall "port-1"; huawei.getNetworkCall "net-1"], refLoadbalancer,
     Ok EmptyString).
Proof.
  exact (GetNetwork_errors noNetworkRegion refLoadbalancer []).
Defined.

(** ** Creating a load balancer *)

(** X27.  When [CreateLoadBalancer] returns an error beside a load
    balancer, the load balancer exists: the network was fetched, the
    request that creates the load balancer succeeded and its response was
    read, an address was named, and it is the association of that address
    with the port of the new load balancer that failed; the error is that
    failure under the name of the step. *)
Theorem CreateLoadBalancer_error_with_lb {Resp} (R : huawei.SRegion Resp)
    (loadbalancer : cloudprovider.SLoadbalancerCreateOptions)
    (h h' : list huawei.Call) (ret : huawei.SLoadbalancer) (e : string) :
  huawei.CreateLoadBalancer R loadbalancer h = (h', Ok (ret, Some e)) ->
  exists networkId rest subnet body resp m,
    cloudprovider.NetworkIds loadbalancer = networkId :: rest /\
    huawei.getNetwork R h networkId = Ok subnet /\
    h' = (h ++ [ huawei.getNetworkCall networkId;
                 huawei.lbCreateCall "elb/loadbalancers" body;
                 huawei.AssociateEipWithPortIdCall (cloudprovider.EipId loadbalancer)
                   (huawei.VipPortId ret) ])%list /\
    huawei.lbCreate R (h ++ [huawei.getNetworkCall networkId])%list "elb/loadbalancers" body
      = Ok resp /\
    huawei.UnmarshalLoadbalancer R resp = Ok ret /\
    cloudprovider.EipId loadbalancer <> EmptyString /\
    huawei.AssociateEipWithPortId R
      (h ++ [huawei.getNetworkCall networkId; huawei.lbCreateCall "elb/loadbalancers" body])%list
      (cloudprovider.EipId loadbalancer) (huawei.VipPortId ret) = Err m /\
    e = "SRegion.CreateLoadBalancer.AssociateEipWithPortId: " ++ m.
Proof.
  unfold huawei.CreateLoadBalancer.
  destruct (cloudprovider.NetworkIds loadbalancer) as [|networkId rest]; [discriminate|].
  unfold bindM, wrapM, callM, liftM, retM.
  destruct (huawei.getNetwork R h networkId) as [subnet|m|] eqn:Hn; cbn [Wrap];
    [|discriminate..].
  match goal with
  | |- context [huawei.lbCreate R ?h1 ?r ?b] =>
      destruct (huawei.lbCreate R h1 r b) as [resp|m|] eqn:Hc; [|discriminate..]
  end.
  destruct (huawei.UnmarshalLoadbalancer R resp) as [lb|m|] eqn:Hu; cbn [Wrap];
    [|discriminate..].
  rewrite length_zero_ltb.
  destruct (String.eqb_spec (cloudprovider.EipId loadbalancer) EmptyString) as [He|He];
    cbn [negb]; [discriminate|].
  match goal with
  | |- context [huawei.AssociateEipWithPortId R ?h2 ?a ?b] =>
      destruct (huawei.AssociateEipWithPortId R h2 a b) as [[]|m|] eqn:Ha; [discriminate| |discriminate]
  end.
  intros [= <- <- <-].
  eexists networkId, rest, subnet, _, resp, m.
  split; [reflexivity|]. split; [exact Hn|].
  split; [now rewrite <- !app_assoc|]. split; [exact Hc|]. split; [exact Hu|].
  split; [exact He|]. split; [|reflexivity].
  rewrite <- Ha. f_equal. now rewrite <- app_assoc.
Qed.

Lemma CreateLoadBalancer_error_with_lb_witness :
  exists networkId rest subnet body resp m,
    cloudprovider.NetworkIds refCreateOptions = networkId :: rest /\
    huawei.getNetwork refRegion [] networkId = Ok subnet /\
    huawei.lbCreate refRegion ([] ++ [huawei.getNetworkCall networkId])%list
      "elb/loadbalancers" body = Ok resp /\
    huawei.AssociateEipWithPortId refRegion
      ([] ++ [huawei.getNetworkCall networkId;
              huawei.lbCreateCall "elb/loadbalancers" body])%list
      "eip-9" "port-1" = Err m.
Proof.
  destruct (CreateLoadBalancer_error_with_lb refRegion refCreateOptions []
              [ huawei.getNetworkCall "net-1";
                huawei.lbCreateCall "elb/loadbalancers"
                  (<["loadbalancer" := huawei.PMap
                       (<["name" := huawei.PString "lb"]>
                          (<["vip_subnet_id" := huawei.PString "subnet-1"]>
                             (<["tenant_id" := huawei.PString "project-1"]> ∅)))]> ∅);
                huawei.AssociateEipWithPortIdCall "eip-9" "port-1" ]
              {| huawei.subnet := None; huawei.eip := None; huawei.Pools := [];
                 huawei.Listeners := []; huawei.VipPortId := "port-1"; huawei.Id := "lb-1" |}
              "SRegion.CreateLoadBalancer.AssociateEipWithPortId: eip in use" eq_refl)
    as (networkId & rest & subnet & body & resp & m & H1 & H2 & _ & H4 & _ & _ & H7 & _).
  exists networkId, rest, subnet, body, resp, m.
  split; [exact H1|]. split; [exact H2|]. split; [exact H4|exact H7].
Defined.

(** X28.  [CreateLoadBalancer] panics on options that name no network,
    before any call.  Otherwise it fetches the first network named, and
    only that one; an error of that call is returned under the name of the
    step and nothing is created.  Then it makes one create request, with
    the name, the subnet of the network and the project, and with the
    address exactly when one is asked for; an error of that request is
    returned as it is.  The only call after it is the association of the
    address, made only when an address id is named. *)
Theorem CreateLoadBalancer_calls {Resp} (R : huawei.SRegion Resp)
    (loadbalancer : cloudprovider.SLoadbalancerCreateOptions) (h : list huawei.Call) :
  match cloudprovider.NetworkIds loadbalancer with
  | [] => huawei.CreateLoadBalancer R loadbalancer h = (h, Panic)
  | networkId :: _ =>
      (forall m, huawei.getNetwork R h networkId = Err m ->
         huawei.CreateLoadBalancer R loadbalancer h =
         ((h ++ [huawei.getNetworkCall networkId])%list,
          Err ("SRegion.CreateLoadBalancer.getNetwork: " ++ m))) /\
      (forall subnet, huawei.getNetwork R h networkId = Ok subnet ->
         exists params calls,
           let body : gmap string huawei.Param := <["loadbalancer" := huawei.PMap params]> ∅ in
           fst (huawei.CreateLoadBalancer R loadbalancer h) =
             (h ++ huawei.getNetworkCall networkId
                :: huawei.lbCreateCall "elb/loadbalancers" body :: calls)%list /\
           params !! "name" = Some (huawei.PString (cloudprovider.LbName loadbalancer)) /\
           params !! "vip_subnet_id" = Some (huawei.PString (huawei.NeutronSubnetID subnet)) /\
           params !! "tenant_id" = Some (huawei.PString (huawei.projectId R)) /\
           params !! "vip_address" =
             (if String.eqb (cloudprovider.Address loadbalancer) EmptyString then None
              else Some (huawei.PString (cloudprovider.Address loadbalancer))) /\
           (calls = [] \/
            exists port,
              calls = [huawei.AssociateEipWithPortIdCall
                         (cloudprovider.EipId loadbalancer) port] /\
              cloudprovider.EipId loadbalancer <> EmptyString) /\
           (forall m,
              huawei.lbCreate R (h ++ [huawei.getNetworkCall networkId])%list
                "elb/loadbalancers" body = Err m ->
              huawei.CreateLoadBalancer R loadbalancer h =
              ((h ++ [huawei.getNetworkCall networkId;
                      huawei.lbCreateCall "elb/loadbalancers" body])%list, Err m)))
  end.
Proof.
  unfold huawei.CreateLoadBalancer.
  destruct (cloudprovider.NetworkIds loadbalancer) as [|networkId rest]; [reflexivity|].
  unfold bindM, wrapM, callM, liftM, retM. split.
  - intros m ->. reflexivity.
  - intros subnet ->. cbn [Wrap]. rewrite !length_zero_ltb.
    set (params :=
      if negb (String.eqb (cloudprovider.Address loadbalancer) EmptyString)
      then <["vip_address" := huawei.PString (cloudprovider.Address loadbalancer)]>
             (<["name" := huawei.PString (cloudprovider.LbName loadbalancer)]>
                (<["vip_subnet_id" := huawei.PString (huawei.NeutronSubnetID subnet)]>
                   (<["tenant_id" := huawei.PString (huawei.projectId R)]>
                      (∅ : gmap string huawei.Param))))
      else <["name" := huawei.PString (cloudprovider.LbName loadbalancer)]>
             (<["vip_subnet_id" := huawei.PString (huawei.NeutronSubnetID subnet)]>
                (<["tenant_id" := huawei.PString (huawei.projectId R)]>
                   (∅ : gmap string huawei.Param)))).
    set (body := <["loadbalancer" := huawei.PMap params]> (∅ : gmap string huawei.Param)).
    exists params,
      (match huawei.lbCreate R (h ++ [huawei.getNetworkCall networkId])%list
               "elb/loadbalancers" body with
       | Ok resp =>
           match huawei.UnmarshalLoadbalancer R resp with
           | Ok ret =>
               if String.eqb (cloudprovider.EipId loadbalancer) EmptyString then []
               else [huawei.AssociateEipWithPortIdCall (cloudprovider.EipId loadbalancer)
                       (huawei.VipPortId ret)]
           | _ => []
           end
       | _ => []
       end).
    cbn zeta. fold body.
    split; [|split; [|split; [|split; [|split; [|split]]]]]; cycle 1.
    + subst params.
      destruct (String.eqb (cloudprovider.Address loadbalancer) EmptyString); cbn [negb];
        lookup_keys; reflexivity.
    + subst params.
      destruct (String.eqb (cloudprovider.Address loadbalancer) EmptyString); cbn [negb];
        lookup_keys; reflexivity.
    + subst params.
      destruct (String.eqb (cloudprovider.Address loadbalancer) EmptyString); cbn [negb];
        lookup_keys; reflexivity.
    + subst params.
      destruct (String.eqb (cloudprovider.Address loadbalancer) EmptyString); cbn [negb];
        lookup_keys; reflexivity.
    + destruct (huawei.lbCreate R _ _ body) as [resp|m|]; [|now left..].
      destruct (huawei.UnmarshalLoadbalancer R resp) as [ret|m|]; [|now left..].
      destruct (String.eqb_spec (cloudprovider.EipId loadbalancer) EmptyString);
        [now left|right; eauto].
    + intros m ->. now rewrite <- app_assoc.
    + destruct (huawei.lbCreate R _ _ body) as [resp|m|];
        cbn [fst]; try (now rewrite <- app_assoc).
      destruct (huawei.UnmarshalLoadbalancer R resp) as [ret|m|]; cbn [Wrap fst];
        try (now rewrite <- app_assoc).
      destruct (String.eqb (cloudprovider.EipId loadbalancer) EmptyString); cbn [negb fst];
        [now rewrite <- app_assoc|].
      destruct (huawei.AssociateEipWithPortId R _ _ _); cbn [fst];
        now rewrite <- !app_assoc.
Qed.
